(** * flytekit.core.utils: a shallow embedding and its checked properties

    The development follows [src/flytekit/core/utils.py]:

    - [Dns]: the DNS-label sanitizer [_dnsify];
    - [ContainerDef]: the container descriptor builder
      [_get_container_definition];
    - [PodSpec]: the pod-spec serializer [_serialize_pod_spec], over an
      explicit object store, since the function deep-copies and then mutates;
    - [Timeit]: the [timeit] context manager and decorator.

    Python exceptions are results of type [result]; code that mutates objects
    is written in a state-and-exception monad over the object store. *)

From Stdlib Require Import NArith ZArith List String Ascii Bool Lia.
From stdpp Require Import base option list strings gmap.

Set Default Proof Using "Type".
Set Warnings "-register-all".

(** ** Exceptions and results *)

Inductive exn : Type :=
| UnicodeEncodeError
| ValueError (msg : string)
| AttributeError (msg : string)
| TypeError (msg : string)
| Exception (kind msg : string).

Inductive result (A : Type) : Type :=
| Ok (a : A)
| Raise (e : exn).
Arguments Ok {A} a.
Arguments Raise {A} e.

(** ** Python [str] values whose characters are inspected

    A Python [str] is a sequence of Unicode code points.  [_dnsify] looks at
    each character through [str.isalnum], [str.islower], [str.isdigit] and
    [str.lower]; on ASCII these are fixed and written out below, outside ASCII
    they are read from the interpreter's Unicode database, which is a
    parameter of the model ([unicode]). *)

Module pystr.

Abbreviation char := N.
Abbreviation str := (list char).

(** A literal: the code points of an ASCII string. *)
Definition of_string (s : string) : str :=
  map N_of_ascii (list_ascii_of_string s).

Definition underscore : char := 95%N.
Definition hyphen : char := 45%N.
Definition dot : char := 46%N.

Record unicode : Type := {
  uni_isalnum : char -> bool;
  uni_islower : char -> bool;
  uni_isdigit : char -> bool;
  uni_lower : char -> str
}.

Definition is_ascii (c : char) : bool := (c <? 128)%N.
Definition ascii_digit (c : char) : bool := (48 <=? c)%N && (c <=? 57)%N.
Definition ascii_lower (c : char) : bool := (97 <=? c)%N && (c <=? 122)%N.
Definition ascii_upper (c : char) : bool := (65 <=? c)%N && (c <=? 90)%N.

Section Unicode.
Variable U : unicode.

(** [ch.isalnum()] *)
Definition isalnum (c : char) : bool :=
  if is_ascii c then ascii_digit c || ascii_lower c || ascii_upper c
  else uni_isalnum U c.

(** [ch.islower()] *)
Definition islower (c : char) : bool :=
  if is_ascii c then ascii_lower c else uni_islower U c.

(** [ch.isdigit()] *)
Definition isdigit (c : char) : bool :=
  if is_ascii c then ascii_digit c else uni_isdigit U c.

(** [ch.lower()]: a string, since a lowercase mapping may be longer than one
    code point outside ASCII. *)
Definition lower (c : char) : str :=
  if is_ascii c then [if ascii_upper c then (c + 32)%N else c]
  else uni_lower U c.

End Unicode.

(** [value.encode("utf-8")]: lone surrogates cannot be encoded. *)
Definition utf8_char (c : char) : option (list N) :=
  if (c <? 0x80)%N then Some [c]
  else if (c <? 0x800)%N then Some [0xC0 + c / 64; 0x80 + c mod 64]%N
  else if (0xD800 <=? c)%N && (c <=? 0xDFFF)%N then None
  else if (c <? 0x10000)%N then
    Some [0xE0 + c / 4096; 0x80 + (c / 64) mod 64; 0x80 + c mod 64]%N
  else
    Some [0xF0 + c / 262144; 0x80 + (c / 4096) mod 64;
          0x80 + (c / 64) mod 64; 0x80 + c mod 64]%N.

Fixpoint encode_utf8 (s : str) : result (list N) :=
  match s with
  | [] => Ok []
  | c :: s' =>
    match utf8_char c with
    | None => Raise UnicodeEncodeError
    | Some bs =>
      match encode_utf8 s' with
      | Ok rest => Ok (bs ++ rest)
      | Raise e => Raise e
      end
    end
  end.

(** [res[-1] == c], read only where the source has checked [res] non-empty. *)
Definition last_is (c : char) (res : str) : bool :=
  match last res with
  | Some d => (d =? c)%N
  | None => false
  end.

Definition nonempty (res : str) : bool :=
  match res with
  | [] => false
  | _ :: _ => true
  end.

End pystr.

(** ** The DNS-label sanitizer *)

Module Dns.
Import pystr.

Definition MAX : nat := 63.
Definition HASH_LEN : nat := 10.

Definition is_separator (ch : char) : bool :=
  (ch =? underscore)%N || (ch =? hyphen)%N || (ch =? dot)%N.

Section Sanitizer.
Variable U : unicode.
(** [hashlib.sha224(data).hexdigest()], from bytes to the hexadecimal text. *)
Variable sha224_hexdigest : list N -> str.

(** The body of [for ch in value], as a function of the output built so far. *)
Definition step (res : str) (ch : char) : str :=
  if is_separator ch then
    if nonempty res && (length res <? 62) then res ++ [hyphen] else res
  else if negb (isalnum U ch) then res
  else if islower U ch || isdigit U ch then res ++ [ch]
  else
    let res :=
      if nonempty res && negb (last_is hyphen res) && (length res <? 62)
      then res ++ [hyphen] else res in
    res ++ lower U ch.

(** The character pass, from an output built so far. *)
Definition scan (res : str) (value : str) : str := fold_left step value res.

(** [if len(res) > 0 and res[-1] == "-": res = res[: len(res) - 1]] *)
Definition strip_trailing (res : str) : str :=
  if (0 <? length res) && last_is hyphen res
  then take (length res - 1) res else res.

(** [h = ...hexdigest()[:HASH_LEN]; "{}-{}".format(h, value[-(MAX - HASH_LEN - 1):])] *)
Definition shorten (value : str) : result str :=
  match encode_utf8 value with
  | Raise e => Raise e
  | Ok bytes =>
    let h := take HASH_LEN (sha224_hexdigest bytes) in
    Ok (h ++ [hyphen] ++ drop (length value - (MAX - HASH_LEN - 1)) value)
  end.

Definition _dnsify (value : str) : result str :=
  match (if MAX <=? length value then shorten value else Ok value) with
  | Raise e => Raise e
  | Ok value => Ok (strip_trailing (scan [] value))
  end.

End Sanitizer.

(** What the docstring asks of the result. *)
Definition label_char (c : char) : bool :=
  ascii_lower c || ascii_digit c || (c =? hyphen)%N.

Definition valid_dns_label (r : str) : bool :=
  forallb label_char r && (length r <=? 63)
  && negb (bool_decide (head r = Some hyphen))
  && negb (last_is hyphen r).

(** Text made of lowercase ASCII letters, digits and hyphens. *)
Definition label_chars (r : str) : Prop := Forall (fun c => label_char c = true) r.

(** The inputs of the spec's testable property: letters, digits, [_], [-], [.]. *)
Definition allowed_char (c : char) : bool :=
  ascii_lower c || ascii_upper c || ascii_digit c || is_separator c.

(** Facts about classes of code points: the boolean tests become
    inequalities, which [lia] settles. *)
Ltac num :=
  unfold allowed_char, label_char, is_separator,
    is_ascii, ascii_digit, ascii_lower, ascii_upper, underscore, hyphen, dot in *;
  repeat match goal with
         | H : _ && _ = true |- _ => apply andb_true_iff in H as [? ?]
         | H : _ || _ = false |- _ => apply orb_false_iff in H as [? ?]
         | H : (_ <=? _)%N = true |- _ => apply N.leb_le in H
         | H : (_ <=? _)%N = false |- _ => apply N.leb_gt in H
         | H : (_ <? _)%N = true |- _ => apply N.ltb_lt in H
         | H : (_ <? _)%N = false |- _ => apply N.ltb_ge in H
         | H : (_ =? _)%N = true |- _ => apply N.eqb_eq in H
         | H : (_ =? _)%N = false |- _ => apply N.eqb_neq in H
         | H : _ || _ = true |- _ => apply orb_true_iff in H as [?|?]
         | H : _ && _ = false |- _ => apply andb_false_iff in H as [?|?]
         end;
  rewrite ?orb_true_iff, ?andb_true_iff, ?orb_false_iff, ?andb_false_iff,
    ?N.leb_le, ?N.ltb_lt, ?N.eqb_eq, ?N.leb_gt, ?N.ltb_ge, ?N.eqb_neq;
  try lia.

End Dns.


(** ** Results and state as monads, and Python dictionaries *)

Definition result_bind {A B : Type} (r : result A) (k : A -> result B) : result B :=
  match r with
  | Ok a => k a
  | Raise e => Raise e
  end.

Notation "'let?' x ':=' r 'in' k" := (result_bind r (fun x => k))
  (at level 10, x name, r at level 100, k at level 200).

(** Computations on a state [S] that may raise: the state is kept when they do. *)
Definition M (S A : Type) : Type := S -> S * result A.

Definition ret {S A : Type} (a : A) : M S A := fun s => (s, Ok a).
Definition raise {S A : Type} (e : exn) : M S A := fun s => (s, Raise e).
Definition bind {S A B : Type} (m : M S A) (k : A -> M S B) : M S B :=
  fun s =>
    match m s with
    | (s', Ok a) => k a s'
    | (s', Raise e) => (s', Raise e)
    end.
Definition lift {S A : Type} (r : result A) : M S A := fun s => (s, r).

Notation "'let*' x ':=' m 'in' k" := (bind m (fun x => k))
  (at level 10, x name, m at level 100, k at level 200).

(** A [dict] with string keys keeps its keys in insertion order; assigning to a
    key that is present replaces the value where the key stands. *)
Module pydict.

Definition dict (V : Type) : Type := list (string * V).

Fixpoint setitem {V : Type} (d : dict V) (k : string) (v : V) : dict V :=
  match d with
  | [] => [(k, v)]
  | (k', v') :: d' =>
    if String.eqb k' k then (k', v) :: d' else (k', v') :: setitem d' k v
  end.

Fixpoint get {V : Type} (d : dict V) (k : string) : option V :=
  match d with
  | [] => None
  | (k', v') :: d' => if String.eqb k' k then Some v' else get d' k
  end.

End pydict.

(** ** flytekit.core.resources: the resource specification *)

Module resources.

(** Modelled from the spec: the resource specification of flytekit.core.resources,
    "a pair of (limits, requests) each mapping a fixed set of resource kinds
    (CPU, memory, GPU, ephemeral storage) to string-encoded quantities"; a
    dimension given more than once is a [Several]. *)
Inductive quantity : Type :=
| Single (q : string)
| Several (qs : list string).

Record Resources : Type := {
  cpu : option quantity;
  mem : option quantity;
  gpu : option quantity;
  ephemeral_storage : option quantity
}.

Record ResourceSpec : Type := {
  requests : Resources;
  limits : Resources
}.

Definition is_several (v : option quantity) : bool :=
  match v with
  | Some (Several _) => true
  | _ => false
  end.

(** Modelled from the spec: [_check_resource_is_singular] of
    flytekit.core.resources, which "fails with a validation error if a resource
    dimension is specified more than once" and otherwise hands the resources
    back. *)
Definition _check_resource_is_singular (resource : Resources) : result Resources :=
  if is_several (cpu resource) || is_several (mem resource)
     || is_several (gpu resource) || is_several (ephemeral_storage resource)
  then Raise (ValueError "can not be a list or tuple")
  else Ok resource.

(** Python truth value of a quantity: [None], the empty string and the empty
    sequence are false. *)
Definition truthy (q : quantity) : bool :=
  match q with
  | Single s => negb (String.eqb s "")
  | Several qs => match qs with [] => false | _ :: _ => true end
  end.

(** [Resources()]: no dimension given. *)
Definition unset : Resources :=
  {| cpu := None; mem := None; gpu := None; ephemeral_storage := None |}.

End resources.

(** ** flytekit.models.task: the container model *)

Module task_models.
Import pydict.

(** The protobuf enum [Resources.ResourceName] of flyteidl. *)
Inductive ResourceName : Type :=
| UNKNOWN | CPU | GPU | MEMORY | STORAGE | EPHEMERAL_STORAGE.

Record ResourceEntry : Type := {
  name : ResourceName;
  value : resources.quantity
}.

Record Resources : Type := {
  requests : list ResourceEntry;
  limits : list ResourceEntry
}.

(** Opaque here: it is stored in the container as it was passed. *)
Definition DataLoadingConfig : Type := string.

Record Container : Type := {
  image : string;
  command : list string;
  args : option (list string);
  resources : Resources;
  env : option (dict string);
  config : dict string;
  data_loading_config : option DataLoadingConfig
}.

End task_models.

(** ** The container descriptor builder *)

Module ContainerDef.
Import pydict.

(** [if v: entries.append(ResourceEntry(name, v))] *)
Definition append_if (entries : list task_models.ResourceEntry)
    (name : task_models.ResourceName) (v : option resources.quantity)
  : list task_models.ResourceEntry :=
  match v with
  | Some q =>
    if resources.truthy q
    then entries ++ [task_models.Build_ResourceEntry name q] else entries
  | None => entries
  end.

Definition _get_container_definition
    (image : string) (resource_spec : resources.ResourceSpec)
    (command : list string) (args : option (list string))
    (data_loading_config : option task_models.DataLoadingConfig)
    (environment : option (dict string))
  : result task_models.Container :=
  let? limits := resources._check_resource_is_singular (resources.limits resource_spec) in
  let? requests := resources._check_resource_is_singular (resources.requests resource_spec) in
  let ephemeral_storage_limit := resources.ephemeral_storage limits in
  let ephemeral_storage_request := resources.ephemeral_storage requests in
  let cpu_limit := resources.cpu limits in
  let cpu_request := resources.cpu requests in
  let gpu_limit := resources.gpu limits in
  let gpu_request := resources.gpu requests in
  let memory_limit := resources.mem limits in
  let memory_request := resources.mem requests in
  let requests := [] in
  let requests := append_if requests task_models.EPHEMERAL_STORAGE ephemeral_storage_request in
  let requests := append_if requests task_models.CPU cpu_request in
  let requests := append_if requests task_models.GPU gpu_request in
  let requests := append_if requests task_models.MEMORY memory_request in
  let limits := [] in
  let limits := append_if limits task_models.EPHEMERAL_STORAGE ephemeral_storage_limit in
  let limits := append_if limits task_models.CPU cpu_limit in
  let limits := append_if limits task_models.GPU gpu_limit in
  let limits := append_if limits task_models.MEMORY memory_limit in
  let environment :=
    match environment with
    | None => []
    | Some e => e
    end in
  Ok {| task_models.image := image;
        task_models.command := command;
        task_models.args := args;
        task_models.resources :=
          {| task_models.limits := limits; task_models.requests := requests |};
        task_models.env := Some environment;
        task_models.config := [];
        task_models.data_loading_config := data_loading_config |}.

End ContainerDef.


(** ** kubernetes.client (an external library): the classes the serializer
    touches, and the nested-mapping form [ApiClient.sanitize_for_serialization]
    gives them.  Attributes the serializer never reads are kept, already in
    that form, under [other]. *)

Module k8s.
Import pydict.

Inductive json : Type :=
| JNull
| JStr (s : string)
| JList (l : list json)
| JDict (d : list (string * json)).

Module V1EnvVar.
Record t : Type := new { name : string; value : option string }.
End V1EnvVar.

Module V1ResourceRequirements.
Record t : Type := new {
  limits : option (dict resources.quantity);
  requests : option (dict resources.quantity)
}.
End V1ResourceRequirements.

Module V1Container.
Record t : Type := new {
  name : string;
  image : option string;
  command : option (list string);
  args : option (list string);
  resources : option V1ResourceRequirements.t;
  env : option (list V1EnvVar.t);
  other : dict json
}.

(** [V1Container(name=n)] *)
Definition init (n : string) : t := new n None None None None None [].

Definition set_image (v : option string) (c : t) : t :=
  new (name c) v (command c) (args c) (resources c) (env c) (other c).
Definition set_command (v : option (list string)) (c : t) : t :=
  new (name c) (image c) v (args c) (resources c) (env c) (other c).
Definition set_args (v : option (list string)) (c : t) : t :=
  new (name c) (image c) (command c) v (resources c) (env c) (other c).
Definition set_resources (v : option V1ResourceRequirements.t) (c : t) : t :=
  new (name c) (image c) (command c) (args c) v (env c) (other c).
Definition set_env (v : option (list V1EnvVar.t)) (c : t) : t :=
  new (name c) (image c) (command c) (args c) (resources c) v (other c).
End V1Container.

(** An attribute is left out of the mapping when it is [None]. *)
Definition attr (k : string) (v : option json) : dict json :=
  match v with
  | Some j => [(k, j)]
  | None => []
  end.

Definition strs (l : list string) : json := JList (map JStr l).

Definition sanitize_quantity (q : resources.quantity) : json :=
  match q with
  | resources.Single s => JStr s
  | resources.Several qs => strs qs
  end.

Definition sanitize_quantities (d : dict resources.quantity) : json :=
  JDict (map (fun kv => (fst kv, sanitize_quantity (snd kv))) d).

Definition sanitize_env_var (e : V1EnvVar.t) : json :=
  JDict (attr "name" (Some (JStr (V1EnvVar.name e)))
         ++ attr "value" (JStr <$> V1EnvVar.value e)).

Definition sanitize_resources (r : V1ResourceRequirements.t) : json :=
  JDict (attr "limits" (sanitize_quantities <$> V1ResourceRequirements.limits r)
         ++ attr "requests" (sanitize_quantities <$> V1ResourceRequirements.requests r)).

Definition sanitize_container (c : V1Container.t) : json :=
  JDict (attr "args" (strs <$> V1Container.args c)
         ++ attr "command" (strs <$> V1Container.command c)
         ++ attr "env" ((fun l => JList (map sanitize_env_var l)) <$> V1Container.env c)
         ++ attr "image" (JStr <$> V1Container.image c)
         ++ attr "name" (Some (JStr (V1Container.name c)))
         ++ attr "resources" (sanitize_resources <$> V1Container.resources c)
         ++ V1Container.other c).

End k8s.

(** ** The object store

    [_serialize_pod_spec] deep-copies its argument and then assigns to
    attributes of the copy and appends to its lists.  Objects that are
    assigned to or appended to live in a store, at locations; two places
    of a pod spec may hold the same container object. *)

Module store.
Import pydict k8s.

Abbreviation loc := nat.

(** [V1PodSpec]: its [containers] attribute holds a list object. *)
Record V1PodSpec : Type := {
  containers : loc;
  spec_other : dict json
}.

(** Modelled from the spec: [flytekit.core.pod_template.PodTemplate], "an
    optional externally-typed pod specification plus the name identifying
    which of its containers is the primary one". *)
Record PodTemplate : Type := {
  pod_spec : option loc;
  primary_container_name : string
}.

Inductive obj : Type :=
| OContainer (c : V1Container.t)
| OList (items : list loc)
| OPodSpec (s : V1PodSpec)
| OPodTemplate (t : PodTemplate).

Abbreviation heap := (list obj).

(** A new object gets the next location. *)
Definition alloc (o : obj) : M heap loc := fun h => (h ++ [o], Ok (length h)).

(** A location outside the store has no counterpart in Python; reading one
    raises here, which keeps every function total. *)
Definition load (l : loc) : M heap obj :=
  fun h =>
    match h !! l with
    | Some o => (h, Ok o)
    | None => (h, Raise (AttributeError "no such object"))
    end.

Definition assign (l : loc) (o : obj) : M heap unit := fun h => (<[l := o]> h, Ok tt).

Definition get_container (l : loc) : M heap V1Container.t :=
  let* o := load l in
  match o with
  | OContainer c => ret c
  | _ => raise (AttributeError "not a V1Container")
  end.

Definition get_list (l : loc) : M heap (list loc) :=
  let* o := load l in
  match o with
  | OList items => ret items
  | _ => raise (TypeError "not a list")
  end.

Definition get_pod_spec (l : loc) : M heap V1PodSpec :=
  let* o := load l in
  match o with
  | OPodSpec s => ret s
  | _ => raise (AttributeError "not a V1PodSpec")
  end.

Definition get_template (l : loc) : M heap PodTemplate :=
  let* o := load l in
  match o with
  | OPodTemplate t => ret t
  | _ => raise (AttributeError "not a PodTemplate")
  end.

(** [container.attribute = v] *)
Definition setattr (l : loc) (f : V1Container.t -> V1Container.t) : M heap unit :=
  let* c := get_container l in assign l (OContainer (f c)).

(** [items.append(x)] *)
Definition list_append (l : loc) (x : loc) : M heap unit :=
  let* items := get_list l in assign l (OList (items ++ [x])).

(** [pod_spec.containers = v] *)
Definition set_containers (l : loc) (v : loc) : M heap unit :=
  let* s := get_pod_spec l in
  assign l (OPodSpec {| containers := v; spec_other := spec_other s |}).

(** [for x in items: body(x)] *)
Fixpoint for_each (items : list loc) (body : loc -> M heap unit) : M heap unit :=
  match items with
  | [] => ret tt
  | x :: rest => let* _ := body x in for_each rest body
  end.

Fixpoint get_containers (items : list loc) : M heap (list V1Container.t) :=
  match items with
  | [] => ret []
  | x :: rest =>
    let* c := get_container x in
    let* cs := get_containers rest in
    ret (c :: cs)
  end.

(** [copy.deepcopy] of a pod template: every object reachable from it is
    copied to a new location, once ([memo] maps an object already copied to
    its copy, so sharing inside the template is kept). *)
Fixpoint deepcopy_containers (memo : gmap loc loc) (items : list loc) : M heap (list loc) :=
  match items with
  | [] => ret []
  | x :: rest =>
    match memo !! x with
    | Some y =>
      let* rest' := deepcopy_containers memo rest in
      ret (y :: rest')
    | None =>
      let* c := get_container x in
      let* y := alloc (OContainer c) in
      let* rest' := deepcopy_containers (<[x := y]> memo) rest in
      ret (y :: rest')
    end
  end.

Definition deepcopy (pod_template : loc) : M heap loc :=
  let* t := get_template pod_template in
  match pod_spec t with
  | None => alloc (OPodTemplate t)
  | Some ps =>
    let* s := get_pod_spec ps in
    let* items := get_list (containers s) in
    let* items' := deepcopy_containers ∅ items in
    let* l' := alloc (OList items') in
    let* ps' := alloc (OPodSpec {| containers := l'; spec_other := spec_other s |}) in
    alloc (OPodTemplate {| pod_spec := Some ps';
                           primary_container_name := primary_container_name t |})
  end.

(** [ApiClient().sanitize_for_serialization(pod_spec)] *)
Definition sanitize_for_serialization (ps : loc) : M heap json :=
  let* s := get_pod_spec ps in
  let* items := get_list (containers s) in
  let* cs := get_containers items in
  ret (JDict (attr "containers" (Some (JList (map sanitize_container cs)))
              ++ spec_other s)).

(** *** A frame discipline for the store

    The locations an object refers to; a store whose objects at or above [n]
    refer to nothing below [n]; and computations that, run in such a store,
    leave the objects below [n] as they are (whether they return or raise)
    and return a value that satisfies [Q]. *)
Definition refs (o : obj) : list loc :=
  match o with
  | OContainer _ => []
  | OList items => items
  | OPodSpec s => [containers s]
  | OPodTemplate t => match pod_spec t with Some ps => [ps] | None => [] end
  end.

Definition apart (n : nat) (h : heap) : Prop :=
  forall l o, n <= l -> h !! l = Some o -> Forall (fun r => n <= r) (refs o).

Definition safe {A : Type} (n : nat) (m : M heap A) (Q : A -> Prop) : Prop :=
  forall h, n <= length h -> apart n h ->
    n <= length (m h).1 /\ apart n (m h).1 /\ take n (m h).1 = take n h
    /\ forall a, (m h).2 = Ok a -> Q a.

(** What [copy.deepcopy] has done so far, for a store [h] that extends the
    caller's store [h0]: each container of [h0] recorded in [memo] has a copy
    with the same attributes among the new objects of [h], and no two
    containers share a copy. *)
Definition copied (h0 h : heap) (memo : gmap loc loc) : Prop :=
  (forall x y, memo !! x = Some y ->
     length h0 <= y
     /\ exists c, h0 !! x = Some (OContainer c) /\ h !! y = Some (OContainer c))
  /\ (forall x1 x2 y, memo !! x1 = Some y -> memo !! x2 = Some y -> x1 = x2).

Definition is_container (h : heap) (x : loc) : Prop :=
  exists c, h !! x = Some (OContainer c).

End store.


(** ** The pod-spec serializer *)

Module PodSpec.
Import pydict k8s store.

(** [ResourceName.Name(n)]: the protobuf name of an enum value.  The call
    raises [ValueError] for a number that is no value of the enum; an entry of
    type [task_models.ResourceEntry] carries a value of the enum, so that case
    has no counterpart here. *)
Definition Name (n : task_models.ResourceName) : string :=
  match n with
  | task_models.UNKNOWN => "UNKNOWN"
  | task_models.CPU => "CPU"
  | task_models.GPU => "GPU"
  | task_models.MEMORY => "MEMORY"
  | task_models.STORAGE => "STORAGE"
  | task_models.EPHEMERAL_STORAGE => "EPHEMERAL_STORAGE"
  end.

(** [s.lower()] and [s.replace(old, new)] for one-character [old] and [new],
    on ASCII text. *)
Definition lower_ascii (a : ascii) : ascii :=
  let n := N_of_ascii a in
  if pystr.ascii_upper n then ascii_of_N (n + 32) else a.

Fixpoint lower (s : string) : string :=
  match s with
  | EmptyString => EmptyString
  | String a s' => String (lower_ascii a) (lower s')
  end.

Fixpoint replace (old new : ascii) (s : string) : string :=
  match s with
  | EmptyString => EmptyString
  | String a s' => String (if Ascii.eqb a old then new else a) (replace old new s')
  end.

Definition _sanitize_resource_name (resource : task_models.ResourceEntry) : string :=
  replace "_" "-" (lower (Name (task_models.name resource))).

(** [d = {}; for resource in entries: d[_sanitize_resource_name(resource)] = resource.value] *)
Definition resource_dict (entries : list task_models.ResourceEntry)
  : dict resources.quantity :=
  fold_left
    (fun d resource =>
       setitem d (_sanitize_resource_name resource) (task_models.value resource))
    entries [].

(** [container.env or []] *)
Definition env_or_empty (c : V1Container.t) : list V1EnvVar.t :=
  match V1Container.env c with
  | Some (e :: es) => e :: es
  | _ => []
  end.

(** The first loop: is some container named as the primary one?  It stops at
    the first that is. *)
Fixpoint primary_exists_in (primary_container_name : string) (containers : list loc)
  : M heap bool :=
  match containers with
  | [] => ret false
  | container :: rest =>
    let* c := get_container container in
    if String.eqb (V1Container.name c) primary_container_name then ret true
    else primary_exists_in primary_container_name rest
  end.

Section Serializer.
(** flytekit.configuration, imported by utils.py: the settings and the image
    configuration they carry, and the image-resolution step of
    flytekit.core.python_auto_container, which returns an image name or
    raises. *)
Variables SerializationSettings ImageConfig : Type.
Variable image_config : SerializationSettings -> ImageConfig.
Variable get_registerable_container_image : option string -> ImageConfig -> result string.

(** The body of the second loop, up to [final_containers.append(container)]. *)
Definition merge (primary_container_name : string)
    (primary_container : task_models.Container) (settings : SerializationSettings)
    (container : loc) : M heap unit :=
  let* c := get_container container in
  if String.eqb (V1Container.name c) primary_container_name then
    let* _ :=
      match V1Container.image c with
      | None =>
        setattr container
          (V1Container.set_image (Some (task_models.image primary_container)))
      | Some img =>
        let* r := lift (get_registerable_container_image (Some img) (image_config settings)) in
        setattr container (V1Container.set_image (Some r))
      end in
    let* _ := setattr container
                (V1Container.set_command (Some (task_models.command primary_container))) in
    let* _ := setattr container
                (V1Container.set_args (task_models.args primary_container)) in
    let limits :=
      resource_dict (task_models.limits (task_models.resources primary_container)) in
    let requests :=
      resource_dict (task_models.requests (task_models.resources primary_container)) in
    let resource_requirements :=
      V1ResourceRequirements.new (Some limits) (Some requests) in
    let* _ :=
      if (0 <? length limits) || (0 <? length requests)
      then setattr container (V1Container.set_resources (Some resource_requirements))
      else ret tt in
    match task_models.env primary_container with
    | Some e =>
      let* c := get_container container in
      setattr container
        (V1Container.set_env
           (Some (map (fun kv => V1EnvVar.new (fst kv) (Some (snd kv))) e
                  ++ env_or_empty c)))
    | None => ret tt
    end
  else
    let* r := lift (get_registerable_container_image (V1Container.image c)
                      (image_config settings)) in
    setattr container (V1Container.set_image (Some r)).

(** What [merge] leaves at the location of a container [c], as a function of
    [c]; [merge_run] below shows that this is what the assignments of [merge]
    add up to. *)
Definition merged (primary_container_name : string)
    (primary_container : task_models.Container) (settings : SerializationSettings)
    (c : V1Container.t) : result V1Container.t :=
  if String.eqb (V1Container.name c) primary_container_name then
    let? image :=
      match V1Container.image c with
      | None => Ok (task_models.image primary_container)
      | Some img => get_registerable_container_image (Some img) (image_config settings)
      end in
    let c1 := V1Container.set_image (Some image) c in
    let c2 := V1Container.set_command (Some (task_models.command primary_container)) c1 in
    let c3 := V1Container.set_args (task_models.args primary_container) c2 in
    let limits :=
      resource_dict (task_models.limits (task_models.resources primary_container)) in
    let requests :=
      resource_dict (task_models.requests (task_models.resources primary_container)) in
    let c4 :=
      if (0 <? length limits) || (0 <? length requests)
      then V1Container.set_resources
             (Some (V1ResourceRequirements.new (Some limits) (Some requests))) c3
      else c3 in
    Ok match task_models.env primary_container with
       | Some e =>
         V1Container.set_env
           (Some (map (fun kv => V1EnvVar.new (fst kv) (Some (snd kv))) e
                  ++ env_or_empty c4)) c4
       | None => c4
       end
  else
    let? image := get_registerable_container_image (V1Container.image c)
                    (image_config settings) in
    Ok (V1Container.set_image (Some image) c).

Definition _serialize_pod_spec (pod_template : loc)
    (primary_container : task_models.Container) (settings : SerializationSettings)
  : M heap json :=
  let* t := get_template pod_template in
  match pod_spec t with
  | None => ret (JDict [])
  | Some _ =>
    let* pod_template := deepcopy pod_template in
    let* t := get_template pod_template in
    match pod_spec t with
    | None => raise (AttributeError "containers")
    | Some ps =>
      let* s := get_pod_spec ps in
      let containers := containers s in
      let* items := get_list containers in
      let* primary_exists := primary_exists_in (primary_container_name t) items in
      let* _ :=
        if primary_exists then ret tt
        else
          let* placeholder :=
            alloc (OContainer (V1Container.init (primary_container_name t))) in
          list_append containers placeholder in
      let* final_containers := alloc (OList []) in
      let* items := get_list containers in
      let* _ :=
        for_each items
          (fun container =>
             let* _ := merge (primary_container_name t) primary_container settings
                         container in
             list_append final_containers container) in
      let* _ := set_containers ps final_containers in
      sanitize_for_serialization ps
    end
  end.

End Serializer.

Arguments merge {SerializationSettings ImageConfig} image_config
  get_registerable_container_image primary_container_name primary_container
  settings container.
Arguments merged {SerializationSettings ImageConfig} image_config
  get_registerable_container_image primary_container_name primary_container
  settings c.
Arguments _serialize_pod_spec {SerializationSettings ImageConfig} image_config
  get_registerable_container_image pod_template primary_container settings.

(** Reading the result: attribute [k] of the [i]-th container of a serialized
    pod spec. *)
Definition container_attr (out : json) (i : nat) (k : string) : option json :=
  match out with
  | JDict d =>
    match get d "containers" with
    | Some (JList js) =>
      match js !! i with
      | Some (JDict c) => get c k
      | _ => None
      end
    | _ => None
    end
  | _ => None
  end.

End PodSpec.

(** ** Sample inputs, used to run the definitions *)

Module Samples.
Import pydict k8s store.

(** A stand-in for the image resolution: it appends the configured suffix to a
    declared image and raises when there is none. *)
Definition suffix_resolver (img : option string) (suffix : string) : result string :=
  match img with
  | Some i => Ok (i ++ suffix)%string
  | None => Raise (ValueError "no image")
  end.

Definition settings_suffix (settings : string) : string := settings.

Definition computed : task_models.Container :=
  {| task_models.image := "task:1";
     task_models.command := ["pyflyte-execute"];
     task_models.args := Some ["--inputs"];
     task_models.resources :=
       {| task_models.requests := [];
          task_models.limits :=
            [ {| task_models.name := task_models.EPHEMERAL_STORAGE;
                 task_models.value := resources.Single "1Gi" |} ] |};
     task_models.env := Some [("K", "V")];
     task_models.config := [];
     task_models.data_loading_config := None |}.

Definition template (ps : loc) : PodTemplate :=
  {| pod_spec := Some ps; primary_container_name := "primary" |}.

Definition primary_x : V1Container.t :=
  V1Container.new "primary" (Some "x") None None None None [].

Definition sidecar_y : V1Container.t :=
  V1Container.new "sidecar" (Some "y") None None None None [].

Definition spec (l : loc) : V1PodSpec := {| containers := l; spec_other := [] |}.

(** A template whose primary container declares the image ["x"], next to a
    sidecar. *)
Definition declared_store : heap :=
  [ OContainer primary_x; OContainer sidecar_y; OList [0; 1];
    OPodSpec (spec 2); OPodTemplate (template 3) ].

(** The same primary container object listed twice. *)
Definition shared_store : heap :=
  [ OContainer primary_x; OList [0; 0]; OPodSpec (spec 1); OPodTemplate (template 2) ].

(** A template with a sidecar only. *)
Definition sidecar_store : heap :=
  [ OContainer sidecar_y; OList [0]; OPodSpec (spec 1); OPodTemplate (template 2) ].

(** A template without a pod spec. *)
Definition bare_store : heap :=
  [ OPodTemplate {| pod_spec := None; primary_container_name := "primary" |} ].

End Samples.


(** ** The timing context manager and decorator *)

Module Timeit.

(** [with cm: body], for a body that returns a value: [__enter__], the body,
    then [__exit__] with the exception the body raised, if any.  The exception
    is raised again unless [__exit__] returns a true value; when it is
    swallowed the statement yields no value ([None]). *)
Definition with_ {S A : Type} (enter : M S unit) (exit : option exn -> M S bool)
    (body : M S A) : M S (option A) :=
  let* _ := enter in
  fun s =>
    match body s with
    | (s1, Ok v) =>
      match exit None s1 with
      | (s2, Ok _) => (s2, Ok (Some v))
      | (s2, Raise e') => (s2, Raise e')
      end
    | (s1, Raise e) =>
      match exit (Some e) s1 with
      | (s2, Ok true) => (s2, Ok None)
      | (s2, Ok false) => (s2, Raise e)
      | (s2, Raise e') => (s2, Raise e')
      end
    end.

Section Timer.
(** Wall-clock instants ([datetime]) and timer readings ([float] seconds) with
    their subtraction; [env] is the rest of the process, which the clocks read
    and the wrapped code acts on. *)
Variables datetime seconds env : Type.
Variable sub : seconds -> seconds -> seconds.
Variable datetime_now : env -> env * datetime.
Variable perf_counter : env -> env * seconds.
Variable process_time : env -> env * seconds.

Record TimeInfo : Type := {
  Name : string;
  Start : option datetime;
  Finish : datetime;
  WallTime : seconds;
  ProcessTime : seconds
}.

(** The attributes of a [timeit] object. *)
Record timeit : Type := {
  _name : string;
  start_time : option datetime;
  _start_wall_time : option seconds;
  _start_process_time : option seconds
}.

(** [timeit(name)] *)
Definition __init__ (name : string) : timeit :=
  {| _name := name; start_time := None;
     _start_wall_time := None; _start_process_time := None |}.

(** The process as the timer sees it: the timer object itself, the timeline
    of the current context, the log, and everything else. *)
Record process : Type := {
  self : timeit;
  timeline_deck : list TimeInfo;
  log : list (string * seconds);
  world : env
}.

Definition __enter__ : M process unit :=
  fun s =>
    let (w, now) := datetime_now (world s) in
    let (w, wall) := perf_counter w in
    let (w, cpu) := process_time w in
    ({| self := {| _name := _name (self s);
                   start_time := Some now;
                   _start_wall_time := Some wall;
                   _start_process_time := Some cpu |};
        timeline_deck := timeline_deck s;
        log := log s;
        world := w |}, Ok tt).

(** Modelled from the spec: [TimeLineDeck.append_time_info] of the current
    context (found through flytekit.core.context_manager), which appends a
    record to "an append-only log of named timing records". *)
Definition append_time_info (info : TimeInfo) : M process unit :=
  fun s =>
    ({| self := self s;
        timeline_deck := timeline_deck s ++ [info];
        log := log s;
        world := world s |}, Ok tt).

(** [logger.info(f"{name}. [Time: {wall:.6f}s]")]: the line is kept as the two
    values it is formatted from. *)
Definition logger_info (name : string) (wall : seconds) : M process unit :=
  fun s =>
    ({| self := self s;
        timeline_deck := timeline_deck s;
        log := log s ++ [(name, wall)];
        world := world s |}, Ok tt).

(** A clock reading moves the rest of the process along. *)
Definition read {V : Type} (clock : env -> env * V) : M process V :=
  fun s =>
    let (w, v) := clock (world s) in
    ({| self := self s; timeline_deck := timeline_deck s; log := log s; world := w |},
     Ok v).

Definition get_self : M process timeit := fun s => (s, Ok (self s)).

(** [end - start], which raises when the timer was never started. *)
Definition elapsed (finish : seconds) (start : option seconds) : M process seconds :=
  match start with
  | Some t => ret (sub finish t)
  | None => raise (TypeError "unsupported operand type(s) for -: 'float' and 'NoneType'")
  end.

(** It returns [None], a false value. *)
Definition __exit__ (exc : option exn) : M process bool :=
  let* end_time := read datetime_now in
  let* end_wall_time := read perf_counter in
  let* end_process_time := read process_time in
  let* me := get_self in
  let* wall := elapsed end_wall_time (_start_wall_time me) in
  let* cpu := elapsed end_process_time (_start_process_time me) in
  let* _ := append_time_info
              {| Name := _name me; Start := start_time me; Finish := end_time;
                 WallTime := wall; ProcessTime := cpu |} in
  let* wall := elapsed end_wall_time (_start_wall_time me) in
  let* _ := logger_info (_name me) wall in
  ret false.

(** [timeit(name)(func)]: [with self: return func(args)] *)
Definition __call__ {Args A : Type} (func : Args -> M process A)
  : Args -> M process (option A) :=
  fun args => with_ __enter__ __exit__ (func args).

End Timer.

Arguments Name {datetime seconds} t.
Arguments Start {datetime seconds} t.
Arguments Finish {datetime seconds} t.
Arguments WallTime {datetime seconds} t.
Arguments ProcessTime {datetime seconds} t.
Arguments _name {datetime seconds} t.
Arguments start_time {datetime seconds} t.
Arguments _start_wall_time {datetime seconds} t.
Arguments _start_process_time {datetime seconds} t.
Arguments self {datetime seconds env} p.
Arguments timeline_deck {datetime seconds env} p.
Arguments log {datetime seconds env} p.
Arguments world {datetime seconds env} p.
Arguments Build_process {datetime seconds env} self timeline_deck log world.
Arguments __enter__ {datetime seconds env} datetime_now perf_counter process_time.
Arguments __exit__ {datetime seconds env} sub datetime_now perf_counter process_time exc.
Arguments __call__ {datetime seconds env} sub datetime_now perf_counter process_time
  {Args A} func.

End Timeit.


(** ** The self-deleting temporary directory *)

Module TempDir.

Section Files.
(** The file system, and the operations of [tempfile], [os.path] and [shutil]
    that the class calls: [tempfile.mkdtemp(dir, prefix)] and
    [shutil.rmtree(path)] change the file system and may raise,
    [os.path.exists(path)] and [os.path.join(a, b)] do neither. *)
Variable fs : Type.
Variable mkdtemp : option string -> string -> fs -> fs * result string.
Variable path_exists : string -> fs -> bool.
Variable rmtree : string -> fs -> fs * result unit.
Variable path_join : string -> string -> string.

(** The attributes of an [AutoDeletingTempDir]; [_name] is the attribute of
    [Directory] that the [name] property reads. *)
Record AutoDeletingTempDir : Type := {
  _name : option string;
  _tmp_dir : option string;
  _working_dir_prefix : string;
  _cleanup : bool
}.

(** [AutoDeletingTempDir(working_dir_prefix, tmp_dir, cleanup)] *)
Definition __init__ (working_dir_prefix tmp_dir : option string) (cleanup : bool)
  : AutoDeletingTempDir :=
  {| _tmp_dir := tmp_dir;
     _working_dir_prefix :=
       match working_dir_prefix with
       | Some p => if String.eqb p EmptyString then EmptyString else (p ++ "_")%string
       | None => EmptyString
       end;
     _cleanup := cleanup;
     _name := None |}.

(** The process as the object sees it: the object itself and the file
    system. *)
Record process : Type := {
  self : AutoDeletingTempDir;
  files : fs
}.

Definition get_self : M process AutoDeletingTempDir := fun s => (s, Ok (self s)).

(** [self._name = v] *)
Definition set_name (v : option string) : M process unit :=
  fun s =>
    ({| self := {| _name := v; _tmp_dir := _tmp_dir (self s);
                   _working_dir_prefix := _working_dir_prefix (self s);
                   _cleanup := _cleanup (self s) |};
        files := files s |}, Ok tt).

(** A call that acts on the file system. *)
Definition on_files {A : Type} (op : fs -> fs * result A) : M process A :=
  fun s => let (f, r) := op (files s) in ({| self := self s; files := f |}, r).

(** It returns [self], which the wrapped code finds in the process. *)
Definition __enter__ : M process unit :=
  let* me := get_self in
  let* path := on_files (mkdtemp (_tmp_dir me) (_working_dir_prefix me)) in
  set_name (Some path).

(** [os.path.join(self.name, name)], which raises when [self.name] is
    [None]. *)
Definition get_named_tempfile (name : string) : M process string :=
  let* me := get_self in
  match _name me with
  | Some dir => ret (path_join dir name)
  | None => raise (TypeError "expected str, bytes or os.PathLike object, not NoneType")
  end.

Definition _cleanup_dir : M process unit :=
  let* me := get_self in
  match _name me with
  | Some path =>
    if negb (String.eqb path EmptyString) && _cleanup me then
      let* _ :=
        on_files (fun f => if path_exists path f then rmtree path f else (f, Ok tt)) in
      set_name None
    else ret tt
  | None => ret tt
  end.

Definition force_cleanup : M process unit := _cleanup_dir.

(** It returns [None], a false value. *)
Definition __exit__ (exc : option exn) : M process bool :=
  let* _ := _cleanup_dir in ret false.

End Files.

Arguments self {fs} p.
Arguments files {fs} p.
Arguments Build_process {fs} self files.
Arguments get_self {fs}.
Arguments set_name {fs} v.
Arguments on_files {fs A} op.
Arguments __enter__ {fs} mkdtemp.
Arguments get_named_tempfile {fs} path_join name.
Arguments _cleanup_dir {fs} path_exists rmtree.
Arguments force_cleanup {fs} path_exists rmtree.
Arguments __exit__ {fs} path_exists rmtree exc.

(** A file system to run the class on: the set of the directories that
    exist; the new directory is named after the prefix. *)
Definition sample_mkdtemp (dir : option string) (prefix : string) (f : list string)
  : list string * result string :=
  let path := ("/tmp/" ++ prefix ++ "0")%string in (path :: f, Ok path).

Definition sample_exists (path : string) (f : list string) : bool :=
  existsb (String.eqb path) f.

Definition sample_rmtree (path : string) (f : list string) : list string * result unit :=
  (List.filter (fun p => negb (String.eqb path p)) f, Ok tt).

End TempDir.

(** ** The source scan and the boolean parser *)

Module Helpers.
Import pystr.

(** [hay.startswith(needle)] and [needle in hay], for strings. *)
Fixpoint startswith (hay needle : str) : bool :=
  match needle, hay with
  | [], _ => true
  | _ :: _, [] => false
  | c :: needle', d :: hay' => (c =? d)%N && startswith hay' needle'
  end.

Fixpoint contains (hay needle : str) : bool :=
  startswith hay needle
  || match hay with
     | [] => false
     | _ :: hay' => contains hay' needle
     end.

Section Scan.
(** [ch.isspace()], from the interpreter's Unicode database. *)
Variable isspace : char -> bool.
(** Function objects, and [inspect.getsourcelines(func)], which gives the
    source lines with the number of the first one, or raises. *)
Variable function : Type.
Variable getsourcelines : function -> result (list str * nat).

Fixpoint lstrip (s : str) : str :=
  match s with
  | [] => []
  | c :: s' => if isspace c then lstrip s' else s
  end.

(** [s.strip()] *)
Definition strip (s : str) : str := rev (lstrip (rev (lstrip s))).

(** [for line in source_lines: ...; return False] *)
Fixpoint scan_lines (source_lines : list str) : bool :=
  match source_lines with
  | [] => false
  | line :: rest =>
    if contains (strip line) (of_string "return") then true
    else if contains (strip line) (of_string "yield") then true
    else scan_lines rest
  end.

Definition has_return_statement (func : function) : result bool :=
  match getsourcelines func with
  | Ok lines => Ok (scan_lines (fst lines))
  | Raise e => Raise e
  end.

End Scan.

Section Lower.
(** [value.lower()] for a whole string. *)
Variable str_lower : str -> str.

Definition str_eqb (a b : str) : bool := bool_decide (a = b).

(** [x in (a, b, c)] *)
Definition str2bool (value : option str) : bool :=
  match value with
  | None => false
  | Some value =>
    existsb (str_eqb (str_lower value)) [of_string "true"; of_string "t"; of_string "1"]
  end.

End Lower.

(** Lowering an ASCII string, character by character, and the white space of
    ASCII. *)
Definition ascii_lower_str (s : str) : str :=
  map (fun c => if ascii_upper c then (c + 32)%N else c) s.

Definition ascii_space (c : char) : bool :=
  ((9 <=? c)%N && (c <=? 13)%N) || ((28 <=? c)%N && (c <=? 32)%N).

(** The same letter, whatever its case: [a] is [b] or the capital of [b]. *)
Definition caseless (a b : char) : Prop := a = b \/ (a + 32)%N = b.

End Helpers.

(** ** Words for the properties of the sanitizer *)

Module DnsWords.
Import pystr Dns.

Definition ascii_alnum (c : char) : bool :=
  ascii_digit c || ascii_lower c || ascii_upper c.

(** The number of ASCII capital letters of a string. *)
Definition capitals (value : str) : nat := length (List.filter ascii_upper value).

(** No two separators stand side by side. *)
Fixpoint no_double_separator (value : str) : bool :=
  match value with
  | [] => true
  | a :: rest =>
    match rest with
    | b :: _ => negb (is_separator a && is_separator b)
    | [] => true
    end && no_double_separator rest
  end.

(** The characters the pass does not skip. *)
Definition kept (U : unicode) (c : char) : bool := is_separator c || isalnum U c.

(** Code points that UTF-8 cannot encode. *)
Definition surrogate (c : char) : bool := (0xD800 <=? c)%N && (c <=? 0xDFFF)%N.

(** A character of a hexadecimal digest. *)
Definition hexdigit (c : char) : bool :=
  ascii_digit c || ((97 <=? c)%N && (c <=? 102)%N).

(** A Unicode database that knows no letter or digit outside ASCII, and a
    digest function that returns 56 times the digit [0]: stand-ins to run the
    sanitizer on long values. *)
Definition ascii_only : unicode :=
  {| uni_isalnum := fun _ => false; uni_islower := fun _ => false;
     uni_isdigit := fun _ => false; uni_lower := fun c => [c] |}.

Definition zero_digest (data : list N) : str := repeat 48%N 56.

End DnsWords.

(** ** Words for the properties of the container descriptor builder *)

Module ContainerWords.

(** The four resource kinds the builder looks at, in the order of its tests. *)
Definition kinds : list task_models.ResourceName :=
  [task_models.EPHEMERAL_STORAGE; task_models.CPU; task_models.GPU; task_models.MEMORY].

(** The dimension of a resource specification that a resource kind names. *)
Definition dimension (n : task_models.ResourceName) (r : resources.Resources)
  : option resources.quantity :=
  match n with
  | task_models.EPHEMERAL_STORAGE => resources.ephemeral_storage r
  | task_models.CPU => resources.cpu r
  | task_models.GPU => resources.gpu r
  | task_models.MEMORY => resources.mem r
  | task_models.UNKNOWN | task_models.STORAGE => None
  end.

(** A resource specification to run the builder on: requests of cpu ["500m"]
    and an empty gpu string, limits of memory ["2Gi"] and cpu ["1"]. *)
Definition sample_spec : resources.ResourceSpec :=
  {| resources.requests :=
       {| resources.cpu := Some (resources.Single "500m");
          resources.mem := None;
          resources.gpu := Some (resources.Single EmptyString);
          resources.ephemeral_storage := None |};
     resources.limits :=
       {| resources.cpu := Some (resources.Single "1");
          resources.mem := Some (resources.Single "2Gi");
          resources.gpu := None;
          resources.ephemeral_storage := None |} |}.

End ContainerWords.

(** ** Words for the properties of the pod-spec serializer *)

Module PodSpecWords.
Import pydict k8s store PodSpec.

(** The containers of a serialized pod spec. *)
Definition serialized_containers (out : json) : option (list json) :=
  match out with
  | JDict d =>
    match get d "containers" with
    | Some (JList js) => Some js
    | _ => None
    end
  | _ => None
  end.

(** Is one of the listed containers named [name]? *)
Definition declares (h : heap) (items : list loc) (name : string) : bool :=
  existsb
    (fun x =>
       match h !! x with
       | Some (OContainer c) => String.eqb (V1Container.name c) name
       | _ => false
       end)
    items.

(** A template with a sidecar that declares no image, and one whose primary
    container declares resources and an environment variable. *)
Definition imageless_store : heap :=
  [ OContainer (V1Container.init "sidecar"); OList [0];
    OPodSpec (Samples.spec 1); OPodTemplate (Samples.template 2) ].

(** A stand-in for the image resolution that replaces the placeholder by the
    configured image and gives every other image back as it is, and a template
    that lists twice a primary container declaring the placeholder. *)
Definition placeholder_resolver (img : option string) (configured : string)
  : result string :=
  match img with
  | Some i => if String.eqb i "{{.image.default.fqn}}" then Ok configured else Ok i
  | None => Raise (ValueError "no image")
  end.

Definition primary_templated : V1Container.t :=
  V1Container.new "primary" (Some "{{.image.default.fqn}}") None None None None [].

Definition shared_placeholder_store : heap :=
  [ OContainer primary_templated; OList [0; 0];
    OPodSpec (Samples.spec 1); OPodTemplate (Samples.template 2) ].

(** The resource specification from which the builder makes the computed
    primary container of the samples. *)
Definition built_spec : resources.ResourceSpec :=
  {| resources.requests := resources.unset;
     resources.limits :=
       {| resources.cpu := None; resources.mem := None; resources.gpu := None;
          resources.ephemeral_storage := Some (resources.Single "1Gi") |} |}.

Definition primary_full : V1Container.t :=
  V1Container.new "primary" (Some "x") (Some ["sh"]) (Some ["-c"])
    (Some (V1ResourceRequirements.new (Some [("cpu", resources.Single "1")]) None))
    (Some [V1EnvVar.new "A" (Some "B")]) [("tty", JStr "true")].

Definition full_store : heap :=
  [ OContainer primary_full; OContainer Samples.sidecar_y; OList [0; 1];
    OPodSpec (Samples.spec 2); OPodTemplate (Samples.template 3) ].

End PodSpecWords.

(** ** Words for the properties of the timer *)

Module TimeitWords.

Section Readings.
Variables datetime seconds env : Type.
Variable datetime_now : env -> env * datetime.
Variable perf_counter : env -> env * seconds.
Variable process_time : env -> env * seconds.

(** The three clock readings that [__enter__] and [__exit__] both start with,
    in their order: the instant, the wall-clock timer, the processor timer;
    and the rest of the process after them. *)
Definition readings (w : env) : datetime * seconds * seconds * env :=
  let (w, now) := datetime_now w in
  let (w, wall) := perf_counter w in
  let (w, cpu) := process_time w in
  (now, wall, cpu, w).

End Readings.

Arguments readings {datetime seconds env} datetime_now perf_counter process_time w.

(** A clock that ticks at every reading, and a process with a new timer. *)
Definition ticking (w : nat) : nat * nat := (S w, w).

Definition fresh (name : string) (w : nat) : Timeit.process nat nat nat :=
  {| Timeit.self := Timeit.__init__ nat nat name; Timeit.timeline_deck := [];
     Timeit.log := []; Timeit.world := w |}.


End TimeitWords.

(** * Properties *)

(** ** The DNS-label sanitizer *)

Module DnsFacts.
Import pystr Dns.

Lemma last_is_snoc (c d : char) (res : str) :
  last_is c (res ++ [d]) = (d =? c)%N.
Proof. unfold last_is. by rewrite last_snoc. Qed.

Lemma nonempty_true (res : str) : nonempty res = true <-> res <> [].
Proof. destruct res; simpl; split; congruence. Qed.

Lemma head_app_nonempty (res l : str) : res <> [] -> head (res ++ l) = head res.
Proof. by destruct res. Qed.

Section Facts.
Variable U : unicode.
Variable sha224_hexdigest : list N -> str.

Lemma scan_app (res v1 v2 : str) :
  scan U res (v1 ++ v2) = scan U (scan U res v1) v2.
Proof. apply fold_left_app. Qed.

Lemma scan_cons (res : str) (ch : char) (v : str) :
  scan U res (ch :: v) = scan U (step U res ch) v.
Proof. reflexivity. Qed.

(** A short value is sanitized as it stands: no hash, no exception. *)
Lemma dnsify_short (value : str) :
  length value < 63 ->
  _dnsify U sha224_hexdigest value = Ok (strip_trailing (scan U [] value)).
Proof.
  intros Hlen. unfold _dnsify, MAX.
  destruct (Nat.leb_spec 63 (length value)); [lia | reflexivity].
Qed.

(** *** What a separator does in the character pass *)

Lemma step_separator (res : str) (ch : char) :
  is_separator ch = true ->
  step U res ch = if nonempty res && (length res <? 62) then res ++ [hyphen] else res.
Proof. intros H. unfold step. by rewrite H. Qed.

Lemma hyphens_after_output (seps res : str) :
  Forall (fun ch => is_separator ch = true) seps ->
  res <> [] ->
  scan U res seps = res ++ repeat hyphen (min (length seps) (62 - length res)).
Proof.
  intros Hseps. revert res.
  induction Hseps as [|ch seps Hch _ IH]; intros res Hres.
  - simpl. by rewrite app_nil_r.
  - rewrite scan_cons, (step_separator _ _ Hch).
    apply nonempty_true in Hres as Hne. rewrite Hne. simpl andb.
    destruct (Nat.ltb_spec (length res) 62) as [Hlt|Hge].
    + rewrite IH by (by destruct res).
      rewrite length_app. simpl length.
      replace (62 - length res) with (S (62 - (length res + 1))) by lia.
      simpl. by rewrite <- app_assoc.
    + rewrite IH by done.
      replace (62 - length res) with 0 by lia.
      by rewrite !Nat.min_0_r.
Qed.

Lemma no_leading_hyphens (seps : str) :
  Forall (fun ch => is_separator ch = true) seps ->
  scan U [] seps = [].
Proof.
  induction 1 as [|ch seps Hch _ IH]; [done|].
  by rewrite scan_cons, (step_separator _ _ Hch).
Qed.

(** C4 (as amended).  In the character pass every separator stands for a
    hyphen of its own: a run of separators met after a non-empty output adds
    one hyphen per separator until the output is 62 characters long, whether or
    not the output already ends in a hyphen; a separator adds nothing when the
    output is empty (the hyphen would come first) or has reached 62
    characters. *)
Theorem separator_run (res seps : str) :
  Forall (fun ch => is_separator ch = true) seps ->
  scan U res seps =
    if nonempty res
    then res ++ repeat hyphen (min (length seps) (62 - length res))
    else [].
Proof.
  intros Hseps. destruct res as [|c res].
  - by apply no_leading_hyphens.
  - by apply hyphens_after_output.
Qed.

(** *** The output on ASCII input *)

Lemma isalnum_ascii (ch : char) :
  is_ascii ch = true ->
  isalnum U ch = ascii_digit ch || ascii_lower ch || ascii_upper ch.
Proof. intros H. unfold isalnum. by rewrite H. Qed.

Lemma islower_ascii (ch : char) :
  is_ascii ch = true -> islower U ch = ascii_lower ch.
Proof. intros H. unfold islower. by rewrite H. Qed.

Lemma isdigit_ascii (ch : char) :
  is_ascii ch = true -> isdigit U ch = ascii_digit ch.
Proof. intros H. unfold isdigit. by rewrite H. Qed.

Lemma lower_upper (ch : char) :
  ascii_upper ch = true ->
  lower U ch = [(ch + 32)%N] /\ label_char (ch + 32)%N = true /\ (ch + 32)%N <> hyphen.
Proof.
  intros Hup. assert (is_ascii ch = true) as Hascii by num.
  unfold lower. rewrite Hascii, Hup. repeat split; num.
Qed.

Lemma step_label (res : str) (ch : char) :
  is_ascii ch = true ->
  label_chars res -> head res <> Some hyphen ->
  label_chars (step U res ch) /\ head (step U res ch) <> Some hyphen.
Proof.
  intros Hascii Hres Hhead. unfold step.
  destruct (is_separator ch) eqn:Hsep.
  { destruct (nonempty res && _) eqn:Hg; [|done].
    apply andb_prop in Hg as [Hne _]. apply nonempty_true in Hne.
    split; [|by rewrite head_app_nonempty].
    apply Forall_app. split; [done|]. by repeat constructor. }
  rewrite isalnum_ascii, islower_ascii, isdigit_ascii by done.
  destruct (ascii_digit ch || ascii_lower ch || ascii_upper ch) eqn:Halnum;
    simpl; [|done].
  destruct (ascii_lower ch || ascii_digit ch) eqn:Hld.
  { assert (label_char ch = true /\ ch <> hyphen) as [Hl Hh].
    { split; [unfold label_char; by rewrite Hld | clear Halnum Hld; num]. }
    split.
    - apply Forall_app. split; [done|]. by repeat constructor.
    - destruct res; simpl; [congruence | done]. }
  assert (ascii_upper ch = true) as Hup
    by (destruct (ascii_digit ch), (ascii_lower ch), (ascii_upper ch); done).
  destruct (lower_upper ch Hup) as (-> & Hl & Hh).
  destruct (nonempty res && _ && _) eqn:Hg.
  - apply andb_prop in Hg as [Hg _]. apply andb_prop in Hg as [Hne _].
    apply nonempty_true in Hne.
    split; [|by rewrite <- app_assoc, head_app_nonempty].
    repeat (apply Forall_app; split); try done; by repeat constructor.
  - split.
    + apply Forall_app. split; [done|]. by repeat constructor.
    + destruct res; simpl; [congruence | done].
Qed.

Lemma scan_label (value res : str) :
  Forall (fun ch => is_ascii ch = true) value ->
  label_chars res -> head res <> Some hyphen ->
  label_chars (scan U res value) /\ head (scan U res value) <> Some hyphen.
Proof.
  intros Hvalue. revert res.
  induction Hvalue as [|ch value Hch _ IH]; intros res Hres Hhead; [done|].
  rewrite scan_cons.
  destruct (step_label res ch Hch Hres Hhead) as [H1 H2]. by apply IH.
Qed.

Lemma strip_trailing_label (res : str) :
  label_chars res -> head res <> Some hyphen ->
  label_chars (strip_trailing res) /\ head (strip_trailing res) <> Some hyphen.
Proof.
  intros Hres Hhead. unfold strip_trailing.
  destruct (_ && _); [|done]. split.
  - by apply Forall_take.
  - destruct res as [|c [|d res]]; simpl in *; [done| done |].
    replace (length res - 0) with (length res) by lia. done.
Qed.

(** *** Labels the sanitizer leaves alone *)

Lemma scan_label_fixed (suf pre : str) :
  label_chars suf ->
  last suf <> Some hyphen ->
  length pre + length suf <= 62 ->
  (pre = [] -> head suf <> Some hyphen) ->
  scan U pre suf = pre ++ suf.
Proof.
  revert pre. induction suf as [|ch suf IH]; intros pre Hsuf Hlast Hlen Hhead.
  { simpl. by rewrite app_nil_r. }
  apply Forall_cons in Hsuf as [Hch Hsuf].
  assert (step U pre ch = pre ++ [ch]) as Hstep.
  { unfold step. destruct (is_separator ch) eqn:Hsep.
    - assert (ch = hyphen) as -> by (clear - Hch Hsep; num).
      assert (pre <> []) as Hne by (intros ->; by apply Hhead).
      apply nonempty_true in Hne. rewrite Hne. simpl andb.
      assert (suf <> []) by (intros ->; by apply Hlast).
      assert (0 < length suf) by (destruct suf; simpl; [done | lia]).
      simpl in Hlen.
      destruct (Nat.ltb_spec (length pre) 62); [done | lia].
    - assert (is_ascii ch = true) as Hascii by (clear - Hch; num).
      assert ((ch =? hyphen)%N = false) as Hnh by (clear - Hsep; num).
      rewrite isalnum_ascii, islower_ascii, isdigit_ascii by done.
      unfold label_char in Hch. rewrite Hnh, orb_false_r in Hch.
      rewrite Hch. destruct (ascii_digit ch), (ascii_lower ch); done. }
  rewrite scan_cons, Hstep, IH.
  - by rewrite <- app_assoc.
  - done.
  - intros Hl. apply Hlast. destruct suf; [done|]. by rewrite last_cons_cons.
  - rewrite length_app. simpl in *. lia.
  - intros Hnil. by destruct pre.
Qed.

Lemma dnsify_label_fixed (r : str) :
  label_chars r -> length r < 63 ->
  head r <> Some hyphen -> last_is hyphen r = false ->
  _dnsify U sha224_hexdigest r = Ok r.
Proof.
  intros Hr Hlen Hhead Hlast.
  assert (last r <> Some hyphen) as Hlast'.
  { intros H. unfold last_is in Hlast. by rewrite H in Hlast. }
  rewrite dnsify_short by done.
  rewrite scan_label_fixed; simpl; try done; [|lia].
  unfold strip_trailing. rewrite Hlast. by rewrite andb_false_r.
Qed.

Lemma allowed_is_ascii (value : str) :
  forallb allowed_char value = true -> Forall (fun ch => is_ascii ch = true) value.
Proof.
  rewrite forallb_forall, Forall_forall. intros H ch Hin.
  apply list_elem_of_In in Hin. specialize (H ch Hin). clear - H. num.
Qed.

(** *** A result of 63 characters is hashed when sanitized again *)

Lemma scan_plain (l res : str) :
  Forall (fun c => ascii_lower c || ascii_digit c = true) l ->
  scan U res l = res ++ l.
Proof.
  intros Hl. revert res. induction Hl as [|c l Hc _ IH]; intros res.
  { simpl. by rewrite app_nil_r. }
  assert (is_ascii c = true /\ is_separator c = false) as [Hascii Hsep]
    by (clear - Hc; split; num).
  rewrite scan_cons. unfold step.
  rewrite Hsep, isalnum_ascii, islower_ascii, isdigit_ascii by done.
  apply orb_true_iff in Hc as Hc'.
  replace (ascii_digit c || ascii_lower c || ascii_upper c) with true
    by (destruct Hc' as [-> | ->]; by rewrite ?orb_true_r).
  simpl negb. cbv iota. rewrite Hc, IH. by rewrite <- app_assoc.
Qed.

(** The sanitizer turns ["a" * 60 + "BC"] into a valid label of 63 characters,
    which it does not give back when applied to it: a value of 63 characters
    or more is first replaced by a hash prefix and its last 52 characters. *)
Lemma dnsify_full_length_rehashed :
  let value := repeat 97%N 60 ++ [66; 67]%N in
  let r := repeat 97%N 60 ++ [45; 98; 99]%N in
  _dnsify U sha224_hexdigest value = Ok r
  /\ valid_dns_label r = true
  /\ length r = 63
  /\ _dnsify U sha224_hexdigest r <> Ok r.
Proof.
  intros value r. split_and!; [reflexivity | reflexivity | reflexivity |].
  assert (encode_utf8 r = Ok r) as Henc by reflexivity.
  unfold _dnsify. change (MAX <=? length r) with true. cbv iota.
  unfold shorten. rewrite Henc.
  change (drop (length r - (MAX - HASH_LEN - 1)) r)
    with (repeat 97%N 49 ++ [hyphen] ++ [98; 99]%N).
  set (p0 := take HASH_LEN (sha224_hexdigest r)).
  rewrite scan_app. set (p := scan U [] p0).
  change ([hyphen] ++ repeat 97%N 49 ++ [hyphen] ++ [98; 99]%N)
    with (hyphen :: repeat 97%N 49 ++ hyphen :: [98; 99]%N).
  rewrite scan_cons, (step_separator p hyphen eq_refl).
  rewrite scan_app, (scan_plain (repeat 97%N 49)) by (by repeat constructor).
  rewrite scan_cons, (step_separator _ hyphen eq_refl).
  rewrite scan_plain by (by repeat constructor).
  set (p1 := if nonempty p && (length p <? 62) then p ++ [hyphen] else p).
  set (p2 := p1 ++ repeat 97%N 49).
  set (p3 := if nonempty p2 && (length p2 <? 62) then p2 ++ [hyphen] else p2).
  change (Ok (strip_trailing (p3 ++ [98; 99]%N)) <> Ok r).
  assert (strip_trailing (p3 ++ [98; 99]%N) = p3 ++ [98; 99]%N) as ->.
  { unfold strip_trailing.
    replace (last_is hyphen (p3 ++ [98; 99]%N)) with false; [by rewrite andb_false_r|].
    change (p3 ++ [98; 99]%N) with (p3 ++ [98%N] ++ [99%N]).
    by rewrite app_assoc, last_is_snoc. }
  intros [= Heq].
  assert (length (p3 ++ [98; 99]%N) = 63) as Hlen by (by rewrite Heq).
  assert (p1 = if nonempty p && (length p <? 62) then p ++ [hyphen] else p)
    as Hp1 by reflexivity.
  assert (p3 = if nonempty p2 && (length p2 <? 62) then p2 ++ [hyphen] else p2)
    as Hp3 by reflexivity.
  clearbody p1 p3.
  assert (length p2 = length p1 + 49) as Hlen2
    by (unfold p2; by rewrite length_app, repeat_length).
  assert (exists tail, p3 = p2 ++ tail /\ length tail <= 1) as (tail & Hp3' & Htail).
  { destruct (nonempty p2 && (length p2 <? 62)); subst p3.
    - exists [hyphen]. split; [done | simpl; lia].
    - exists []. rewrite app_nil_r. split; [done | simpl; lia]. }
  clear Hp3. subst p3.
  rewrite !length_app in Hlen. change (length [98; 99]%N) with 2 in Hlen.
  destruct (nonempty p && (length p <? 62)) eqn:Hg; subst p1.
  - (* a hyphen follows the hash prefix, where the label has a letter *)
    rewrite length_app in Hlen2. change (length [hyphen]) with 1 in Hlen2.
    assert (((p2 ++ tail) ++ [98; 99]%N) !! length p = Some hyphen) as Hat.
    { unfold p2. rewrite <- !app_assoc. by apply list_lookup_middle. }
    rewrite Heq in Hat.
    assert (length p = 10 \/ length p = 11) as [Hp|Hp]
      by (clear - Hlen Hlen2 Htail; lia);
      rewrite Hp in Hat; discriminate Hat.
  - (* no hyphen after the prefix: the output is too short or too long *)
    apply andb_false_iff in Hg as [Hg|Hg].
    + assert (length p = 0) as Hz by (clear - Hg; by destruct p).
      clear - Hlen Hlen2 Htail Hz. lia.
    + apply Nat.ltb_ge in Hg. clear - Hlen Hlen2 Htail Hg. lia.
Qed.

(** C3 (as amended).  A string shorter than 63 characters made of letters,
    digits, [_], [-] and [.] is sanitized without an exception, and when the
    result is shorter than 63 characters and does not end in a hyphen,
    sanitizing the result again gives it back. *)
Theorem dnsify_idempotent (value : str) :
  length value < 63 ->
  forallb allowed_char value = true ->
  exists r,
    _dnsify U sha224_hexdigest value = Ok r
    /\ (length r < 63 -> last_is hyphen r = false ->
        _dnsify U sha224_hexdigest r = Ok r).
Proof.
  intros Hlen Hallowed. eexists. split; [by apply dnsify_short|].
  intros Hr Hlast.
  destruct (scan_label value [] (allowed_is_ascii _ Hallowed)) as [H1 H2];
    [by constructor | done |].
  destruct (strip_trailing_label _ H1 H2) as [H3 H4].
  by apply dnsify_label_fixed.
Qed.

End Facts.

Lemma dnsify_idempotent_witness :
  length (of_string "My_Task.Name") < 63
  /\ forallb allowed_char (of_string "My_Task.Name") = true
  /\ forall U sha,
       _dnsify U sha (of_string "My_Task.Name") = Ok (of_string "my-task-name")
       /\ _dnsify U sha (of_string "my-task-name") = Ok (of_string "my-task-name").
Proof.
  assert (Hlen : length (of_string "My_Task.Name") < 63) by (vm_compute; lia).
  assert (Hch : forallb allowed_char (of_string "My_Task.Name") = true) by reflexivity.
  split; [exact Hlen | split; [exact Hch |]].
  intros U sha.
  destruct (dnsify_idempotent U sha (of_string "My_Task.Name") Hlen Hch) as [r [Hr Hfix]].
  vm_compute in Hr. injection Hr as <-.
  split; [reflexivity | apply Hfix; [vm_compute; lia | reflexivity]].
Defined.

(** C3 fails as stated: sanitizing ["a__"] gives ["a-"], and sanitizing that
    gives ["a"]. *)
Lemma dnsify_not_idempotent :
  length (of_string "a__") < 63
  /\ forallb allowed_char (of_string "a__") = true
  /\ (forall U sha, _dnsify U sha (of_string "a__") = Ok (of_string "a-"))
  /\ (forall U sha, _dnsify U sha (of_string "a-") = Ok (of_string "a")).
Proof. repeat split; (vm_compute; lia) || reflexivity. Qed.

(** C1.  The result can be longer than 63 characters: 62 capital letters give
    93 characters, since a capital adds its lowercase letter whatever the
    length reached. *)
Theorem dnsify_capitals_too_long :
  forall U sha, exists r,
    _dnsify U sha (repeat 65%N 62) = Ok r
    /\ length r = 93 /\ valid_dns_label r = false.
Proof. intros U sha. eexists. split; [reflexivity | split; reflexivity]. Qed.

(** C2.  The result can end in a hyphen: the two separators of ["a__"] give
    two hyphens and only one is taken off the end. *)
Theorem dnsify_trailing_hyphen :
  forall U sha,
    _dnsify U sha (of_string "a__") = Ok (of_string "a-")
    /\ valid_dns_label (of_string "a-") = false.
Proof. intros U sha. split; reflexivity. Qed.

Lemma separator_run_witness :
  Forall (fun ch => is_separator ch = true) (of_string "_-.")
  /\ forall U, scan U (of_string "ab") (of_string "_-.") = of_string "ab---".
Proof.
  assert (H : Forall (fun ch => is_separator ch = true) (of_string "_-."))
    by (repeat constructor).
  split; [exact H | intros U; exact (separator_run U (of_string "ab") (of_string "_-.") H)].
Defined.

(** C4 fails as stated: two separators in a row give two hyphens, and a
    separator met when the output ends in a hyphen still adds one. *)
Lemma separators_not_collapsed :
  (forall U sha, _dnsify U sha (of_string "a__b") = Ok (of_string "a--b"))
  /\ (forall U, last_is hyphen (of_string "a-") = true
               /\ step U (of_string "a-") underscore = of_string "a--").
Proof. split; [intros U sha | intros U; split]; reflexivity. Qed.

End DnsFacts.

(** ** The container descriptor builder *)

Module ContainerDefFacts.
Import pydict ContainerDef.

(** C8.  With limits of cpu ["1"] and memory ["1Gi"] and no requests, the
    descriptor has exactly two limit entries, the CPU entry and then the memory
    entry, and no request entry. *)
Theorem cpu_and_memory_limits
    (image : string) (command : list string) (args : option (list string))
    (data_loading_config : option task_models.DataLoadingConfig)
    (environment : option (dict string)) :
  exists container,
    _get_container_definition image
      {| resources.limits :=
           {| resources.cpu := Some (resources.Single "1");
              resources.mem := Some (resources.Single "1Gi");
              resources.gpu := None;
              resources.ephemeral_storage := None |};
         resources.requests := resources.unset |}
      command args data_loading_config environment = Ok container
    /\ task_models.limits (task_models.resources container) =
         [ {| task_models.name := task_models.CPU;
              task_models.value := resources.Single "1" |};
           {| task_models.name := task_models.MEMORY;
              task_models.value := resources.Single "1Gi" |} ]
    /\ task_models.requests (task_models.resources container) = [].
Proof. eexists. split; [reflexivity | split; reflexivity]. Qed.

End ContainerDefFacts.

(** ** The pod-spec serializer *)

Module PodSpecFacts.
Import pydict k8s store PodSpec.

(** *** Rules of the frame discipline *)

Lemma safe_weaken {A : Type} (n : nat) (m : M heap A) (P Q : A -> Prop) :
  safe n m P -> (forall a, P a -> Q a) -> safe n m Q.
Proof.
  intros Hm HPQ h Hlen Hh. destruct (Hm h Hlen Hh) as (H1 & H2 & H3 & H4).
  repeat split; try done. intros a Ha. by apply HPQ, H4.
Qed.

Lemma safe_ret {A : Type} (n : nat) (a : A) (Q : A -> Prop) :
  Q a -> safe n (ret a) Q.
Proof. intros HQ h Hlen Hh. repeat split; try done. by intros ? [= <-]. Qed.

Lemma safe_raise {A : Type} (n : nat) (e : exn) (Q : A -> Prop) :
  safe n (raise e) Q.
Proof. intros h Hlen Hh. by repeat split. Qed.

Lemma safe_lift {A : Type} (n : nat) (r : result A) :
  safe n (lift r) (fun _ => True).
Proof. intros h Hlen Hh. by repeat split. Qed.

Lemma safe_bind {A B : Type} (n : nat) (m : M heap A) (k : A -> M heap B)
    (P : A -> Prop) (Q : B -> Prop) :
  safe n m P -> (forall a, P a -> safe n (k a) Q) -> safe n (bind m k) Q.
Proof.
  intros Hm Hk h Hlen Hh. unfold bind.
  destruct (Hm h Hlen Hh) as (H1 & H2 & H3 & H4).
  destruct (m h) as [h1 [a|e]]; simpl in *; [|by repeat split].
  destruct (Hk a (H4 a eq_refl) h1 H1 H2) as (K1 & K2 & K3 & K4).
  repeat split; try done. by rewrite K3.
Qed.

Lemma safe_load (n : nat) (l : loc) :
  safe n (load l) (fun o => n <= l -> Forall (fun r => n <= r) (refs o)).
Proof.
  intros h Hlen Hh. unfold load.
  destruct (h !! l) as [o|] eqn:Hl; simpl; [|by repeat split].
  do 3 (split; [done|]). intros a [= <-] Hn. by eapply Hh.
Qed.

Lemma safe_alloc (n : nat) (o : obj) :
  Forall (fun r => n <= r) (refs o) -> safe n (alloc o) (fun l => n <= l).
Proof.
  intros Ho h Hlen Hh. unfold alloc. simpl. repeat split.
  - rewrite length_app. lia.
  - intros l o' Hn Hl. apply lookup_app_Some in Hl as [Hl|[_ Hl]].
    + by eapply Hh.
    + apply list_lookup_singleton_Some in Hl as [_ <-]. done.
  - by apply take_app_le.
  - by intros a [= <-].
Qed.

Lemma safe_assign (n : nat) (l : loc) (o : obj) :
  n <= l -> Forall (fun r => n <= r) (refs o) -> safe n (assign l o) (fun _ => True).
Proof.
  intros Hn Ho h Hlen Hh. unfold assign. simpl. repeat split.
  - by rewrite length_insert.
  - intros l' o' Hn' Hl'. apply list_lookup_insert_Some in Hl' as [(-> & <- & _)|[_ Hl']].
    + done.
    + by eapply Hh.
  - by apply take_insert_ge.
Qed.

Lemma safe_get_container (n : nat) (l : loc) :
  safe n (get_container l) (fun _ => True).
Proof.
  eapply safe_bind; [apply safe_load|]. intros [] _; by (apply safe_ret || apply safe_raise).
Qed.

Lemma safe_get_list (n : nat) (l : loc) :
  safe n (get_list l) (fun items => n <= l -> Forall (fun r => n <= r) items).
Proof.
  eapply safe_bind; [apply safe_load|].
  intros [] Ho; try apply safe_raise. apply safe_ret. exact Ho.
Qed.

Lemma safe_get_pod_spec (n : nat) (l : loc) :
  safe n (get_pod_spec l) (fun s => n <= l -> n <= containers s).
Proof.
  eapply safe_bind; [apply safe_load|].
  intros [] Ho; try apply safe_raise. apply safe_ret. intros Hn.
  specialize (Ho Hn). simpl in Ho. exact (Forall_inv Ho).
Qed.

Lemma safe_get_template (n : nat) (l : loc) :
  safe n (get_template l)
    (fun t => n <= l -> forall ps, pod_spec t = Some ps -> n <= ps).
Proof.
  eapply safe_bind; [apply safe_load|].
  intros [] Ho; try apply safe_raise. apply safe_ret. intros Hn ps Hps.
  specialize (Ho Hn). simpl in Ho. rewrite Hps in Ho. exact (Forall_inv Ho).
Qed.

Lemma safe_setattr (n : nat) (l : loc) (f : V1Container.t -> V1Container.t) :
  n <= l -> safe n (setattr l f) (fun _ => True).
Proof.
  intros Hn. eapply safe_bind; [apply safe_get_container|].
  intros c _. by apply safe_assign.
Qed.

Lemma safe_list_append (n : nat) (l x : loc) :
  n <= l -> n <= x -> safe n (list_append l x) (fun _ => True).
Proof.
  intros Hl Hx. eapply safe_bind; [apply safe_get_list|].
  intros items Hitems. apply safe_assign; [done|]. simpl.
  apply Forall_app. split; [by apply Hitems | by apply Forall_singleton].
Qed.

Lemma safe_set_containers (n : nat) (l v : loc) :
  n <= l -> n <= v -> safe n (set_containers l v) (fun _ => True).
Proof.
  intros Hl Hv. eapply safe_bind; [apply safe_get_pod_spec|].
  intros s _. apply safe_assign; [done|]. by apply Forall_singleton.
Qed.

Lemma safe_for_each (n : nat) (items : list loc) (body : loc -> M heap unit) :
  Forall (fun r => n <= r) items ->
  (forall x, n <= x -> safe n (body x) (fun _ => True)) ->
  safe n (for_each items body) (fun _ => True).
Proof.
  intros Hitems Hbody. induction Hitems as [|x items Hx _ IH]; simpl.
  - by apply safe_ret.
  - eapply safe_bind; [by apply Hbody|]. by intros _ _.
Qed.

Lemma safe_get_containers (n : nat) (items : list loc) :
  safe n (get_containers items) (fun _ => True).
Proof.
  induction items as [|x items IH]; simpl; [by apply safe_ret|].
  eapply safe_bind; [apply safe_get_container|]. intros c _.
  eapply safe_bind; [apply IH|]. intros cs _. by apply safe_ret.
Qed.

Lemma safe_primary_exists_in (n : nat) (name : string) (items : list loc) :
  safe n (primary_exists_in name items) (fun _ => True).
Proof.
  induction items as [|x items IH]; simpl; [by apply safe_ret|].
  eapply safe_bind; [apply safe_get_container|]. intros c _.
  destruct (String.eqb _ _); [by apply safe_ret | apply IH].
Qed.

Lemma safe_deepcopy_containers (n : nat) (items : list loc) (memo : gmap loc loc) :
  (forall x y, memo !! x = Some y -> n <= y) ->
  safe n (deepcopy_containers memo items) (fun items' => Forall (fun r => n <= r) items').
Proof.
  revert memo. induction items as [|x items IH]; intros memo Hmemo; simpl.
  { by apply safe_ret. }
  destruct (memo !! x) as [y|] eqn:Hx.
  - eapply safe_bind; [by apply IH|]. intros rest' Hrest.
    apply safe_ret. constructor; [by eapply Hmemo | done].
  - eapply safe_bind; [apply safe_get_container|]. intros c _.
    eapply safe_bind; [by apply safe_alloc|]. intros y Hy.
    eapply safe_bind.
    + apply IH. intros x' y' Hxy.
      apply lookup_insert_Some in Hxy as [[_ <-]|[_ Hxy]]; [done | by eapply Hmemo].
    + intros rest' Hrest. apply safe_ret. by constructor.
Qed.

Lemma safe_deepcopy (n : nat) (pod_template : loc) :
  safe n (deepcopy pod_template) (fun l => n <= l).
Proof.
  eapply safe_bind; [apply safe_get_template|]. intros t _.
  destruct (pod_spec t) as [ps|] eqn:Hps.
  - eapply safe_bind; [apply safe_get_pod_spec|]. intros s _.
    eapply safe_bind; [apply safe_get_list|]. intros items _.
    eapply safe_bind; [by apply safe_deepcopy_containers|]. intros items' Hitems'.
    eapply safe_bind; [by apply safe_alloc|]. intros l' Hl'.
    eapply safe_bind; [apply safe_alloc; by apply Forall_singleton|]. intros ps' Hps'.
    apply safe_alloc. by apply Forall_singleton.
  - apply safe_alloc. simpl. by rewrite Hps.
Qed.

Lemma safe_sanitize_for_serialization (n : nat) (ps : loc) :
  safe n (sanitize_for_serialization ps) (fun _ => True).
Proof.
  eapply safe_bind; [apply safe_get_pod_spec|]. intros s _.
  eapply safe_bind; [apply safe_get_list|]. intros items _.
  eapply safe_bind; [apply safe_get_containers|]. intros cs _.
  by apply safe_ret.
Qed.

(** *** Runs that return *)

Lemma bind_ok {A B : Type} (m : M heap A) (k : A -> M heap B) (h h' : heap) (b : B) :
  bind m k h = (h', Ok b) ->
  exists h1 a, m h = (h1, Ok a) /\ k a h1 = (h', Ok b).
Proof.
  unfold bind. destruct (m h) as [h1 [a|e]]; [|done]. intros Hk. by exists h1, a.
Qed.

Lemma load_ok (l : loc) (h h' : heap) (o : obj) :
  load l h = (h', Ok o) -> h' = h /\ h !! l = Some o.
Proof. unfold load. destruct (h !! l); [|done]. by intros [= <- <-]. Qed.

Lemma get_container_ok (l : loc) (h h' : heap) (c : V1Container.t) :
  get_container l h = (h', Ok c) -> h' = h /\ h !! l = Some (OContainer c).
Proof.
  intros H. apply bind_ok in H as (h1 & o & Hload & Hk).
  apply load_ok in Hload as [-> Hl]. destruct o; try done.
  by injection Hk as <- <-.
Qed.

Lemma get_list_ok (l : loc) (h h' : heap) (items : list loc) :
  get_list l h = (h', Ok items) -> h' = h /\ h !! l = Some (OList items).
Proof.
  intros H. apply bind_ok in H as (h1 & o & Hload & Hk).
  apply load_ok in Hload as [-> Hl]. destruct o; try done.
  by injection Hk as <- <-.
Qed.

Lemma get_pod_spec_ok (l : loc) (h h' : heap) (s : V1PodSpec) :
  get_pod_spec l h = (h', Ok s) -> h' = h /\ h !! l = Some (OPodSpec s).
Proof.
  intros H. apply bind_ok in H as (h1 & o & Hload & Hk).
  apply load_ok in Hload as [-> Hl]. destruct o; try done.
  by injection Hk as <- <-.
Qed.

Lemma get_template_ok (l : loc) (h h' : heap) (t : PodTemplate) :
  get_template l h = (h', Ok t) -> h' = h /\ h !! l = Some (OPodTemplate t).
Proof.
  intros H. apply bind_ok in H as (h1 & o & Hload & Hk).
  apply load_ok in Hload as [-> Hl]. destruct o; try done.
  by injection Hk as <- <-.
Qed.

Lemma get_container_run (l : loc) (h : heap) (c : V1Container.t) :
  h !! l = Some (OContainer c) -> get_container l h = (h, Ok c).
Proof. intros H. unfold get_container, bind, load. by rewrite H. Qed.

Lemma get_list_run (l : loc) (h : heap) (items : list loc) :
  h !! l = Some (OList items) -> get_list l h = (h, Ok items).
Proof. intros H. unfold get_list, bind, load. by rewrite H. Qed.

Lemma setattr_run (l : loc) (f : V1Container.t -> V1Container.t) (h : heap)
    (c : V1Container.t) :
  h !! l = Some (OContainer c) ->
  setattr l f h = (<[l := OContainer (f c)]> h, Ok tt).
Proof. intros H. unfold setattr, bind. by rewrite (get_container_run _ _ _ H). Qed.

Lemma list_append_run (l x : loc) (h : heap) (items : list loc) :
  h !! l = Some (OList items) ->
  list_append l x h = (<[l := OList (items ++ [x])]> h, Ok tt).
Proof. intros H. unfold list_append, bind. by rewrite (get_list_run _ _ _ H). Qed.

Lemma list_append_ok (l x : loc) (h h' : heap) (u : unit) :
  list_append l x h = (h', Ok u) ->
  exists items, h !! l = Some (OList items) /\ h' = <[l := OList (items ++ [x])]> h.
Proof.
  intros H. apply bind_ok in H as (h1 & items & Hget & Hk).
  apply get_list_ok in Hget as [-> Hl]. exists items. split; [done|].
  by injection Hk as <-.
Qed.

Lemma get_containers_ok (items : list loc) (h h' : heap) (cs : list V1Container.t) :
  get_containers items h = (h', Ok cs) ->
  h' = h /\ Forall2 (fun l c => h !! l = Some (OContainer c)) items cs.
Proof.
  revert h' cs. induction items as [|x items IH]; intros h' cs H; simpl in H.
  { injection H as <- <-. by split. }
  apply bind_ok in H as (h1 & c & Hget & H).
  apply get_container_ok in Hget as [-> Hx].
  apply bind_ok in H as (h2 & cs' & Hrest & H).
  apply IH in Hrest as [-> Hall]. injection H as <- <-.
  split; [done|]. by constructor.
Qed.

Lemma get_container_at (l : loc) (h : heap) (c : V1Container.t) :
  l < length h ->
  get_container l (<[l := OContainer c]> h) = (<[l := OContainer c]> h, Ok c).
Proof. intros Hl. apply get_container_run. by apply list_lookup_insert_eq. Qed.

Lemma setattr_at (l : loc) (f : V1Container.t -> V1Container.t) (h : heap)
    (c : V1Container.t) :
  l < length h ->
  setattr l f (<[l := OContainer c]> h) = (<[l := OContainer (f c)]> h, Ok tt).
Proof.
  intros Hl. rewrite (setattr_run l f _ c) by (by apply list_lookup_insert_eq).
  by rewrite list_insert_insert_eq.
Qed.

(** *** What the deep copy returns *)

Lemma copied_mono (h0 h h' : heap) (memo : gmap loc loc) :
  copied h0 h memo -> h `prefix_of` h' -> copied h0 h' memo.
Proof.
  intros [Hc Hinj] Hpre. split; [|done].
  intros x y Hxy. destruct (Hc x y Hxy) as (Hy & c & Hx & Hy').
  split; [done|]. exists c. split; [done|]. by eapply prefix_lookup_Some.
Qed.

Lemma deepcopy_containers_ok (h0 : heap) (items : list loc) :
  forall (memo : gmap loc loc) (h h' : heap) (items' : list loc),
    h0 `prefix_of` h ->
    copied h0 h memo ->
    Forall (is_container h0) items ->
    deepcopy_containers memo items h = (h', Ok items') ->
    exists memo',
      h `prefix_of` h' /\ memo ⊆ memo' /\ copied h0 h' memo'
      /\ Forall2 (fun x y => memo' !! x = Some y) items items'.
Proof.
  induction items as [|x items IH]; intros memo h h' items' Hpre Hmemo Hitems Hrun;
    simpl in Hrun.
  { injection Hrun as <- <-. exists memo.
    split; [reflexivity|]. split; [reflexivity|]. split; [done | constructor]. }
  apply Forall_cons in Hitems as [[c0 Hx0] Hitems].
  destruct (memo !! x) as [y|] eqn:Hx.
  - apply bind_ok in Hrun as (h1 & rest' & Hrest & Hret). injection Hret as <- <-.
    destruct (IH _ _ _ _ Hpre Hmemo Hitems Hrest) as (memo' & H1 & H2 & H3 & H4).
    exists memo'. split_and!; try done.
    constructor; [|done]. by eapply lookup_weaken.
  - apply bind_ok in Hrun as (h1 & c & Hget & Hrun).
    apply get_container_ok in Hget as [-> Hxh].
    assert (c = c0) as ->.
    { pose proof (prefix_lookup_Some _ _ _ _ Hx0 Hpre) as Hx0h. congruence. }
    apply bind_ok in Hrun as (h2 & y & Halloc & Hrun).
    injection Halloc as <- <-.
    apply bind_ok in Hrun as (h3 & rest' & Hrest & Hret). injection Hret as <- <-.
    destruct (IH (<[x := length h]> memo) (h ++ [OContainer c0]) h3 rest')
      as (memo' & H1 & H2 & H3 & H4); try done.
    + by apply prefix_app_r.
    + destruct Hmemo as [Hc Hinj]. split.
      * intros x' y' Hxy. apply lookup_insert_Some in Hxy as [[<- <-]|[Hne Hxy]].
        -- split; [by apply prefix_length|]. exists c0. split; [done|].
           by apply list_lookup_middle.
        -- destruct (Hc x' y' Hxy) as (Hy & c & Hx' & Hy').
           split; [done|]. exists c. split; [done|]. by apply lookup_app_l_Some.
      * assert (forall x' y', memo !! x' = Some y' -> y' <> length h) as Hfresh.
        { intros x' y' Hxy ->. destruct (Hc _ _ Hxy) as (_ & c & _ & Hy').
          apply lookup_lt_Some in Hy'. lia. }
        intros x1 x2 y' H1 H2.
        apply lookup_insert_Some in H1 as [[<- <-]|[Hne1 H1]];
          apply lookup_insert_Some in H2 as [[<- Hy2]|[Hne2 H2]]; try done.
        -- by destruct (Hfresh _ _ H2).
        -- subst y'. by destruct (Hfresh _ _ H1).
        -- by eapply Hinj.
    + exists memo'. split_and!; try done.
      * etransitivity; [|done]. by apply prefix_app_r.
      * etransitivity; [|done]. by apply insert_subseteq.
      * constructor; [|done]. eapply lookup_weaken; [|done]. by apply lookup_insert_eq.
Qed.

Lemma deepcopy_ok (h h1 : heap) (pod_template copy ps : loc) (t : PodTemplate)
    (s : V1PodSpec) (items : list loc) :
  h !! pod_template = Some (OPodTemplate t) ->
  pod_spec t = Some ps ->
  h !! ps = Some (OPodSpec s) ->
  h !! containers s = Some (OList items) ->
  Forall (is_container h) items ->
  deepcopy pod_template h = (h1, Ok copy) ->
  exists ps' l' items' memo,
    h `prefix_of` h1
    /\ h1 !! copy = Some (OPodTemplate
                           {| pod_spec := Some ps';
                              primary_container_name := primary_container_name t |})
    /\ h1 !! ps' = Some (OPodSpec {| containers := l'; spec_other := spec_other s |})
    /\ h1 !! l' = Some (OList items')
    /\ copied h h1 memo
    /\ Forall2 (fun x y => memo !! x = Some y) items items'.
Proof.
  intros Ht Hps Hs Hl Hitems Hrun. unfold deepcopy in Hrun.
  apply bind_ok in Hrun as (h2 & t' & Hget & Hrun).
  apply get_template_ok in Hget as [-> Ht']. rewrite Ht in Ht'. injection Ht' as <-.
  rewrite Hps in Hrun.
  apply bind_ok in Hrun as (h2 & s' & Hget & Hrun).
  apply get_pod_spec_ok in Hget as [-> Hs']. rewrite Hs in Hs'. injection Hs' as <-.
  apply bind_ok in Hrun as (h2 & items0 & Hget & Hrun).
  apply get_list_ok in Hget as [-> Hl']. rewrite Hl in Hl'. injection Hl' as <-.
  apply bind_ok in Hrun as (h2 & items' & Hcopy & Hrun).
  apply (deepcopy_containers_ok h) in Hcopy as (memo & H1 & _ & H3 & H4);
    [| done | | done].
  2:{ split; [intros x y Hxy | intros x1 x2 y Hxy]; by rewrite lookup_empty in Hxy. }
  apply bind_ok in Hrun as (h3 & l' & Halloc & Hrun). injection Halloc as <- <-.
  apply bind_ok in Hrun as (h4 & ps' & Halloc & Hrun). injection Halloc as <- <-.
  injection Hrun as <- <-.
  exists (length (h2 ++ [OList items'])), (length h2), items', memo.
  split_and!; [| | | | split |].
  - etransitivity; [done|]. rewrite <- !app_assoc. by apply prefix_app_r.
  - by apply list_lookup_middle.
  - rewrite <- app_assoc. by apply list_lookup_middle.
  - rewrite <- !app_assoc. by apply list_lookup_middle.
  - intros x y Hxy. destruct H3 as [Hc _]. destruct (Hc x y Hxy) as (Hy & c & Hx & Hy').
    split; [done|]. exists c. split; [done|].
    rewrite <- !app_assoc. by apply lookup_app_l_Some.
  - by destruct H3.
  - done.
Qed.

Lemma get_pod_spec_run (l : loc) (h : heap) (s : V1PodSpec) :
  h !! l = Some (OPodSpec s) -> get_pod_spec l h = (h, Ok s).
Proof. intros H. unfold get_pod_spec, bind, load. by rewrite H. Qed.

Lemma get_template_run (l : loc) (h : heap) (t : PodTemplate) :
  h !! l = Some (OPodTemplate t) -> get_template l h = (h, Ok t).
Proof. intros H. unfold get_template, bind, load. by rewrite H. Qed.

Lemma get_containers_returns (items : list loc) (h : heap) :
  Forall (is_container h) items ->
  exists cs, get_containers items h = (h, Ok cs).
Proof.
  induction 1 as [|x items [c Hx] _ [cs IH]]; simpl; [by eexists|].
  exists (c :: cs). unfold bind. rewrite (get_container_run _ _ _ Hx). by rewrite IH.
Qed.

Lemma deepcopy_containers_returns (h0 : heap) (items : list loc) :
  forall (memo : gmap loc loc) (h : heap),
    h0 `prefix_of` h ->
    Forall (is_container h0) items ->
    exists h' items', deepcopy_containers memo items h = (h', Ok items').
Proof.
  induction items as [|x items IH]; intros memo h Hpre Hitems; simpl; [by eexists _, _|].
  apply Forall_cons in Hitems as [[c Hx] Hitems].
  destruct (memo !! x) as [y|].
  - destruct (IH memo h Hpre Hitems) as (h' & rest' & Hrest).
    exists h', (y :: rest'). unfold bind. by rewrite Hrest.
  - pose proof (prefix_lookup_Some _ _ _ _ Hx Hpre) as Hxh.
    destruct (IH (<[x := length h]> memo) (h ++ [OContainer c])) as (h' & rest' & Hrest);
      [by apply prefix_app_r | done |].
    exists h', (length h :: rest'). unfold bind.
    rewrite (get_container_run _ _ _ Hxh). unfold alloc. by rewrite Hrest.
Qed.

Lemma deepcopy_returns (h : heap) (pod_template ps : loc) (t : PodTemplate)
    (s : V1PodSpec) (items : list loc) :
  h !! pod_template = Some (OPodTemplate t) ->
  pod_spec t = Some ps ->
  h !! ps = Some (OPodSpec s) ->
  h !! containers s = Some (OList items) ->
  Forall (is_container h) items ->
  exists h1 copy, deepcopy pod_template h = (h1, Ok copy).
Proof.
  intros Ht Hps Hs Hl Hitems.
  destruct (deepcopy_containers_returns h items ∅ h) as (h2 & items' & Hcopy);
    [done | done |].
  eexists _, _. unfold deepcopy, bind.
  rewrite (get_template_run _ _ _ Ht), Hps, (get_pod_spec_run _ _ _ Hs),
    (get_list_run _ _ _ Hl), Hcopy.
  reflexivity.
Qed.

(** *** The search for the primary container *)

Lemma primary_exists_in_returns (name : string) (items : list loc) (h : heap) :
  Forall (is_container h) items ->
  exists b, primary_exists_in name items h = (h, Ok b).
Proof.
  induction 1 as [|x items [c Hx] _ [b IH]]; simpl; [by eexists|].
  unfold bind. rewrite (get_container_run _ _ _ Hx).
  destruct (String.eqb _ _); [by eexists | by exists b].
Qed.


Lemma primary_exists_in_ok (name : string) (items : list loc) (h h' : heap) (b : bool) :
  primary_exists_in name items h = (h', Ok b) ->
  h' = h
  /\ (b = true ->
      exists y c, y ∈ items /\ h !! y = Some (OContainer c) /\ V1Container.name c = name)
  /\ (b = false ->
      Forall (fun y => forall c, h !! y = Some (OContainer c) -> V1Container.name c <> name)
        items).
Proof.
  revert h' b. induction items as [|x items IH]; intros h' b Hrun; simpl in Hrun.
  { injection Hrun as <- <-. split_and!; [done | done | constructor]. }
  apply bind_ok in Hrun as (h1 & c & Hget & Hrun).
  apply get_container_ok in Hget as [-> Hx].
  destruct (String.eqb_spec (V1Container.name c) name) as [Heq|Hne].
  - injection Hrun as <- <-. split_and!; [done | | done].
    intros _. exists x, c. split_and!; [by left | done | done].
  - apply IH in Hrun as (-> & Ht & Hf). split_and!; [done | |].
    + intros Hb. destruct (Ht Hb) as (y & c' & Hy & Hc' & Hn).
      exists y, c'. split_and!; [by right | done | done].
    + intros Hb. constructor; [|by apply Hf].
      intros c' Hc'. congruence.
Qed.

(** *** What the serialized form of a container shows *)

Lemma sanitize_container_shows (c : V1Container.t) (image : string) :
  V1Container.image c = Some image ->
  exists d, sanitize_container c = JDict d
            /\ get d "name" = Some (JStr (V1Container.name c))
            /\ get d "image" = Some (JStr image).
Proof.
  intros Himage. eexists. split; [reflexivity|].
  destruct c as [name image' command args resources env other].
  simpl in Himage. subst image'.
  destruct args, command, env; simpl; split; reflexivity.
Qed.

Section SerializerFacts.
Variables SerializationSettings ImageConfig : Type.
Variable image_config : SerializationSettings -> ImageConfig.
Variable get_registerable_container_image : option string -> ImageConfig -> result string.

(** The assignments of [merge] add up to [merged]; when the image cannot be
    resolved nothing has been assigned yet. *)
Lemma merge_run (name : string) (primary_container : task_models.Container)
    (settings : SerializationSettings) (l : loc) (h : heap) (c : V1Container.t) :
  h !! l = Some (OContainer c) ->
  merge image_config get_registerable_container_image name primary_container
    settings l h =
  match merged image_config get_registerable_container_image name
          primary_container settings c with
  | Ok c' => (<[l := OContainer c']> h, Ok tt)
  | Raise e => (h, Raise e)
  end.
Proof.
  intros Hl. assert (l < length h) as Hlen by (by eapply lookup_lt_Some).
  unfold merge, merged. unfold bind at 1. rewrite (get_container_run _ _ _ Hl).
  rewrite <- (list_insert_id h l (OContainer c)) at 1 by done.
  destruct (String.eqb _ _).
  - destruct (V1Container.image c) as [img|].
    + unfold bind at 1. unfold bind at 1. unfold lift.
      destruct (get_registerable_container_image _ _) as [r|e]; simpl;
        [|by rewrite list_insert_id].
      rewrite setattr_at by done.
      repeat (unfold bind at 1; rewrite setattr_at by done).
      unfold bind at 1. destruct (_ || _).
      * rewrite setattr_at by done.
        destruct (task_models.env primary_container); [|done].
        unfold bind. rewrite get_container_at by done. by rewrite setattr_at.
      * unfold ret.
        destruct (task_models.env primary_container); [|done].
        unfold bind. rewrite get_container_at by done. by rewrite setattr_at.
    + unfold bind at 1. rewrite setattr_at by done. simpl.
      repeat (unfold bind at 1; rewrite setattr_at by done).
      unfold bind at 1. destruct (_ || _).
      * rewrite setattr_at by done.
        destruct (task_models.env primary_container); [|done].
        unfold bind. rewrite get_container_at by done. by rewrite setattr_at.
      * unfold ret.
        destruct (task_models.env primary_container); [|done].
        unfold bind. rewrite get_container_at by done. by rewrite setattr_at.
  - unfold bind, lift.
    destruct (get_registerable_container_image _ _) as [r|e]; simpl;
      [|by rewrite list_insert_id].
    by rewrite setattr_at.
Qed.

Lemma merged_name (name : string) (primary_container : task_models.Container)
    (settings : SerializationSettings) (c c' : V1Container.t) :
  merged image_config get_registerable_container_image name primary_container
    settings c = Ok c' ->
  V1Container.name c' = V1Container.name c.
Proof.
  unfold merged. destruct (String.eqb _ _).
  - destruct (V1Container.image c);
      [destruct (get_registerable_container_image _ _); [|done]|];
      simpl; intros [= <-];
      destruct (_ || _), (task_models.env primary_container); reflexivity.
  - destruct (get_registerable_container_image _ _); [|done].
    simpl. by intros [= <-].
Qed.

Lemma merged_declared_image (primary_container : task_models.Container)
    (settings : SerializationSettings) (c c' : V1Container.t) (img : string) :
  V1Container.image c = Some img ->
  merged image_config get_registerable_container_image (V1Container.name c)
    primary_container settings c = Ok c' ->
  exists r,
    get_registerable_container_image (Some img) (image_config settings) = Ok r
    /\ V1Container.image c' = Some r.
Proof.
  intros Himg. unfold merged. rewrite String.eqb_refl, Himg.
  destruct (get_registerable_container_image _ _) as [r|]; [|done].
  simpl. intros [= <-]. exists r. split; [done|].
  destruct (_ || _), (task_models.env primary_container); reflexivity.
Qed.

Lemma merged_no_image (primary_container : task_models.Container)
    (settings : SerializationSettings) (c c' : V1Container.t) :
  V1Container.image c = None ->
  merged image_config get_registerable_container_image (V1Container.name c)
    primary_container settings c = Ok c' ->
  V1Container.image c' = Some (task_models.image primary_container).
Proof.
  intros Himg. unfold merged. rewrite String.eqb_refl, Himg.
  simpl. intros [= <-].
  destruct (_ || _), (task_models.env primary_container); reflexivity.
Qed.

(** One turn of the second loop that returns: the container at [x] is
    replaced by its merged form and [x] is appended to the final list. *)
Lemma turn_ok (name : string) (primary_container : task_models.Container)
    (settings : SerializationSettings) (final x : loc) (h h' : heap) (u : unit) :
  (let* _ := merge image_config get_registerable_container_image name
               primary_container settings x in
   list_append final x) h = (h', Ok u) ->
  exists c c' items,
    h !! x = Some (OContainer c)
    /\ merged image_config get_registerable_container_image name
         primary_container settings c = Ok c'
    /\ h !! final = Some (OList items)
    /\ x <> final
    /\ h' = <[final := OList (items ++ [x])]> (<[x := OContainer c']> h).
Proof.
  intros H. apply bind_ok in H as (h1 & [] & Hmerge & Happend).
  assert (exists c, h !! x = Some (OContainer c)) as [c Hx].
  { unfold merge in Hmerge. apply bind_ok in Hmerge as (h2 & c & Hget & _).
    apply get_container_ok in Hget as [_ Hget]. by exists c. }
  rewrite (merge_run _ _ _ _ _ _ Hx) in Hmerge.
  destruct (merged _ _ _ _ _ _) as [c'|e] eqn:Hmerged; [|done].
  injection Hmerge as <-.
  apply list_append_ok in Happend as (items & Hfinal & ->).
  assert (x <> final) as Hne.
  { intros <-. rewrite list_lookup_insert_eq in Hfinal; [done|].
    by eapply lookup_lt_Some. }
  rewrite list_lookup_insert_ne in Hfinal by done.
  by exists c, c', items.
Qed.

Lemma loop_ok (name : string) (primary_container : task_models.Container)
    (settings : SerializationSettings) (final : loc) (items : list loc) :
  forall (h h' : heap) (init : list loc) (u : unit),
    for_each items
      (fun x =>
         let* _ := merge image_config get_registerable_container_image name
                     primary_container settings x in
         list_append final x) h = (h', Ok u) ->
    h !! final = Some (OList init) ->
    h' !! final = Some (OList (init ++ items))
    /\ (forall x o, x ∉ items -> x <> final -> h !! x = Some o -> h' !! x = Some o)
    /\ (forall x c i,
          items !! i = Some x -> (forall j, items !! j = Some x -> j = i) ->
          h !! x = Some (OContainer c) ->
          exists c',
            merged image_config get_registerable_container_image name
              primary_container settings c = Ok c'
            /\ h' !! x = Some (OContainer c')).
Proof.
  induction items as [|y items IH]; intros h h' init u Hrun Hfinal; simpl in Hrun.
  { injection Hrun as <-. rewrite app_nil_r. by repeat split. }
  apply bind_ok in Hrun as (h1 & [] & Hturn & Hrest).
  apply turn_ok in Hturn as (c0 & c0' & items0 & Hy & Hmerged & Hfinal0 & Hne & ->).
  rewrite Hfinal in Hfinal0. injection Hfinal0 as <-.
  assert (final < length h) as Hlen by (by eapply lookup_lt_Some).
  assert (y < length h) as Hleny by (by eapply lookup_lt_Some).
  specialize (IH _ _ (init ++ [y]) _ Hrest) as (IH1 & IH2 & IH3).
  { apply list_lookup_insert_eq. by rewrite length_insert. }
  split; [by rewrite IH1, <- app_assoc|]. split.
  - intros x o Hx Hxf Ho. apply not_elem_of_cons in Hx as [Hxy Hx].
    apply IH2; [done | done |].
    by rewrite !list_lookup_insert_ne.
  - intros x c i Hi Honce Hc. destruct (decide (x = y)) as [->|Hxy].
    + rewrite Hy in Hc. injection Hc as <-. exists c0'. split; [done|].
      apply IH2; [| done |].
      * intros Hin. apply list_elem_of_lookup in Hin as [j Hj].
        pose proof (Honce (S j) Hj) as Hs. pose proof (Honce 0 eq_refl) as Hz. lia.
      * rewrite list_lookup_insert_ne by done. by apply list_lookup_insert_eq.
    + destruct i as [|i]; [simpl in Hi; congruence|]. simpl in Hi.
      apply (IH3 x c i); [done | |].
      * intros j Hj. specialize (Honce (S j) Hj). lia.
      * assert (x <> final) by (intros ->; congruence).
        by rewrite !list_lookup_insert_ne.
Qed.

(** A call on a well-formed template that returns, taken apart: the store
    [h3] in which the second loop starts holds a copy of every container (the
    same copy for the same container), the placeholder when no container is
    named as the primary one, and an empty final list; the loop then runs to
    [h4], whose containers are what the result shows. *)
Lemma serialize_ok (h h' : heap) (pod_template ps : loc) (t : PodTemplate)
    (s : V1PodSpec) (items : list loc) (primary_container : task_models.Container)
    (settings : SerializationSettings) (out : json) :
  h !! pod_template = Some (OPodTemplate t) ->
  pod_spec t = Some ps ->
  h !! ps = Some (OPodSpec s) ->
  h !! containers s = Some (OList items) ->
  Forall (is_container h) items ->
  _serialize_pod_spec image_config get_registerable_container_image
    pod_template primary_container settings h = (h', Ok out) ->
  exists (h3 h4 : heap) (final : loc) (items' extra : list loc)
         (cs : list V1Container.t),
    Forall2 (fun x y => exists c, h !! x = Some (OContainer c)
                                  /\ h3 !! y = Some (OContainer c)) items items'
    /\ (forall i j y, items' !! i = Some y -> items' !! j = Some y ->
                      items !! i = items !! j)
    /\ ((exists y c, y ∈ items' /\ h3 !! y = Some (OContainer c)
                     /\ V1Container.name c = primary_container_name t)
         /\ extra = []
        \/ Forall (fun y => forall c, h3 !! y = Some (OContainer c) ->
                             V1Container.name c <> primary_container_name t) items'
           /\ exists p, extra = [p] /\ (p ∉ items')
                        /\ h3 !! p = Some (OContainer
                                             (V1Container.init (primary_container_name t))))
    /\ h3 !! final = Some (OList [])
    /\ for_each (items' ++ extra)
         (fun x =>
            let* _ := merge image_config get_registerable_container_image
                        (primary_container_name t) primary_container settings x in
            list_append final x) h3 = (h4, Ok tt)
    /\ Forall2 (fun l c => h4 !! l = Some (OContainer c)) (items' ++ extra) cs
    /\ out = JDict (("containers", JList (map sanitize_container cs)) :: spec_other s).
Proof.
  intros Ht Hps Hs Hl Hitems Hrun. unfold _serialize_pod_spec in Hrun.
  apply bind_ok in Hrun as (h0 & t0 & Hget & Hrun).
  apply get_template_ok in Hget as [-> Ht0]. rewrite Ht in Ht0. injection Ht0 as <-.
  rewrite Hps in Hrun.
  apply bind_ok in Hrun as (h1 & copy & Hcopy & Hrun).
  destruct (deepcopy_ok _ _ _ _ _ _ _ _ Ht Hps Hs Hl Hitems Hcopy)
    as (ps' & l' & items' & memo & Hpre & Hcopy' & Hps' & Hl' & [Hmemo Hinj] & Hall).
  apply bind_ok in Hrun as (h0 & t' & Hget & Hrun).
  apply get_template_ok in Hget as [-> Ht']. rewrite Hcopy' in Ht'. injection Ht' as <-.
  simpl in Hrun.
  apply bind_ok in Hrun as (h0 & s' & Hget & Hrun).
  apply get_pod_spec_ok in Hget as [-> Hs']. rewrite Hps' in Hs'. injection Hs' as <-.
  simpl in Hrun.
  apply bind_ok in Hrun as (h0 & items0 & Hget & Hrun).
  apply get_list_ok in Hget as [-> Hl0]. rewrite Hl' in Hl0. injection Hl0 as <-.
  apply bind_ok in Hrun as (h0 & b & Hfind & Hrun).
  apply primary_exists_in_ok in Hfind as (-> & Hfound & Hmissing).
  apply bind_ok in Hrun as (h2 & [] & Hplace & Hrun).
  apply bind_ok in Hrun as (h3 & final & Halloc & Hrun). injection Halloc as <- <-.
  apply bind_ok in Hrun as (h0 & items'' & Hget & Hrun).
  apply get_list_ok in Hget as [-> Hl''].
  apply bind_ok in Hrun as (h4 & [] & Hloop & Hrun).
  apply bind_ok in Hrun as (h5 & [] & Hset & Hrun).
  (* the copies are containers of [h1], so they differ from [l'] and [ps'] *)
  assert (Forall2 (fun x y => exists c, h !! x = Some (OContainer c)
                                        /\ h1 !! y = Some (OContainer c)) items items')
    as Hcopies.
  { eapply Forall2_impl; [exact Hall|]. intros x y Hxy.
    destruct (Hmemo x y Hxy) as (_ & c & Hx & Hy). by exists c. }
  assert (forall y, y ∈ items' -> exists c, h1 !! y = Some (OContainer c)) as Hcont.
  { intros y Hy. apply list_elem_of_lookup in Hy as [i Hi].
    destruct (Forall2_lookup_r _ _ _ _ _ Hcopies Hi) as (x & _ & c & _ & Hc).
    by exists c. }
  assert (l' < length h1) as Hl'len by (by eapply lookup_lt_Some).
  (* the store in which the loop starts *)
  assert (exists extra,
            items'' = items' ++ extra
            /\ (forall x o, x <> l' -> h1 !! x = Some o -> (h2 ++ [OList []]) !! x = Some o)
            /\ (b = true /\ extra = []
                \/ b = false /\ extra = [length h1]
                   /\ (h2 ++ [OList []]) !! length h1 =
                        Some (OContainer (V1Container.init (primary_container_name t)))))
    as (extra & -> & Hkeep & Hextra).
  { destruct b.
    - injection Hplace as <-. exists []. rewrite app_nil_r.
      rewrite (lookup_app_l_Some _ _ _ _ Hl') in Hl''. injection Hl'' as <-.
      split_and!; [done | | by left].
      intros x o _ Hx. by apply lookup_app_l_Some.
    - apply bind_ok in Hplace as (h0 & p & Halloc & Happend).
      injection Halloc as <- <-.
      apply list_append_ok in Happend as (items0 & Hl0 & ->).
      rewrite (lookup_app_l_Some _ _ _ _ Hl') in Hl0. injection Hl0 as <-.
      exists [length h1].
      rewrite lookup_app_l in Hl'' by (rewrite length_insert, length_app; lia).
      rewrite list_lookup_insert_eq in Hl'' by (rewrite length_app; lia).
      injection Hl'' as <-.
      split_and!; [done | | right; split_and!; [done | done |]].
      + intros x o Hne Hx. apply lookup_app_l_Some.
        rewrite list_lookup_insert_ne by done. by apply lookup_app_l_Some.
      + apply lookup_app_l_Some. rewrite list_lookup_insert_ne by lia.
        by apply list_lookup_middle. }
  set (h3 := h2 ++ [OList []]) in *.
  assert (h3 !! length h2 = Some (OList [])) as Hfinal by (by apply list_lookup_middle).
  assert (forall y, y ∈ items' -> y <> l') as Hnl.
  { intros y Hy ->. destruct (Hcont _ Hy) as [c Hc]. congruence. }
  destruct (loop_ok _ _ _ _ _ _ _ _ _ Hloop Hfinal) as (Hfinal4 & Hframe & _).
  simpl in Hfinal4.
  (* the pod spec of the copy is not touched by the loop *)
  assert (h4 !! ps' = Some (OPodSpec {| containers := l'; spec_other := spec_other s |}))
    as Hps4.
  { assert (ps' <> l') as Hne by (intros ->; congruence).
    assert (ps' < length h1) as Hlen by (by eapply lookup_lt_Some).
    apply Hframe; [| | by apply Hkeep].
    - intros Hin. apply elem_of_app in Hin as [Hin|Hin].
      + destruct (Hcont _ Hin) as [c Hc]. congruence.
      + destruct Hextra as [[_ ->]|(_ & -> & _)]; [by apply elem_of_nil in Hin|].
        apply list_elem_of_singleton in Hin. lia.
    - intros Heq. rewrite <- Heq in Hfinal.
      rewrite (Hkeep _ _ Hne Hps') in Hfinal. done. }
  unfold set_containers in Hset.
  apply bind_ok in Hset as (h0 & s4 & Hget & Hset).
  apply get_pod_spec_ok in Hget as [-> Hs4]. rewrite Hps4 in Hs4. injection Hs4 as <-.
  injection Hset as <-. simpl in Hrun.
  unfold sanitize_for_serialization in Hrun.
  assert (ps' < length h4) as Hlen4 by (by eapply lookup_lt_Some).
  apply bind_ok in Hrun as (h0 & s5 & Hget & Hrun).
  apply get_pod_spec_ok in Hget as [-> Hs5].
  rewrite list_lookup_insert_eq in Hs5 by done. injection Hs5 as <-. simpl in Hrun.
  assert (length h2 <> ps') as Hfp by (intros Heq; rewrite Heq in Hfinal4; congruence).
  apply bind_ok in Hrun as (h0 & items5 & Hget & Hrun).
  apply get_list_ok in Hget as [-> Hl5].
  rewrite list_lookup_insert_ne, Hfinal4 in Hl5 by done. injection Hl5 as <-.
  apply bind_ok in Hrun as (h0 & cs & Hget & Hrun).
  apply get_containers_ok in Hget as [-> Hcs]. injection Hrun as <- <-.
  exists h3, h4, (length h2), items', extra, cs. split_and!.
  - eapply Forall2_impl; [exact Hall|]. intros x y Hxy.
    destruct (Hmemo x y Hxy) as (_ & c & Hx & Hy). exists c. split; [done|].
    apply Hkeep; [|done]. intros ->. congruence.
  - intros i j y Hi Hj.
    destruct (Forall2_lookup_r _ _ _ _ _ Hall Hi) as (xi & Hxi & Hmi).
    destruct (Forall2_lookup_r _ _ _ _ _ Hall Hj) as (xj & Hxj & Hmj).
    rewrite Hxi, Hxj. f_equal. by eapply Hinj.
  - destruct Hextra as [[-> ->]|(-> & -> & Hp)].
    + left. split; [|done]. destruct (Hfound eq_refl) as (y & c & Hy & Hc & Hn).
      exists y, c. split_and!; [done | | done]. apply Hkeep; [by apply Hnl | done].
    + right. split.
      * apply Forall_forall. intros y Hy c Hc.
        specialize (Hmissing eq_refl). rewrite Forall_forall in Hmissing.
        destruct (Hcont _ Hy) as [c1 Hc1].
        rewrite (Hkeep _ _ (Hnl _ Hy) Hc1) in Hc. injection Hc as <-.
        by apply (Hmissing y).
      * exists (length h1). split_and!; [done | | done].
        intros Hin. destruct (Hcont _ Hin) as [c Hc].
        apply lookup_lt_Some in Hc. lia.
  - done.
  - done.
  - eapply Forall2_impl; [exact Hcs|]. intros x c Hx. simpl in Hx.
    rewrite list_lookup_insert_ne in Hx; [done|]. intros <-.
    rewrite list_lookup_insert_eq in Hx by done. done.
  - done.
Qed.

Lemma container_attr_lookup (cs : list V1Container.t) (other : dict json)
    (i : nat) (c : V1Container.t) (image : string) :
  cs !! i = Some c ->
  V1Container.image c = Some image ->
  container_attr (JDict (("containers", JList (map sanitize_container cs)) :: other))
    i "name" = Some (JStr (V1Container.name c))
  /\ container_attr (JDict (("containers", JList (map sanitize_container cs)) :: other))
       i "image" = Some (JStr image).
Proof.
  intros Hi Himage. unfold container_attr. simpl get. cbv beta iota.
  assert (map sanitize_container cs !! i = Some (sanitize_container c)) as ->.
  { change (map sanitize_container cs) with (sanitize_container <$> cs).
    by rewrite list_lookup_fmap, Hi. }
  by destruct (sanitize_container_shows c image Himage) as (d & -> & Hn & Him).
Qed.

(** A container that is listed once is merged once, so that nothing need be
    known of the image resolution: take a well-formed pod template whose
    [i]-th container is named as the primary one, declares the image [img],
    and is an object listed once in the containers.  Whenever the call
    returns, the image resolution has returned some [r] for [img], and the
    [i]-th container of the result carries the primary name and the image
    [r], whatever the computed primary container is. *)
Lemma image_of_container_listed_once (h h' : heap) (pod_template ps : loc)
    (t : PodTemplate) (s : V1PodSpec) (items : list loc) (i : nat) (x : loc)
    (c : V1Container.t) (img : string)
    (primary_container : task_models.Container) (settings : SerializationSettings)
    (out : json) :
  h !! pod_template = Some (OPodTemplate t) ->
  pod_spec t = Some ps ->
  h !! ps = Some (OPodSpec s) ->
  h !! containers s = Some (OList items) ->
  Forall (is_container h) items ->
  items !! i = Some x ->
  (forall j, items !! j = Some x -> j = i) ->
  h !! x = Some (OContainer c) ->
  V1Container.name c = primary_container_name t ->
  V1Container.image c = Some img ->
  _serialize_pod_spec image_config get_registerable_container_image
    pod_template primary_container settings h = (h', Ok out) ->
  exists r,
    get_registerable_container_image (Some img) (image_config settings) = Ok r
    /\ container_attr out i "name" = Some (JStr (primary_container_name t))
    /\ container_attr out i "image" = Some (JStr r).
Proof.
  intros Ht Hps Hs Hl Hitems Hi Honce Hx Hname Himg Hrun.
  destruct (serialize_ok _ _ _ _ _ _ _ _ _ _ Ht Hps Hs Hl Hitems Hrun)
    as (h3 & h4 & final & items' & extra & cs
        & Hcopies & Hshare & Hextra & Hfinal & Hloop & Hcs & ->).
  destruct (Forall2_lookup_l _ _ _ _ _ Hcopies Hi) as (y & Hy & c0 & Hx0 & Hy3).
  rewrite Hx in Hx0. injection Hx0 as <-.
  destruct Hextra as [[_ ->]|[Hnone _]].
  2:{ rewrite Forall_forall in Hnone. destruct (Hnone y) with c; [|done|done].
      apply list_elem_of_lookup. by exists i. }
  rewrite app_nil_r in *.
  destruct (loop_ok _ _ _ _ _ _ _ _ _ Hloop Hfinal) as (_ & _ & Hturn).
  destruct (Hturn y c i Hy) as (c' & Hmerged & Hy4); [|done|].
  { intros j Hj. apply Honce. rewrite <- (Hshare i j y Hy Hj). done. }
  destruct (Forall2_lookup_l _ _ _ _ _ Hcs Hy) as (c'' & Hci & Hy4').
  rewrite Hy4 in Hy4'. injection Hy4' as <-.
  rewrite <- Hname in Hmerged.
  destruct (merged_declared_image _ _ _ _ _ Himg Hmerged) as (r & Hr & Himg').
  exists r. split; [done|].
  destruct (container_attr_lookup cs (spec_other s) i c' r Hci Himg') as [Hn Him].
  rewrite (merged_name _ _ _ _ _ Hmerged), Hname in Hn. by split.
Qed.

(** C10.  Take a well-formed pod template none of whose containers is named
    as the primary one.  Whenever the call returns, the result has one more
    container than the template, the last, which carries the primary name and
    the image of the computed primary container. *)
Theorem placeholder_gets_computed_image (h h' : heap) (pod_template ps : loc)
    (t : PodTemplate) (s : V1PodSpec) (items : list loc)
    (primary_container : task_models.Container) (settings : SerializationSettings)
    (out : json) :
  h !! pod_template = Some (OPodTemplate t) ->
  pod_spec t = Some ps ->
  h !! ps = Some (OPodSpec s) ->
  h !! containers s = Some (OList items) ->
  Forall (fun x => exists c, h !! x = Some (OContainer c)
                             /\ V1Container.name c <> primary_container_name t) items ->
  _serialize_pod_spec image_config get_registerable_container_image
    pod_template primary_container settings h = (h', Ok out) ->
  container_attr out (length items) "name" = Some (JStr (primary_container_name t))
  /\ container_attr out (length items) "image" =
       Some (JStr (task_models.image primary_container)).
Proof.
  intros Ht Hps Hs Hl Hitems Hrun.
  assert (Forall (is_container h) items) as Hwf.
  { eapply Forall_impl; [exact Hitems|]. intros x (c & Hc & _). by exists c. }
  destruct (serialize_ok _ _ _ _ _ _ _ _ _ _ Ht Hps Hs Hl Hwf Hrun)
    as (h3 & h4 & final & items' & extra & cs
        & Hcopies & Hshare & Hextra & Hfinal & Hloop & Hcs & ->).
  destruct Hextra as [[(y & c & Hy & Hc & Hn) _]|[_ (p & -> & Hp & Hp3)]].
  { apply list_elem_of_lookup in Hy as [j Hj].
    destruct (Forall2_lookup_r _ _ _ _ _ Hcopies Hj) as (x & Hx & c0 & Hx0 & Hy3).
    rewrite Hc in Hy3. injection Hy3 as <-.
    rewrite Forall_forall in Hitems.
    destruct (Hitems x) as (c1 & Hc1 & Hne); [apply list_elem_of_lookup; by exists j|].
    congruence. }
  destruct (loop_ok _ _ _ _ _ _ _ _ _ Hloop Hfinal) as (_ & _ & Hturn).
  destruct (Hturn p (V1Container.init (primary_container_name t)) (length items'))
    as (c' & Hmerged & Hp4); [by apply list_lookup_middle | | done |].
  { intros j Hj. apply lookup_app_Some in Hj as [Hj|[Hlen Hj]].
    - destruct Hp. apply list_elem_of_lookup. by exists j.
    - apply list_lookup_singleton_Some in Hj as [Hj _]. lia. }
  apply Forall2_app_inv_l in Hcs as (cs0 & cs1 & Hcs0 & Hcs1 & ->).
  apply Forall2_cons_inv_l in Hcs1 as (c'' & cs2 & Hp4' & Hnil & ->).
  apply Forall2_nil_inv_l in Hnil as ->.
  rewrite Hp4 in Hp4'. injection Hp4' as <-.
  assert (length items = length cs0) as Hlen.
  { rewrite (Forall2_length _ _ _ Hcopies). by apply (Forall2_length _ _ _ Hcs0). }
  assert (V1Container.image c' = Some (task_models.image primary_container)) as Himg.
  { by apply (merged_no_image primary_container settings
                (V1Container.init (primary_container_name t))). }
  destruct (container_attr_lookup (cs0 ++ [c']) (spec_other s) (length items) c' _
              ltac:(rewrite Hlen; by apply list_lookup_middle) Himg) as [Hn Him].
  by rewrite (merged_name _ _ _ _ _ Hmerged) in Hn.
Qed.

(** *** A container that is listed more than once *)

(** Through the second loop a container in [T] stays in [T], and a container
    of the list ends in [T2], when a merge takes [T] into [T2] and [T2] lies
    in [T]. *)
Lemma loop_tracks (T T2 : V1Container.t -> Prop)
    (name : string) (primary_container : task_models.Container)
    (settings : SerializationSettings) (final : loc) (items : list loc) :
  (forall c c',
     merged image_config get_registerable_container_image name primary_container
       settings c = Ok c' -> T c -> T2 c') ->
  (forall c, T2 c -> T c) ->
  forall (h h' : heap) (init : list loc) (u : unit),
    for_each items
      (fun x =>
         let* _ := merge image_config get_registerable_container_image name
                     primary_container settings x in
         list_append final x) h = (h', Ok u) ->
    h !! final = Some (OList init) ->
    forall y c, h !! y = Some (OContainer c) -> T c ->
      exists c', h' !! y = Some (OContainer c') /\ T c' /\ (y ∈ items -> T2 c').
Proof.
  intros Hmerge Hsub.
  induction items as [|a items IH]; intros h h' init u Hrun Hfinal y c Hy HT;
    simpl in Hrun.
  { injection Hrun as <-. exists c. split_and!; [done | done |].
    intros Hin. by apply elem_of_nil in Hin. }
  apply bind_ok in Hrun as (h1 & [] & Hturn & Hrest).
  apply turn_ok in Hturn as (c0 & c0' & items0 & Ha & Hmerged & Hfinal0 & Hne & ->).
  rewrite Hfinal in Hfinal0. injection Hfinal0 as <-.
  assert (final < length h) as Hlen by (by eapply lookup_lt_Some).
  assert (a < length h) as Hlena by (by eapply lookup_lt_Some).
  assert ((<[final := OList (init ++ [a])]> (<[a := OContainer c0']> h)) !! final
          = Some (OList (init ++ [a]))) as Hfinal1.
  { apply list_lookup_insert_eq. by rewrite length_insert. }
  assert (y <> final) as Hyf by (intros ->; congruence).
  destruct (decide (y = a)) as [->|Hya].
  - rewrite Ha in Hy. injection Hy as <-.
    pose proof (Hmerge _ _ Hmerged HT) as HT2.
    destruct (IH _ _ _ _ Hrest Hfinal1 a c0') as (c' & Hc' & HT' & HT2').
    { rewrite list_lookup_insert_ne by done. by apply list_lookup_insert_eq. }
    { by apply Hsub. }
    exists c'. split_and!; [done | done |].
    intros _. destruct (decide (a ∈ items)) as [Hin|Hout]; [by apply HT2'|].
    destruct (loop_ok _ _ _ _ _ _ _ _ _ Hrest Hfinal1) as (_ & Hframe & _).
    rewrite (Hframe a (OContainer c0') Hout Hne) in Hc'.
    + by injection Hc' as <-.
    + rewrite list_lookup_insert_ne by done. by apply list_lookup_insert_eq.
  - destruct (IH _ _ _ _ Hrest Hfinal1 y c) as (c' & Hc' & HT' & HT2').
    { by rewrite !list_lookup_insert_ne. }
    { done. }
    exists c'. split_and!; [done | done |].
    intros Hin. apply elem_of_cons in Hin as [?|Hin]; [done | by apply HT2'].
Qed.

(** C5.  The image resolution is an external collaborator; all that is
    assumed of it is that an image it has resolved is final: resolved again,
    it comes back unchanged.  Take a well-formed pod template whose [i]-th
    container is named as the primary one and declares the image [img],
    whether the container object is listed once or more often.  Whenever the
    call returns, the image resolution has returned some [r] for [img], and
    the [i]-th container of the result carries the primary name and the image
    [r], whatever the computed primary container is. *)
Theorem declared_image_is_resolved (h h' : heap) (pod_template ps : loc)
    (t : PodTemplate) (s : V1PodSpec) (items : list loc) (i : nat) (x : loc)
    (c : V1Container.t) (img : string)
    (primary_container : task_models.Container) (settings : SerializationSettings)
    (out : json) :
  (forall image r,
     get_registerable_container_image image (image_config settings) = Ok r ->
     get_registerable_container_image (Some r) (image_config settings) = Ok r) ->
  h !! pod_template = Some (OPodTemplate t) ->
  pod_spec t = Some ps ->
  h !! ps = Some (OPodSpec s) ->
  h !! containers s = Some (OList items) ->
  Forall (is_container h) items ->
  items !! i = Some x ->
  h !! x = Some (OContainer c) ->
  V1Container.name c = primary_container_name t ->
  V1Container.image c = Some img ->
  _serialize_pod_spec image_config get_registerable_container_image
    pod_template primary_container settings h = (h', Ok out) ->
  exists r,
    get_registerable_container_image (Some img) (image_config settings) = Ok r
    /\ container_attr out i "name" = Some (JStr (primary_container_name t))
    /\ container_attr out i "image" = Some (JStr r).
Proof.
  intros Hfinal_image Ht Hps Hs Hl Hitems Hi Hx Hname Himg Hrun.
  destruct (serialize_ok _ _ _ _ _ _ _ _ _ _ Ht Hps Hs Hl Hitems Hrun)
    as (h3 & h4 & final & items' & extra & cs
        & Hcopies & Hshare & Hextra & Hfinal & Hloop & Hcs & ->).
  destruct (Forall2_lookup_l _ _ _ _ _ Hcopies Hi) as (y & Hy & c0 & Hx0 & Hy3).
  rewrite Hx in Hx0. injection Hx0 as <-.
  set (resolved := fun c' : V1Container.t =>
         V1Container.name c' = primary_container_name t
         /\ exists r,
              get_registerable_container_image (Some img) (image_config settings)
              = Ok r
              /\ V1Container.image c' = Some r).
  set (declared := fun c' : V1Container.t =>
         V1Container.name c' = primary_container_name t
         /\ V1Container.image c' = Some img \/ resolved c').
  destruct (loop_tracks declared resolved (primary_container_name t)
              primary_container settings final (items' ++ extra))
    with h3 h4 (@nil loc) tt y c as (c' & Hy4 & _ & Hres).
  - intros a b Hmerged [[Hn Ha]|[Hn (r & Hr & Ha)]];
      (split; [by rewrite (merged_name _ _ _ _ _ Hmerged)|]);
      rewrite <- Hn in Hmerged.
    + destruct (merged_declared_image _ _ _ _ _ Ha Hmerged) as (r & Hr & Hb).
      by exists r.
    + destruct (merged_declared_image _ _ _ _ _ Ha Hmerged) as (r' & Hr' & Hb).
      rewrite (Hfinal_image _ _ Hr) in Hr'. injection Hr' as <-. by exists r.
  - intros a Ha. by right.
  - done.
  - done.
  - done.
  - by left.
  - destruct Hres as (Hn & r & Hr & Himg').
    { apply elem_of_app. left. apply list_elem_of_lookup. by exists i. }
    destruct (Forall2_lookup_l _ _ _ _ _ Hcs (lookup_app_l_Some _ _ _ _ Hy))
      as (c'' & Hci & Hy4').
    rewrite Hy4 in Hy4'. injection Hy4' as <-.
    exists r. split; [done|].
    destruct (container_attr_lookup cs (spec_other s) i c' r Hci Himg') as [Hn' Him].
    rewrite Hn in Hn'. by split.
Qed.

(** *** The call returns when the image resolution does *)

Lemma merged_returns (name : string) (primary_container : task_models.Container)
    (settings : SerializationSettings) (c : V1Container.t) :
  (forall img, exists r,
     get_registerable_container_image img (image_config settings) = Ok r) ->
  exists c',
    merged image_config get_registerable_container_image name primary_container
      settings c = Ok c'.
Proof.
  intros Htotal. unfold merged. destruct (String.eqb _ _).
  - destruct (V1Container.image c) as [img|]; [|by eexists].
    destruct (Htotal (Some img)) as [r ->]. by eexists.
  - destruct (Htotal (V1Container.image c)) as [r ->]. by eexists.
Qed.

Lemma loop_returns (name : string) (primary_container : task_models.Container)
    (settings : SerializationSettings) (final : loc) (items : list loc) :
  (forall img, exists r,
     get_registerable_container_image img (image_config settings) = Ok r) ->
  forall (h : heap) (init : list loc),
    h !! final = Some (OList init) ->
    Forall (is_container h) items ->
    exists h',
      for_each items
        (fun x =>
           let* _ := merge image_config get_registerable_container_image name
                       primary_container settings x in
           list_append final x) h = (h', Ok tt)
      /\ h' !! final = Some (OList (init ++ items))
      /\ (forall x, is_container h x -> is_container h' x)
      /\ (forall x o, h !! x = Some o -> x <> final -> ~ is_container h x ->
                      h' !! x = Some o).
Proof.
  intros Htotal. induction items as [|x items IH]; intros h init Hfinal Hitems.
  { exists h. rewrite app_nil_r. by split_and!. }
  apply Forall_cons in Hitems as [[c Hx] Hitems].
  destruct (merged_returns name primary_container settings c Htotal) as [c' Hc'].
  assert (x <> final) as Hne by (intros ->; congruence).
  assert (x < length h) as Hlenx by (by eapply lookup_lt_Some).
  assert (final < length h) as Hlenf by (by eapply lookup_lt_Some).
  set (h1 := <[final := OList (init ++ [x])]> (<[x := OContainer c']> h)).
  assert (forall y, is_container h y -> is_container h1 y) as Hkeep.
  { intros y [cy Hy]. unfold h1. destruct (decide (y = x)) as [->|Hyx].
    - exists c'. rewrite list_lookup_insert_ne by done.
      by apply list_lookup_insert_eq.
    - exists cy. assert (y <> final) by (intros ->; congruence).
      by rewrite !list_lookup_insert_ne. }
  destruct (IH h1 (init ++ [x])) as (h' & Hrun & Hfinal' & Hcont & Hframe).
  { unfold h1. apply list_lookup_insert_eq. by rewrite length_insert. }
  { eapply Forall_impl; [exact Hitems|]. exact Hkeep. }
  exists h'. split_and!.
  - simpl. unfold bind at 1. unfold bind at 1.
    rewrite (merge_run _ _ _ _ _ _ Hx), Hc'.
    rewrite (list_append_run final x _ init) by (by rewrite list_lookup_insert_ne).
    exact Hrun.
  - by rewrite Hfinal', <- app_assoc.
  - intros y Hy. by apply Hcont, Hkeep.
  - intros y o Hy Hyf Hnot.
    assert (y <> x) as Hyx by (intros ->; apply Hnot; by exists c).
    assert (h1 !! y = Some o) as Hy1 by (unfold h1; by rewrite !list_lookup_insert_ne).
    apply Hframe; [done | done |].
    intros [cy Hcy]. apply Hnot. exists cy. congruence.
Qed.

(** On a well-formed pod template the call returns, provided the image
    resolution returns for the settings at hand. *)
Lemma serialize_returns (h : heap) (pod_template ps : loc) (t : PodTemplate)
    (s : V1PodSpec) (items : list loc) (primary_container : task_models.Container)
    (settings : SerializationSettings) :
  h !! pod_template = Some (OPodTemplate t) ->
  pod_spec t = Some ps ->
  h !! ps = Some (OPodSpec s) ->
  h !! containers s = Some (OList items) ->
  Forall (is_container h) items ->
  (forall img, exists r,
     get_registerable_container_image img (image_config settings) = Ok r) ->
  exists h' out,
    _serialize_pod_spec image_config get_registerable_container_image
      pod_template primary_container settings h = (h', Ok out).
Proof.
  intros Ht Hps Hs Hl Hitems Htotal.
  destruct (deepcopy_returns _ _ _ _ _ _ Ht Hps Hs Hl Hitems) as (h1 & copy & Hcopy).
  destruct (deepcopy_ok _ _ _ _ _ _ _ _ Ht Hps Hs Hl Hitems Hcopy)
    as (ps' & l' & items' & memo & Hpre & Hcopy' & Hps' & Hl' & [Hmemo _] & Hall).
  assert (Forall (is_container h1) items') as Hcont.
  { apply Forall_forall. intros y Hy. apply list_elem_of_lookup in Hy as [i Hi].
    destruct (Forall2_lookup_r _ _ _ _ _ Hall Hi) as (x & _ & Hxy).
    destruct (Hmemo x y Hxy) as (_ & c & _ & Hc). by exists c. }
  destruct (primary_exists_in_returns (primary_container_name t) items' h1 Hcont)
    as [b Hfind].
  assert (ps' <> l') as Hpl by (intros ->; congruence).
  assert (l' < length h1) as Hlenl by (by eapply lookup_lt_Some).
  (* the placeholder, when it is needed *)
  assert (exists h2 items'',
            (if b then ret tt
             else let* placeholder :=
                    alloc (OContainer (V1Container.init (primary_container_name t))) in
                  list_append l' placeholder) h1 = (h2, Ok tt)
            /\ h2 !! l' = Some (OList items'')
            /\ h2 !! ps' = Some (OPodSpec {| containers := l';
                                              spec_other := spec_other s |})
            /\ Forall (is_container h2) items'')
    as (h2 & items'' & Hplace & Hl2 & Hps2 & Hcont2).
  { destruct b.
    - by exists h1, items'.
    - exists (<[l' := OList (items' ++ [length h1])]>
                (h1 ++ [OContainer (V1Container.init (primary_container_name t))])),
             (items' ++ [length h1]).
      split_and!.
      + unfold bind, alloc.
        by rewrite (list_append_run l' _ _ items') by (by apply lookup_app_l_Some).
      + apply list_lookup_insert_eq. rewrite length_app. lia.
      + rewrite list_lookup_insert_ne by done. by apply lookup_app_l_Some.
      + apply Forall_app. split.
        * eapply Forall_impl; [exact Hcont|]. intros y [c Hc]. exists c.
          rewrite list_lookup_insert_ne by (intros ->; congruence).
          by apply lookup_app_l_Some.
        * apply Forall_singleton. eexists.
          rewrite list_lookup_insert_ne by lia. by apply list_lookup_middle. }
  set (h3 := h2 ++ [OList []]).
  assert (~ is_container h3 ps') as Hnc.
  { intros [c Hc]. unfold h3 in Hc.
    rewrite (lookup_app_l_Some _ _ _ _ Hps2) in Hc. done. }
  assert (ps' <> length h2) as Hpf by (apply lookup_lt_Some in Hps2; lia).
  destruct (loop_returns (primary_container_name t) primary_container settings
              (length h2) items'' Htotal h3 [])
    as (h4 & Hloop & Hfinal4 & Hcont4 & Hframe4).
  { by apply list_lookup_middle. }
  { eapply Forall_impl; [exact Hcont2|]. intros y [c Hc]. exists c.
    by apply lookup_app_l_Some. }
  assert (h4 !! ps' = Some (OPodSpec {| containers := l'; spec_other := spec_other s |}))
    as Hps4 by (apply Hframe4; [by apply lookup_app_l_Some | done | done]).
  set (h5 := <[ps' := OPodSpec {| containers := length h2;
                                  spec_other := spec_other s |}]> h4).
  assert (ps' < length h4) as Hlen4 by (by eapply lookup_lt_Some).
  destruct (get_containers_returns items'' h5) as [cs Hcs].
  { eapply Forall_impl; [exact Hcont2|]. intros y [c Hc].
    destruct (Hcont4 y) as [c4 Hc4]; [exists c; by apply lookup_app_l_Some|].
    exists c4. unfold h5. rewrite list_lookup_insert_ne; [done|]. intros ->. congruence. }
  eexists _, _. unfold _serialize_pod_spec.
  unfold bind at 1. rewrite (get_template_run _ _ _ Ht), Hps.
  unfold bind at 1. rewrite Hcopy.
  unfold bind at 1. rewrite (get_template_run _ _ _ Hcopy').
  cbn [pod_spec primary_container_name].
  unfold bind at 1. rewrite (get_pod_spec_run _ _ _ Hps'). cbn [containers].
  unfold bind at 1. rewrite (get_list_run _ _ _ Hl').
  unfold bind at 1. rewrite Hfind.
  unfold bind at 1. rewrite Hplace.
  unfold bind at 1. unfold alloc at 1. fold h3.
  unfold bind at 1.
  rewrite (get_list_run l' h3 items'') by (by apply lookup_app_l_Some).
  unfold bind at 1. rewrite Hloop.
  unfold bind at 1. unfold set_containers. unfold bind at 1.
  rewrite (get_pod_spec_run _ _ _ Hps4). unfold assign. cbn [spec_other]. fold h5.
  unfold sanitize_for_serialization. unfold bind at 1.
  rewrite (get_pod_spec_run ps' h5 {| containers := length h2;
                                      spec_other := spec_other s |})
    by (by apply list_lookup_insert_eq).
  cbn [containers]. unfold bind at 1.
  rewrite (get_list_run (length h2) h5 items'')
    by (unfold h5; by rewrite list_lookup_insert_ne).
  unfold bind at 1. rewrite Hcs. reflexivity.
Qed.

Lemma safe_merge (n : nat) (name : string) (primary_container : task_models.Container)
    (settings : SerializationSettings) (container : loc) :
  n <= container ->
  safe n (merge image_config get_registerable_container_image name primary_container
            settings container) (fun _ => True).
Proof.
  intros Hn. unfold merge.
  eapply safe_bind; [apply safe_get_container|]. intros c _.
  destruct (String.eqb _ _).
  - eapply safe_bind.
    { destruct (V1Container.image c).
      - eapply safe_bind; [apply safe_lift|]. intros r _. by apply safe_setattr.
      - by apply safe_setattr. }
    intros _ _. eapply safe_bind; [by apply safe_setattr|].
    intros _ _. eapply safe_bind; [by apply safe_setattr|].
    intros _ _. eapply safe_bind.
    { destruct (_ || _); [by apply safe_setattr | by apply safe_ret]. }
    intros _ _. destruct (task_models.env primary_container); [|by apply safe_ret].
    eapply safe_bind; [apply safe_get_container|]. intros c' _. by apply safe_setattr.
  - eapply safe_bind; [apply safe_lift|]. intros r _. by apply safe_setattr.
Qed.

Lemma safe_serialize_pod_spec (n : nat) (pod_template : loc)
    (primary_container : task_models.Container) (settings : SerializationSettings) :
  safe n (_serialize_pod_spec image_config get_registerable_container_image
            pod_template primary_container settings) (fun _ => True).
Proof.
  unfold _serialize_pod_spec.
  eapply safe_bind; [apply safe_get_template|]. intros t0 _.
  destruct (pod_spec t0); [|by apply safe_ret].
  eapply safe_bind; [apply safe_deepcopy|]. intros copy Hcopy.
  eapply safe_bind; [apply safe_get_template|]. intros t Ht.
  destruct (pod_spec t) as [ps|] eqn:Hps; [|apply safe_raise].
  assert (n <= ps) as Hn by (by eapply Ht).
  eapply safe_bind; [apply safe_get_pod_spec|]. intros s Hs. specialize (Hs Hn).
  eapply safe_bind; [apply safe_get_list|]. intros items _.
  eapply safe_bind; [apply safe_primary_exists_in|]. intros primary_exists _.
  eapply safe_bind with (P := fun _ => True).
  { destruct primary_exists; [by apply safe_ret|].
    eapply safe_bind; [by apply safe_alloc|]. intros placeholder Hp.
    by apply safe_list_append. }
  intros _ _. eapply safe_bind; [by apply safe_alloc|]. intros final_containers Hf.
  eapply safe_bind; [apply safe_get_list|]. intros items' Hitems'.
  eapply safe_bind.
  { apply safe_for_each; [by apply Hitems'|]. intros x Hx.
    eapply safe_bind; [by apply safe_merge|]. intros _ _. by apply safe_list_append. }
  intros _ _. eapply safe_bind; [by apply safe_set_containers|].
  intros _ _. apply safe_sanitize_for_serialization.
Qed.

(** C7.  Whatever the arguments, and whether the call returns or raises, every
    object that was in the store before the call is in it unchanged after the
    call, at the same place: the caller's pod template, its pod spec, the list
    of its containers and the containers themselves.  The call only adds
    objects. *)
Theorem serialize_leaves_caller_objects (h : heap) (pod_template : loc)
    (primary_container : task_models.Container) (settings : SerializationSettings) :
  let h' := (_serialize_pod_spec image_config get_registerable_container_image
               pod_template primary_container settings h).1 in
  h `prefix_of` h' /\ forall l o, h !! l = Some o -> h' !! l = Some o.
Proof.
  intros h'.
  assert (h `prefix_of` h') as Hprefix.
  { destruct (safe_serialize_pod_spec (length h) pod_template primary_container
                settings h) as (_ & _ & Htake & _); [done | |].
    - intros l o Hl Ho. apply lookup_lt_Some in Ho. lia.
    - fold h' in Htake. rewrite (take_ge h) in Htake by done.
      rewrite <- Htake. apply prefix_take. }
  split; [done|]. intros l o Ho. by eapply prefix_lookup_Some.
Qed.

(** C6.  A template without a pod spec is serialized to the empty mapping,
    whatever the primary container and the settings, and nothing is added to
    the store. *)
Theorem no_pod_spec_gives_empty_mapping (h : heap) (pod_template : loc)
    (t : PodTemplate) (primary_container : task_models.Container)
    (settings : SerializationSettings) :
  h !! pod_template = Some (OPodTemplate t) ->
  pod_spec t = None ->
  _serialize_pod_spec image_config get_registerable_container_image
    pod_template primary_container settings h = (h, Ok (JDict [])).
Proof.
  intros Ht Hnone.
  unfold _serialize_pod_spec, get_template, load, bind, ret.
  rewrite Ht. by rewrite Hnone.
Qed.

End SerializerFacts.

Import Samples.

Lemma no_pod_spec_gives_empty_mapping_witness :
  _serialize_pod_spec settings_suffix suffix_resolver 0 computed ":v1" bare_store
  = (bare_store, Ok (JDict [])).
Proof.
  eapply (no_pod_spec_gives_empty_mapping string string settings_suffix
            suffix_resolver bare_store 0 _ computed ":v1"); reflexivity.
Defined.

Lemma image_of_container_listed_once_witness :
  exists h' out,
    _serialize_pod_spec settings_suffix suffix_resolver 4 computed ":v1"
      declared_store = (h', Ok out)
    /\ container_attr out 0 "name" = Some (JStr "primary")
    /\ container_attr out 0 "image" = Some (JStr "x:v1").
Proof.
  pose (run := _serialize_pod_spec settings_suffix suffix_resolver 4 computed ":v1"
                 declared_store).
  exists run.1. eexists. split; [vm_compute; reflexivity|].
  match goal with
  | |- container_attr ?out _ _ = _ /\ _ =>
    destruct (image_of_container_listed_once string string settings_suffix
                suffix_resolver declared_store run.1 4 3 (template 3) (spec 2)
                [0; 1] 0 0 primary_x "x" computed ":v1" out)
      as (r & Hr & Hn & Hi); try reflexivity
  end.
  - repeat constructor; eexists; reflexivity.
  - intros [|[|j]] Hj; [reflexivity | discriminate Hj | discriminate Hj].
  - injection Hr as <-. split; [exact Hn | exact Hi].
Defined.

(** What is assumed of the image resolution is needed when a container is
    listed twice: the container is merged twice, so its declared image ["x"]
    goes through the image resolution twice, and a resolution that changes
    its own results (here, one that appends a suffix at every call) shows. *)
Lemma shared_container_is_resolved_twice :
  suffix_resolver (Some "x") (settings_suffix ":v1") = Ok "x:v1"
  /\ exists h' out,
       _serialize_pod_spec settings_suffix suffix_resolver 3 computed ":v1"
         shared_store = (h', Ok out)
       /\ container_attr out 0 "name" = Some (JStr "primary")
       /\ container_attr out 0 "image" = Some (JStr "x:v1:v1").
Proof.
  split; [reflexivity|]. eexists _, _.
  split; [vm_compute; reflexivity | split; reflexivity].
Qed.

Lemma declared_image_is_resolved_witness :
  exists h' out,
    _serialize_pod_spec settings_suffix PodSpecWords.placeholder_resolver 3 computed
      "registry/app:v1" PodSpecWords.shared_placeholder_store = (h', Ok out)
    /\ PodSpecWords.placeholder_resolver (Some "{{.image.default.fqn}}")
         (settings_suffix "registry/app:v1") = Ok "registry/app:v1"
    /\ container_attr out 1 "name" = Some (JStr "primary")
    /\ container_attr out 1 "image" = Some (JStr "registry/app:v1").
Proof.
  pose (run := _serialize_pod_spec settings_suffix PodSpecWords.placeholder_resolver
                 3 computed "registry/app:v1" PodSpecWords.shared_placeholder_store).
  exists run.1. eexists. split; [vm_compute; reflexivity|].
  split; [reflexivity|].
  match goal with
  | |- container_attr ?out _ _ = _ /\ _ =>
    destruct (declared_image_is_resolved string string settings_suffix
                PodSpecWords.placeholder_resolver
                PodSpecWords.shared_placeholder_store run.1 3 2 (template 2)
                (spec 1) [0; 0] 1 0 PodSpecWords.primary_templated
                "{{.image.default.fqn}}" computed "registry/app:v1" out)
      as (r & Hr & Hn & Hi); try reflexivity
  end.
  - intros [image|] r Hr; [|discriminate Hr].
    unfold PodSpecWords.placeholder_resolver, settings_suffix in *.
    destruct (String.eqb image "{{.image.default.fqn}}") eqn:Heq.
    + injection Hr as <-. reflexivity.
    + injection Hr as <-. by rewrite Heq.
  - repeat constructor; eexists; reflexivity.
  - injection Hr as <-. split; [exact Hn | exact Hi].
Defined.

Lemma placeholder_gets_computed_image_witness :
  exists h' out,
    _serialize_pod_spec settings_suffix suffix_resolver 3 computed ":v1"
      sidecar_store = (h', Ok out)
    /\ container_attr out 1 "name" = Some (JStr "primary")
    /\ container_attr out 1 "image" = Some (JStr "task:1").
Proof.
  pose (run := _serialize_pod_spec settings_suffix suffix_resolver 3 computed ":v1"
                 sidecar_store).
  exists run.1. eexists. split; [vm_compute; reflexivity|].
  apply (placeholder_gets_computed_image string string settings_suffix
           suffix_resolver sidecar_store run.1 3 2 (template 2) (spec 1) [0]
           computed ":v1"); try reflexivity.
  repeat constructor. exists sidecar_y. split; [reflexivity | discriminate].
Defined.

End PodSpecFacts.

(** ** The timing context manager and decorator *)

Module TimeitFacts.
Import Timeit.

Section TimerFacts.
Variables datetime seconds env : Type.
Variable sub : seconds -> seconds -> seconds.
Variable datetime_now : env -> env * datetime.
Variable perf_counter : env -> env * seconds.
Variable process_time : env -> env * seconds.





End TimerFacts.



End TimeitFacts.

(** ** More on the DNS-label sanitizer *)

Module DnsMore.
Import pystr Dns DnsWords DnsFacts.

Section More.
Variable U : unicode.
Variable sha224_hexdigest : list N -> str.

(** X1.  For an ASCII string shorter than 63 characters the sanitizer
    returns, without an exception, a string of lowercase ASCII letters, digits
    and hyphens that does not start with a hyphen. *)
Theorem dnsify_ascii_alphabet (value : str) :
  length value < 63 ->
  Forall (fun c => is_ascii c = true) value ->
  exists r,
    _dnsify U sha224_hexdigest value = Ok r
    /\ forallb label_char r = true
    /\ head r <> Some hyphen.
Proof.
  intros Hlen Hascii. eexists. split; [by apply dnsify_short|].
  destruct (scan_label U value [] Hascii) as [H1 H2]; [by constructor | done |].
  destruct (strip_trailing_label _ H1 H2) as [H3 H4].
  split; [|done]. apply forallb_forall. intros c Hc.
  unfold label_chars in H3. rewrite Forall_forall in H3.
  apply H3. by apply list_elem_of_In.
Qed.

(** X2.  A valid DNS label shorter than 63 characters is returned as it
    is. *)
Theorem valid_label_unchanged (r : str) :
  valid_dns_label r = true ->
  length r < 63 ->
  _dnsify U sha224_hexdigest r = Ok r.
Proof.
  unfold valid_dns_label. intros Hvalid Hlen.
  apply andb_prop in Hvalid as [Hvalid Hlast].
  apply andb_prop in Hvalid as [Hvalid Hhead].
  apply andb_prop in Hvalid as [Hchars _].
  apply dnsify_label_fixed; [| done | |].
  - apply Forall_forall. intros c Hc. rewrite forallb_forall in Hchars.
    apply Hchars. by apply list_elem_of_In.
  - apply negb_true_iff in Hhead. by apply bool_decide_eq_false in Hhead.
  - by apply negb_true_iff in Hlast.
Qed.

(** *** Characters that do not count *)

Lemma step_skipped (res : str) (ch : char) :
  kept U ch = false -> step U res ch = res.
Proof.
  unfold kept. intros H. apply orb_false_iff in H as [Hsep Halnum].
  unfold step. by rewrite Hsep, Halnum.
Qed.

Lemma scan_kept (value res : str) :
  scan U res (List.filter (kept U) value) = scan U res value.
Proof.
  revert res. induction value as [|ch value IH]; intros res; [done|].
  simpl List.filter. destruct (kept U ch) eqn:Hk.
  - rewrite !scan_cons. apply IH.
  - rewrite scan_cons, (step_skipped _ _ Hk). apply IH.
Qed.

Lemma filter_length_le (f : char -> bool) (value : str) :
  length (List.filter f value) <= length value.
Proof. induction value as [|c value IH]; simpl; [lia|]. destruct (f c); simpl; lia. Qed.

(** X3.  For a value shorter than 63 characters, the characters that are
    neither separators nor alphanumeric have no effect: leaving them out of the
    value gives the same result. *)
Theorem dnsify_skips_other_characters (value : str) :
  length value < 63 ->
  _dnsify U sha224_hexdigest (List.filter (kept U) value)
  = _dnsify U sha224_hexdigest value.
Proof.
  intros Hlen. pose proof (filter_length_le (kept U) value) as Hle.
  rewrite !dnsify_short by lia. by rewrite scan_kept.
Qed.

Lemma scan_from_empty_prefix (pre : str) :
  Forall (fun c => is_separator c = true \/ isalnum U c = false) pre ->
  scan U [] pre = [].
Proof.
  induction 1 as [|ch pre Hch _ IH]; [done|].
  rewrite scan_cons. replace (step U [] ch) with ([] : str); [done|].
  unfold step. destruct (is_separator ch) eqn:Hsep; [done|].
  destruct Hch as [Hch|Hch]; [congruence|]. by rewrite Hch.
Qed.

(** X4.  Whatever stands before the first alphanumeric character is ignored:
    a prefix of separators and non-alphanumeric characters can be left out,
    for values shorter than 63 characters. *)
Theorem dnsify_ignores_leading_separators (pre value : str) :
  Forall (fun c => is_separator c = true \/ isalnum U c = false) pre ->
  length (pre ++ value) < 63 ->
  _dnsify U sha224_hexdigest (pre ++ value) = _dnsify U sha224_hexdigest value.
Proof.
  intros Hpre Hlen. rewrite length_app in Hlen.
  rewrite !dnsify_short by (rewrite ?length_app; lia).
  by rewrite scan_app, scan_from_empty_prefix.
Qed.

(** *** Steps on ASCII characters *)

Lemma capitals_cons (c : char) (value : str) :
  capitals (c :: value) = (if ascii_upper c then 1 else 0) + capitals value.
Proof. unfold capitals. simpl. by destruct (ascii_upper c). Qed.

Lemma step_ascii (res : str) (ch : char) :
  is_ascii ch = true -> is_separator ch = false ->
  step U res ch =
    if ascii_lower ch || ascii_digit ch then res ++ [ch]
    else if ascii_upper ch then
      (if nonempty res && negb (last_is hyphen res) && (length res <? 62)
       then res ++ [hyphen] else res) ++ [(ch + 32)%N]
    else res.
Proof.
  intros Hascii Hsep. unfold step.
  rewrite Hsep, isalnum_ascii, islower_ascii, isdigit_ascii by done.
  unfold lower. rewrite Hascii.
  by destruct (ascii_digit ch), (ascii_lower ch), (ascii_upper ch).
Qed.

Lemma step_alnum_last (res : str) (ch : char) :
  is_ascii ch = true -> is_separator ch = false -> ascii_alnum ch = true ->
  exists r c, step U res ch = r ++ [c] /\ (c =? hyphen)%N = false.
Proof.
  intros Hascii Hsep Halnum. rewrite step_ascii by done.
  destruct (ascii_lower ch || ascii_digit ch) eqn:Hld.
  { exists res, ch. split; [done|]. clear - Hld. num. }
  assert (ascii_upper ch = true) as Hup.
  { unfold ascii_alnum in Halnum.
    destruct (ascii_digit ch), (ascii_lower ch), (ascii_upper ch); done. }
  rewrite Hup. eexists _, _. split; [done|]. clear - Hup. num.
Qed.

Lemma step_length (res : str) (ch : char) :
  is_ascii ch = true ->
  length (step U res ch) <= length res + 1 + (if ascii_upper ch then 1 else 0).
Proof.
  intros Hascii. destruct (is_separator ch) eqn:Hsep.
  { rewrite (step_separator _ _ _ Hsep).
    destruct (nonempty res && _); rewrite ?length_app; simpl; lia. }
  rewrite step_ascii by done.
  destruct (ascii_lower ch || ascii_digit ch); [rewrite length_app; simpl; lia|].
  destruct (ascii_upper ch); [|lia].
  destruct (nonempty res && _ && _); rewrite !length_app; simpl; lia.
Qed.

Lemma scan_length (value res : str) :
  Forall (fun c => is_ascii c = true) value ->
  length (scan U res value) <= length res + length value + capitals value.
Proof.
  intros Hvalue. revert res.
  induction Hvalue as [|ch value Hch _ IH]; intros res; [simpl; lia|].
  rewrite scan_cons, capitals_cons. pose proof (step_length res ch Hch).
  specialize (IH (step U res ch)). simpl length. lia.
Qed.

Lemma strip_trailing_length (res : str) :
  length (strip_trailing res) <= length res.
Proof.
  unfold strip_trailing. destruct (_ && _); [|lia]. rewrite length_take. lia.
Qed.

Lemma strip_trailing_snoc (res : str) (c : char) :
  strip_trailing (res ++ [c]) = if (c =? hyphen)%N then res else res ++ [c].
Proof.
  unfold strip_trailing. rewrite last_is_snoc, length_app. simpl length.
  replace (0 <? length res + 1) with true by (symmetry; apply Nat.ltb_lt; lia).
  simpl andb. destruct (c =? hyphen)%N; [|done].
  replace (length res + 1 - 1) with (length res) by lia.
  by rewrite take_app_length.
Qed.

(** X5.  For an ASCII string shorter than 63 characters, the result is at
    most as long as the value plus one character for each capital letter: only
    capitals make the result longer than the value. *)
Theorem dnsify_length_bound (value : str) :
  length value < 63 ->
  Forall (fun c => is_ascii c = true) value ->
  exists r,
    _dnsify U sha224_hexdigest value = Ok r
    /\ length r <= length value + capitals value.
Proof.
  intros Hlen Hascii. eexists. split; [by apply dnsify_short|].
  pose proof (strip_trailing_length (scan U [] value)).
  pose proof (scan_length value [] Hascii). simpl in *. lia.
Qed.

(** *** Values that give a valid label *)

Lemma scan_tidy (value : str) : forall res,
  forallb allowed_char value = true ->
  no_double_separator value = true ->
  last_is hyphen (strip_trailing res) = false ->
  (last_is hyphen res = true ->
   forall c, head value = Some c -> is_separator c = false) ->
  last_is hyphen (strip_trailing (scan U res value)) = false.
Proof.
  induction value as [|ch value IH]; intros res Hall Hnd Hq Hnext; [done|].
  simpl in Hall. apply andb_prop in Hall as [Hch Hall].
  change (no_double_separator (ch :: value))
    with (match value with
          | b :: _ => negb (is_separator ch && is_separator b)
          | [] => true
          end && no_double_separator value) in Hnd.
  apply andb_prop in Hnd as [Hadj Hnd].
  rewrite scan_cons.
  destruct (is_separator ch) eqn:Hsep.
  - assert (last_is hyphen res = false) as Hlast.
    { destruct (last_is hyphen res) eqn:Hl; [|done].
      specialize (Hnext eq_refl ch eq_refl). congruence. }
    rewrite (step_separator _ _ _ Hsep).
    destruct (nonempty res && _).
    + apply IH; try done.
      * by rewrite strip_trailing_snoc.
      * intros _ c Hc. destruct value as [|d value]; [done|].
        simpl in Hc. injection Hc as ->. simpl in Hadj.
        by apply negb_true_iff in Hadj.
    + apply IH; try done. intros Hl. congruence.
  - assert (is_ascii ch = true /\ ascii_alnum ch = true) as [Hascii Halnum].
    { unfold ascii_alnum. clear - Hch Hsep. unfold allowed_char in Hch.
      rewrite Hsep, orb_false_r in Hch. split; [num|].
      destruct (ascii_digit ch), (ascii_lower ch), (ascii_upper ch); done. }
    destruct (step_alnum_last res ch Hascii Hsep Halnum) as (r & c & -> & Hc).
    apply IH; try done.
    + by rewrite strip_trailing_snoc, Hc, last_is_snoc.
    + by rewrite last_is_snoc, Hc.
Qed.

(** X6.  The docstring's contract holds where the value gives the pass no
    reason to break it: a string of ASCII letters, digits and separators in
    which no two separators are adjacent, and whose length plus number of
    capitals is below 63, is turned into a valid DNS label. *)
Theorem dnsify_valid_label (value : str) :
  forallb allowed_char value = true ->
  no_double_separator value = true ->
  length value + capitals value < 63 ->
  exists r,
    _dnsify U sha224_hexdigest value = Ok r /\ valid_dns_label r = true.
Proof.
  intros Hall Hnd Hlen. eexists. split; [apply dnsify_short; lia|].
  pose proof (allowed_is_ascii _ Hall) as Hascii.
  destruct (scan_label U value [] Hascii) as [H1 H2]; [by constructor | done |].
  destruct (strip_trailing_label _ H1 H2) as [H3 H4].
  pose proof (strip_trailing_length (scan U [] value)) as Hl1.
  pose proof (scan_length value [] Hascii) as Hl2. simpl in Hl2.
  unfold valid_dns_label. rewrite !andb_true_iff. split_and!.
  - apply forallb_forall. intros c Hc.
    unfold label_chars in H3. rewrite Forall_forall in H3.
    apply H3. by apply list_elem_of_In.
  - apply Nat.leb_le. lia.
  - apply negb_true_iff. by apply bool_decide_eq_false.
  - apply negb_true_iff. by apply scan_tidy.
Qed.

(** *** Values that give the empty string *)

Lemma step_extends (res : str) (ch : char) :
  exists suf, step U res ch = res ++ suf.
Proof.
  unfold step.
  destruct (is_separator ch).
  { destruct (_ && _); [by eexists | exists []; by rewrite app_nil_r]. }
  destruct (negb _); [exists []; by rewrite app_nil_r|].
  destruct (_ || _); [by eexists|].
  destruct (_ && _); [|by eexists].
  eexists. by rewrite <- app_assoc.
Qed.

Lemma scan_extends (value res : str) :
  exists suf, scan U res value = res ++ suf.
Proof.
  revert res. induction value as [|ch value IH]; intros res.
  { exists []. simpl. by rewrite app_nil_r. }
  rewrite scan_cons. destruct (step_extends res ch) as [s1 ->].
  destruct (IH (res ++ s1)) as [s2 ->]. eexists. by rewrite <- app_assoc.
Qed.

Lemma scan_empty_inv (value : str) :
  Forall (fun c => is_ascii c = true) value ->
  scan U [] value = [] ->
  Forall (fun c => ascii_alnum c = false) value.
Proof.
  induction 1 as [|ch value Hch _ IH]; intros Hscan; [done|].
  rewrite scan_cons in Hscan.
  destruct (is_separator ch) eqn:Hsep.
  { rewrite (step_separator _ _ _ Hsep) in Hscan. simpl in Hscan.
    constructor; [|by apply IH]. unfold ascii_alnum. clear - Hsep. num.
    all: subst ch; reflexivity. }
  destruct (ascii_alnum ch) eqn:Halnum.
  - destruct (step_alnum_last [] ch Hch Hsep Halnum) as (r & c & Hstep & _).
    rewrite Hstep in Hscan.
    destruct (scan_extends value (r ++ [c])) as [suf Hsuf].
    rewrite Hsuf in Hscan. by destruct r.
  - constructor; [done|]. apply IH.
    replace (step U [] ch) with ([] : str) in Hscan; [done|].
    rewrite step_ascii by done. unfold ascii_alnum in Halnum.
    by destruct (ascii_digit ch), (ascii_lower ch), (ascii_upper ch).
Qed.

Lemma strip_trailing_empty_inv (res : str) :
  head res <> Some hyphen -> strip_trailing res = [] -> res = [].
Proof.
  destruct res as [|a [|b res]]; [done| |].
  - intros Hhead. unfold strip_trailing, last_is. simpl.
    destruct (N.eqb_spec a hyphen) as [->|]; done.
  - intros _. unfold strip_trailing. simpl. by destruct (last_is _ _).
Qed.

(** X7.  For an ASCII string shorter than 63 characters the result is the
    empty string exactly when the value has no letter and no digit. *)
Theorem dnsify_empty_result (value : str) :
  length value < 63 ->
  Forall (fun c => is_ascii c = true) value ->
  _dnsify U sha224_hexdigest value = Ok []
  <-> Forall (fun c => ascii_alnum c = false) value.
Proof.
  intros Hlen Hascii. rewrite dnsify_short by done. split.
  - intros [= Hstrip]. apply scan_empty_inv; [done|].
    apply strip_trailing_empty_inv; [|done].
    by destruct (scan_label U value [] Hascii) as [_ H2]; [by constructor | done |].
  - intros Hnone. rewrite scan_from_empty_prefix; [done|].
    clear Hlen. induction Hascii as [|c value Hc _ IH]; [done|].
    apply Forall_cons in Hnone as [Hn Hnone]. constructor; [|by apply IH].
    right. by rewrite isalnum_ascii.
Qed.

(** *** Exceptions *)

Lemma utf8_char_none (c : char) : utf8_char c = None <-> surrogate c = true.
Proof.
  unfold utf8_char, surrogate.
  destruct (N.ltb_spec c 0x80); [split; [done | intros; num]|].
  destruct (N.ltb_spec c 0x800); [split; [done | intros; num]|].
  destruct ((0xD800 <=? c)%N && (c <=? 0xDFFF)%N); [done|].
  by destruct (c <? 0x10000)%N.
Qed.

Lemma encode_utf8_raise (s : str) (e : exn) :
  encode_utf8 s = Raise e
  <-> e = UnicodeEncodeError /\ Exists (fun c => surrogate c = true) s.
Proof.
  induction s as [|c s IH]; simpl.
  { split; [done | intros [_ H]; by apply Exists_nil in H]. }
  destruct (utf8_char c) as [bs|] eqn:Hc.
  - assert (surrogate c = false) as Hs.
    { destruct (surrogate c) eqn:Hs; [|done].
      apply utf8_char_none in Hs. congruence. }
    destruct (encode_utf8 s) as [rest|e'].
    + split; [done|]. intros [He Hex].
      apply Exists_cons in Hex as [?|Hex]; [congruence|].
      assert (@Ok (list N) rest = Raise e) by (by apply IH). done.
    + rewrite Exists_cons. split.
      * intros Heq. apply IH in Heq as [-> Hex]. auto.
      * intros [-> [?|Hex]]; [congruence|]. by apply IH.
  - apply utf8_char_none in Hc. rewrite Exists_cons. split.
    + intros [= <-]. auto.
    + by intros [-> _].
Qed.

(** X8.  The only exception of the sanitizer is the encoding error of the
    hash step: it is raised exactly when the value has 63 characters or more
    and contains a surrogate code point, which UTF-8 cannot encode. *)
Theorem dnsify_raises_on_surrogates_only (value : str) (e : exn) :
  _dnsify U sha224_hexdigest value = Raise e
  <-> e = UnicodeEncodeError /\ 63 <= length value
      /\ Exists (fun c => surrogate c = true) value.
Proof.
  unfold _dnsify, MAX. destruct (Nat.leb_spec 63 (length value)) as [Hlen|Hlen].
  - unfold shorten. destruct (encode_utf8 value) as [bytes|e'] eqn:Henc.
    + split; [done|]. intros (He & _ & Hex).
      assert (encode_utf8 value = Raise e) as H by (by apply encode_utf8_raise).
      congruence.
    + split.
      * intros [= <-]. apply encode_utf8_raise in Henc as [-> Hex]. auto.
      * intros (-> & _ & Hex).
        assert (encode_utf8 value = Raise UnicodeEncodeError) as H
          by (by apply encode_utf8_raise).
        congruence.
  - split; [done|]. intros (_ & ? & _). lia.
Qed.

(** *** Long values *)

Lemma plain_label (l : str) :
  Forall (fun c => ascii_lower c || ascii_digit c = true) l ->
  forallb label_char l = true.
Proof.
  induction 1 as [|c l Hc _ IH]; [done|]. simpl. rewrite IH, andb_true_r.
  unfold label_char. by rewrite Hc.
Qed.

(** X9.  A value of 63 characters or more is replaced by the first ten
    characters of the digest of its UTF-8 encoding, a hyphen and its last 52
    characters; when these last characters are lowercase ASCII letters and
    digits (and the digest is hexadecimal text), this is the result, and it is
    a valid DNS label of exactly 63 characters. *)
Theorem dnsify_long_value (value : str) (bytes : list N) :
  63 <= length value ->
  encode_utf8 value = Ok bytes ->
  10 <= length (sha224_hexdigest bytes) ->
  Forall (fun c => hexdigit c = true) (take 10 (sha224_hexdigest bytes)) ->
  Forall (fun c => ascii_lower c || ascii_digit c = true)
    (drop (length value - 52) value) ->
  exists r,
    _dnsify U sha224_hexdigest value = Ok r
    /\ r = take 10 (sha224_hexdigest bytes) ++ [hyphen]
           ++ drop (length value - 52) value
    /\ length r = 63 /\ valid_dns_label r = true.
Proof.
  intros Hlen Henc Hdig Hhex Htail.
  assert (_dnsify U sha224_hexdigest value
          = Ok (strip_trailing
                  (scan U [] (take 10 (sha224_hexdigest bytes) ++ [hyphen]
                              ++ drop (length value - 52) value)))) as ->.
  { unfold _dnsify, MAX.
    destruct (Nat.leb_spec 63 (length value)) as [_|Hlt]; [|lia].
    unfold shorten. by rewrite Henc. }
  remember (take 10 (sha224_hexdigest bytes)) as h eqn:Eh.
  remember (drop (length value - 52) value) as tail eqn:Et.
  assert (length h = 10) as Hh by (subst h; rewrite length_take; lia).
  assert (length tail = 52) as Ht by (subst tail; rewrite length_drop; lia).
  clear Eh Et Henc Hdig Hlen.
  assert (Forall (fun c => ascii_lower c || ascii_digit c = true) h) as Hplain.
  { eapply Forall_impl; [exact Hhex|]. intros c Hc. simpl in Hc. clear - Hc.
    unfold hexdigit in Hc. apply orb_true_iff in Hc as [Hc|Hc].
    - by rewrite Hc, orb_true_r.
    - replace (ascii_lower c) with true; [done|]. symmetry. num. }
  assert (exists x tail', tail = tail' ++ [x] /\ (x =? hyphen)%N = false)
    as (x & tail' & Htl & Hx).
  { destruct tail as [|x tail' _] using rev_ind; [simpl in Ht; lia|].
    exists x, tail'. split; [done|].
    apply Forall_app in Htail as [_ Hxp]. apply Forall_inv in Hxp.
    clear - Hxp. num. }
  assert (exists a h', h = a :: h' /\ a <> hyphen) as (a & h' & Hhd & Ha).
  { destruct h as [|a h']; [simpl in Hh; lia|]. exists a, h'. split; [done|].
    apply Forall_inv in Hplain. intros ->. discriminate Hplain. }
  assert (scan U [] (h ++ [hyphen] ++ tail) = h ++ [hyphen] ++ tail) as ->.
  { rewrite scan_app, (scan_plain U h) by done. rewrite app_nil_l.
    change ([hyphen] ++ tail) with (hyphen :: tail).
    rewrite scan_cons, (step_separator U _ hyphen eq_refl).
    replace (nonempty h && (length h <? 62)) with true
      by (rewrite Hh, Hhd; reflexivity).
    rewrite scan_plain by done. by rewrite <- app_assoc. }
  assert (strip_trailing (h ++ [hyphen] ++ tail) = h ++ [hyphen] ++ tail) as ->.
  { rewrite Htl, !app_assoc, strip_trailing_snoc. by rewrite Hx. }
  eexists. split_and!; [done | done | |].
  - rewrite !length_app, Hh, Ht. reflexivity.
  - unfold valid_dns_label. rewrite !andb_true_iff. split_and!.
    + rewrite !forallb_app, (plain_label h), (plain_label tail) by done.
      reflexivity.
    + rewrite !length_app, Hh, Ht. reflexivity.
    + rewrite Hhd. apply negb_true_iff, bool_decide_eq_false. simpl. congruence.
    + rewrite Htl, !app_assoc, last_is_snoc. by rewrite Hx.
Qed.

End More.

Lemma dnsify_ascii_alphabet_witness :
  forallb label_char (of_string "my-task-name") = true
  /\ forall U sha,
       _dnsify U sha (of_string "$My_Task.Name!") = Ok (of_string "my-task-name").
Proof.
  split; [reflexivity|]. intros U sha.
  destruct (dnsify_ascii_alphabet U sha (of_string "$My_Task.Name!"))
    as (r & Hr & _ & _); [vm_compute; lia | by repeat constructor |].
  rewrite Hr. f_equal. vm_compute in Hr. by injection Hr as <-.
Defined.

Lemma valid_label_unchanged_witness :
  valid_dns_label (of_string "my-task-name") = true
  /\ forall U sha,
       _dnsify U sha (of_string "my-task-name") = Ok (of_string "my-task-name").
Proof.
  split; [reflexivity|]. intros U sha.
  apply (valid_label_unchanged U sha); [reflexivity | vm_compute; lia].
Defined.

Lemma dnsify_skips_other_characters_witness :
  length (of_string "my task (v2)!") < 63
  /\ forall U sha,
       _dnsify U sha (of_string "my task (v2)!") = _dnsify U sha (of_string "mytaskv2").
Proof.
  assert (Hlen : length (of_string "my task (v2)!") < 63) by (vm_compute; lia).
  split; [exact Hlen|]. intros U sha.
  by rewrite <- (dnsify_skips_other_characters U sha _ Hlen).
Defined.

Lemma dnsify_ignores_leading_separators_witness :
  length (of_string "__ .private_name") < 63
  /\ forall U sha,
       _dnsify U sha (of_string "__ .private_name")
       = _dnsify U sha (of_string "private_name").
Proof.
  split; [vm_compute; lia|]. intros U sha.
  apply (dnsify_ignores_leading_separators U sha (of_string "__ .") (of_string "private_name"));
    [|vm_compute; lia].
  repeat constructor; by right.
Defined.

Lemma dnsify_length_bound_witness :
  capitals (of_string "MyTaskName") = 3
  /\ forall U sha, exists r,
       _dnsify U sha (of_string "MyTaskName") = Ok r /\ length r <= 10 + 3.
Proof.
  split; [reflexivity|]. intros U sha.
  apply (dnsify_length_bound U sha (of_string "MyTaskName"));
    [vm_compute; lia | by repeat constructor].
Defined.

Lemma dnsify_valid_label_witness :
  no_double_separator (of_string "My_Task.Name-v2") = true
  /\ forall U sha, exists r,
       _dnsify U sha (of_string "My_Task.Name-v2") = Ok r /\ valid_dns_label r = true.
Proof.
  split; [reflexivity|]. intros U sha.
  apply (dnsify_valid_label U sha (of_string "My_Task.Name-v2"));
    [reflexivity | reflexivity | vm_compute; lia].
Defined.

Lemma dnsify_empty_result_witness :
  Forall (fun c => ascii_alnum c = false) (of_string "_-. !")
  /\ forall U sha, _dnsify U sha (of_string "_-. !") = Ok [].
Proof.
  assert (H : Forall (fun c => ascii_alnum c = false) (of_string "_-. !"))
    by (by repeat constructor).
  split; [exact H|]. intros U sha.
  apply (dnsify_empty_result U sha (of_string "_-. !"));
    [vm_compute; lia | by repeat constructor | exact H].
Defined.

Lemma dnsify_long_value_witness :
  exists r,
    _dnsify ascii_only zero_digest (repeat 97%N 70) = Ok r
    /\ r = repeat 48%N 10 ++ [hyphen] ++ repeat 97%N 52
    /\ length r = 63 /\ valid_dns_label r = true.
Proof.
  apply (dnsify_long_value ascii_only zero_digest (repeat 97%N 70) (repeat 97%N 70));
    [vm_compute; lia | reflexivity | vm_compute; lia
    | by repeat constructor | by repeat constructor].
Defined.

End DnsMore.

(** ** More on the container descriptor builder and the resource names *)

Module ContainerDefMore.
Import pydict ContainerDef ContainerWords PodSpec.

Lemma check_singular_ok (r r' : resources.Resources) :
  resources._check_resource_is_singular r = Ok r' ->
  r' = r
  /\ forall n qs, dimension n r <> Some (resources.Several qs).
Proof.
  unfold resources._check_resource_is_singular.
  destruct (_ || _) eqn:Hany; [done|]. intros [= <-]. split; [done|].
  intros n qs Hn.
  repeat (apply orb_false_iff in Hany as [Hany ?]).
  destruct n; simpl in Hn; try done; rewrite Hn in *; done.
Qed.

Lemma elem_of_append_if (entries : list task_models.ResourceEntry)
    (n : task_models.ResourceName) (v : option resources.quantity)
    (e : task_models.ResourceEntry) :
  e ∈ append_if entries n v
  <-> e ∈ entries
      \/ exists q, v = Some q /\ resources.truthy q = true
                   /\ e = task_models.Build_ResourceEntry n q.
Proof.
  unfold append_if. destruct v as [q|]; [destruct (resources.truthy q) eqn:Hq|].
  - rewrite elem_of_app, list_elem_of_singleton. split.
    + intros [H| ->]; [by left | right; by exists q].
    + intros [H|(q' & [= <-] & _ & ->)]; [by left | by right].
  - split; [by left|]. intros [H|(q' & [= <-] & Ht & _)]; [done | congruence].
  - split; [by left|]. intros [H|(q' & Hq' & _)]; done.
Qed.

Lemma names_append_if (entries : list task_models.ResourceEntry)
    (n : task_models.ResourceName) (v : option resources.quantity) :
  exists tail,
    map task_models.name (append_if entries n v) = map task_models.name entries ++ tail
    /\ (tail = [] \/ tail = [n]).
Proof.
  unfold append_if. destruct v as [q|]; [destruct (resources.truthy q)|].
  - exists [n]. rewrite map_app. auto.
  - exists []. rewrite app_nil_r. auto.
  - exists []. rewrite app_nil_r. auto.
Qed.

(** What the four tests of the builder make of one side of a specification. *)
Lemma built_entries (r : resources.Resources) :
  let entries :=
    append_if
      (append_if
         (append_if
            (append_if [] task_models.EPHEMERAL_STORAGE (resources.ephemeral_storage r))
            task_models.CPU (resources.cpu r))
         task_models.GPU (resources.gpu r))
      task_models.MEMORY (resources.mem r) in
  (forall n q,
     task_models.Build_ResourceEntry n q ∈ entries
     <-> dimension n r = Some q /\ resources.truthy q = true)
  /\ map task_models.name entries `sublist_of` kinds.
Proof.
  intros entries. split.
  - intros n q. unfold entries. rewrite !elem_of_append_if, elem_of_nil.
    split.
    + intros [[[[[]|H]|H]|H]|H]; destruct H as (q0 & Hd & Ht & [= -> ->]); done.
    + intros [Hd Ht].
      destruct n; simpl in Hd; try discriminate Hd;
        [do 2 left; right | left; right | right | do 3 left; right]; by exists q.
  - unfold entries.
    destruct (names_append_if
                (append_if
                   (append_if
                      (append_if [] task_models.EPHEMERAL_STORAGE
                         (resources.ephemeral_storage r))
                      task_models.CPU (resources.cpu r))
                   task_models.GPU (resources.gpu r))
                task_models.MEMORY (resources.mem r)) as (t4 & -> & H4).
    destruct (names_append_if
                (append_if
                   (append_if [] task_models.EPHEMERAL_STORAGE
                      (resources.ephemeral_storage r))
                   task_models.CPU (resources.cpu r))
                task_models.GPU (resources.gpu r)) as (t3 & -> & H3).
    destruct (names_append_if
                (append_if [] task_models.EPHEMERAL_STORAGE
                   (resources.ephemeral_storage r))
                task_models.CPU (resources.cpu r)) as (t2 & -> & H2).
    destruct (names_append_if [] task_models.EPHEMERAL_STORAGE
                (resources.ephemeral_storage r)) as (t1 & -> & H1).
    unfold kinds.
    destruct H1 as [-> | ->], H2 as [-> | ->], H3 as [-> | ->], H4 as [-> | ->];
      simpl;
      repeat first [apply sublist_nil_l | apply sublist_skip | apply sublist_cons].
Qed.

Lemma definition_resources
    (image : string) (resource_spec : resources.ResourceSpec)
    (command : list string) (args : option (list string))
    (data_loading_config : option task_models.DataLoadingConfig)
    (environment : option (dict string)) (container : task_models.Container) :
  _get_container_definition image resource_spec command args data_loading_config
    environment = Ok container ->
  let side (r : resources.Resources) (entries : list task_models.ResourceEntry) :=
    (forall n q,
       task_models.Build_ResourceEntry n q ∈ entries
       <-> dimension n r = Some q /\ resources.truthy q = true)
    /\ map task_models.name entries `sublist_of` kinds
    /\ forall n qs, dimension n r <> Some (resources.Several qs) in
  side (resources.limits resource_spec)
    (task_models.limits (task_models.resources container))
  /\ side (resources.requests resource_spec)
       (task_models.requests (task_models.resources container)).
Proof.
  intros H side. unfold _get_container_definition in H.
  destruct (resources._check_resource_is_singular (resources.limits resource_spec))
    as [limits|] eqn:Hl; [|done].
  destruct (resources._check_resource_is_singular (resources.requests resource_spec))
    as [requests|] eqn:Hr; [|done].
  apply check_singular_ok in Hl as [-> Hl]. apply check_singular_ok in Hr as [-> Hr].
  simpl in H. injection H as <-. simpl.
  destruct (built_entries (resources.limits resource_spec)) as [L1 L2].
  destruct (built_entries (resources.requests resource_spec)) as [R1 R2].
  by split.
Qed.

(** X10.  The limits of a built descriptor are exactly the dimensions of the
    specification's limits that hold a non-empty value, each under its own
    resource kind, and likewise for the requests: nothing is invented and only
    what is unset or empty is left out. *)
Theorem definition_entries_are_the_given_dimensions
    (image : string) (resource_spec : resources.ResourceSpec)
    (command : list string) (args : option (list string))
    (data_loading_config : option task_models.DataLoadingConfig)
    (environment : option (dict string)) (container : task_models.Container) :
  _get_container_definition image resource_spec command args data_loading_config
    environment = Ok container ->
  forall n q,
    (task_models.Build_ResourceEntry n q
       ∈ task_models.limits (task_models.resources container)
     <-> dimension n (resources.limits resource_spec) = Some q
         /\ resources.truthy q = true)
    /\ (task_models.Build_ResourceEntry n q
          ∈ task_models.requests (task_models.resources container)
        <-> dimension n (resources.requests resource_spec) = Some q
            /\ resources.truthy q = true).
Proof.
  intros H n q. apply definition_resources in H as [(L & _) (R & _)].
  split; [apply L | apply R].
Qed.

Lemma entries_single (r : resources.Resources)
    (entries : list task_models.ResourceEntry) :
  (forall n q,
     task_models.Build_ResourceEntry n q ∈ entries
     <-> dimension n r = Some q /\ resources.truthy q = true) ->
  (forall n qs, dimension n r <> Some (resources.Several qs)) ->
  Forall (fun e => exists s, task_models.value e = resources.Single s
                             /\ s <> EmptyString) entries.
Proof.
  intros Hin Hsingle. apply Forall_forall. intros [n q] He.
  apply Hin in He as [Hn Hq]. destruct q as [s|qs]; [|by destruct (Hsingle n qs)].
  exists s. split; [done|]. intros ->. done.
Qed.

(** X11.  In a built descriptor the limits and the requests list each
    resource kind at most once, in the order ephemeral storage, CPU, GPU,
    memory, and every entry holds one non-empty quantity, never a sequence. *)
Theorem definition_entries_are_ordered_and_single
    (image : string) (resource_spec : resources.ResourceSpec)
    (command : list string) (args : option (list string))
    (data_loading_config : option task_models.DataLoadingConfig)
    (environment : option (dict string)) (container : task_models.Container) :
  _get_container_definition image resource_spec command args data_loading_config
    environment = Ok container ->
  let ordered_and_single (entries : list task_models.ResourceEntry) :=
    map task_models.name entries `sublist_of` kinds
    /\ Forall (fun e => exists s, task_models.value e = resources.Single s
                                  /\ s <> EmptyString) entries in
  ordered_and_single (task_models.limits (task_models.resources container))
  /\ ordered_and_single (task_models.requests (task_models.resources container)).
Proof.
  intros H. apply definition_resources in H as [(L1 & L2 & L3) (R1 & R2 & R3)].
  split; (split; [done|]); by eapply entries_single.
Qed.

(** *** The keys of the resource mappings *)

(** X12.  Two entries get the same key in a resource mapping exactly when
    they are of the same resource kind: lowering the name of the kind and
    replacing its underscores does not make two kinds collide. *)
Theorem sanitize_resource_name_injective (a b : task_models.ResourceEntry) :
  _sanitize_resource_name a = _sanitize_resource_name b
  <-> task_models.name a = task_models.name b.
Proof.
  destruct a as [na va], b as [nb vb]. unfold _sanitize_resource_name. simpl.
  destruct na, nb; split; intros H; (reflexivity || discriminate H).
Qed.

Lemma setitem_fresh {V : Type} (d : dict V) (k : string) (v : V) :
  k ∉ map fst d -> setitem d k v = d ++ [(k, v)].
Proof.
  induction d as [|[k' v'] d IH]; intros Hk; [done|]. simpl in *.
  apply not_elem_of_cons in Hk as [Hne Hk].
  destruct (String.eqb_spec k' k) as [->|_]; [done|]. by rewrite IH.
Qed.

Lemma fold_setitem_fresh (entries : list task_models.ResourceEntry) :
  forall d : dict resources.quantity,
    NoDup (map fst d ++ map _sanitize_resource_name entries) ->
    fold_left
      (fun d resource =>
         setitem d (_sanitize_resource_name resource) (task_models.value resource))
      entries d
    = d ++ map (fun e => (_sanitize_resource_name e, task_models.value e)) entries.
Proof.
  induction entries as [|e entries IH]; intros d Hnd; simpl.
  { by rewrite app_nil_r. }
  simpl in Hnd. apply NoDup_app in Hnd as Hparts. destruct Hparts as (Hd & Hfresh & He).
  rewrite setitem_fresh.
  - rewrite IH; [by rewrite <- app_assoc|].
    rewrite map_app. simpl. rewrite <- app_assoc. done.
  - intros Hin. apply (Hfresh _ Hin). by left.
Qed.

Lemma sanitized_names_distinct (entries : list task_models.ResourceEntry) :
  map task_models.name entries `sublist_of` kinds ->
  NoDup (map _sanitize_resource_name entries).
Proof.
  intros Hsub.
  assert (map _sanitize_resource_name entries
          = map (fun n => replace "_" "-" (lower (Name n)))
              (map task_models.name entries)) as ->.
  { rewrite map_map. reflexivity. }
  eapply sublist_NoDup;
    [|exact (fmap_sublist (fun n => replace "_" "-" (lower (Name n))) _ _ Hsub)].
  unfold kinds. simpl.
  repeat (apply NoDup_cons; split; [rewrite ?elem_of_cons, elem_of_nil; intros H;
                                    repeat destruct H as [H|H]; discriminate H || done|]).
  apply NoDup_nil_2.
Qed.

(** X13.  The resource mappings that the pod-spec serializer builds from a
    descriptor made by the builder lose nothing: each entry of the limits, and
    of the requests, gets a key of its own, in the order of the entries, so no
    assignment overwrites an earlier one. *)
Theorem built_resources_keep_every_entry
    (image : string) (resource_spec : resources.ResourceSpec)
    (command : list string) (args : option (list string))
    (data_loading_config : option task_models.DataLoadingConfig)
    (environment : option (dict string)) (container : task_models.Container) :
  _get_container_definition image resource_spec command args data_loading_config
    environment = Ok container ->
  resource_dict (task_models.limits (task_models.resources container))
  = map (fun e => (_sanitize_resource_name e, task_models.value e))
      (task_models.limits (task_models.resources container))
  /\ resource_dict (task_models.requests (task_models.resources container))
     = map (fun e => (_sanitize_resource_name e, task_models.value e))
         (task_models.requests (task_models.resources container)).
Proof.
  intros H. apply definition_resources in H as [(_ & L & _) (_ & R & _)].
  unfold resource_dict.
  split; rewrite fold_setitem_fresh; simpl; try done; by apply sanitized_names_distinct.
Qed.

Lemma definition_entries_are_the_given_dimensions_witness :
  exists container,
    _get_container_definition "img" sample_spec ["run"] None None None = Ok container
    /\ task_models.Build_ResourceEntry task_models.CPU (resources.Single "500m")
         ∈ task_models.requests (task_models.resources container)
    /\ forall q, task_models.Build_ResourceEntry task_models.GPU q
                   ∉ task_models.requests (task_models.resources container).
Proof.
  eexists. split; [reflexivity|].
  pose proof (definition_entries_are_the_given_dimensions
                "img" sample_spec ["run"] None None None _ eq_refl) as H.
  split.
  - by apply (H task_models.CPU (resources.Single "500m")).
  - intros q Hq. apply (H task_models.GPU q) in Hq as [Hd Ht].
    injection Hd as <-. discriminate Ht.
Defined.

Lemma definition_entries_are_ordered_and_single_witness :
  exists container,
    _get_container_definition "img" sample_spec ["run"] None None None = Ok container
    /\ map task_models.name (task_models.limits (task_models.resources container))
       = [task_models.CPU; task_models.MEMORY]
    /\ map task_models.name (task_models.limits (task_models.resources container))
         `sublist_of` kinds.
Proof.
  eexists. split; [reflexivity|]. split; [reflexivity|].
  by destruct (definition_entries_are_ordered_and_single
                 "img" sample_spec ["run"] None None None _ eq_refl) as [[H _] _].
Defined.

Lemma built_resources_keep_every_entry_witness :
  exists container,
    _get_container_definition "img" sample_spec ["run"] None None None = Ok container
    /\ resource_dict (task_models.limits (task_models.resources container))
       = [("cpu", resources.Single "1"); ("memory", resources.Single "2Gi")].
Proof.
  eexists. split; [reflexivity|].
  by destruct (built_resources_keep_every_entry
                 "img" sample_spec ["run"] None None None _ eq_refl) as [-> _].
Defined.

End ContainerDefMore.

(** ** More on the pod-spec serializer *)

Module PodSpecMore.
Import pydict k8s store PodSpec PodSpecWords PodSpecFacts.

Lemma sanitize_container_name (c : V1Container.t) :
  exists d, sanitize_container c = JDict d
            /\ get d "name" = Some (JStr (V1Container.name c)).
Proof.
  unfold sanitize_container. eexists. split; [reflexivity|].
  destruct (V1Container.args c), (V1Container.command c), (V1Container.env c),
    (V1Container.image c); reflexivity.
Qed.

Lemma declares_true (h : heap) (items : list loc) (name : string) :
  declares h items name = true
  <-> exists x c, x ∈ items /\ h !! x = Some (OContainer c)
                  /\ V1Container.name c = name.
Proof.
  unfold declares. rewrite existsb_exists. split.
  - intros (x & Hin & Hx). apply list_elem_of_In in Hin.
    destruct (h !! x) as [[c| | |]|] eqn:Hc; try done.
    apply String.eqb_eq in Hx. by exists x, c.
  - intros (x & c & Hin & Hc & Hn). exists x. split; [by apply list_elem_of_In|].
    rewrite Hc. by apply String.eqb_eq.
Qed.

Section SerializerMore.
Variables SerializationSettings ImageConfig : Type.
Variable image_config : SerializationSettings -> ImageConfig.
Variable get_registerable_container_image : option string -> ImageConfig -> result string.

Lemma merged_image (name : string) (primary_container : task_models.Container)
    (settings : SerializationSettings) (c c' : V1Container.t) :
  merged image_config get_registerable_container_image name primary_container
    settings c = Ok c' ->
  is_Some (V1Container.image c').
Proof.
  unfold merged. destruct (String.eqb _ _).
  - destruct (match V1Container.image c with Some _ => _ | None => _ end)
      as [image|]; simpl; [|done].
    intros [= <-].
    destruct (_ || _), (task_models.env primary_container); by eexists.
  - destruct (get_registerable_container_image _ _); simpl; [|done].
    intros [= <-]. by eexists.
Qed.

Lemma merged_raise (name : string) (primary_container : task_models.Container)
    (settings : SerializationSettings) (c : V1Container.t) (e : exn) :
  merged image_config get_registerable_container_image name primary_container
    settings c = Raise e ->
  exists img, get_registerable_container_image img (image_config settings) = Raise e.
Proof.
  unfold merged. destruct (String.eqb _ _).
  - destruct (V1Container.image c) as [img|]; simpl; [|done].
    destruct (get_registerable_container_image _ _) eqn:Hr; simpl; [done|].
    intros [= <-]. by eexists.
  - destruct (get_registerable_container_image _ _) eqn:Hr; simpl; [done|].
    intros [= <-]. by eexists.
Qed.

(** Through the second loop every container stays a container; what the
    merge keeps ([R]) is kept at every location, and what the merge
    establishes ([Q]) holds of every container of the list. *)
Lemma loop_every (R : V1Container.t -> V1Container.t -> Prop)
    (Q : V1Container.t -> Prop)
    (name : string) (primary_container : task_models.Container)
    (settings : SerializationSettings) (final : loc) (items : list loc) :
  (forall c, R c c) ->
  (forall a b c, R a b -> R b c -> R a c) ->
  (forall c c',
     merged image_config get_registerable_container_image name primary_container
       settings c = Ok c' -> R c c' /\ Q c') ->
  forall (h h' : heap) (init : list loc) (u : unit),
    for_each items
      (fun x =>
         let* _ := merge image_config get_registerable_container_image name
                     primary_container settings x in
         list_append final x) h = (h', Ok u) ->
    h !! final = Some (OList init) ->
    forall x c, h !! x = Some (OContainer c) ->
      exists c', h' !! x = Some (OContainer c') /\ R c c' /\ (x ∈ items -> Q c').
Proof.
  intros Hrefl Htrans Hmerge.
  induction items as [|y items IH]; intros h h' init u Hrun Hfinal x c Hx;
    simpl in Hrun.
  { injection Hrun as <-. exists c. split_and!; [done | done |].
    intros Hin. by apply elem_of_nil in Hin. }
  apply bind_ok in Hrun as (h1 & [] & Hturn & Hrest).
  apply turn_ok in Hturn as (c0 & c0' & items0 & Hy & Hmerged & Hfinal0 & Hne & ->).
  rewrite Hfinal in Hfinal0. injection Hfinal0 as <-.
  assert (final < length h) as Hlen by (by eapply lookup_lt_Some).
  assert (y < length h) as Hleny by (by eapply lookup_lt_Some).
  destruct (Hmerge _ _ Hmerged) as [HR HQ].
  assert ((<[final := OList (init ++ [y])]> (<[y := OContainer c0']> h)) !! final
          = Some (OList (init ++ [y]))) as Hfinal1.
  { apply list_lookup_insert_eq. by rewrite length_insert. }
  assert (x <> final) as Hxf by (intros ->; congruence).
  destruct (decide (x = y)) as [->|Hxy].
  - rewrite Hy in Hx. injection Hx as <-.
    destruct (IH _ _ _ _ Hrest Hfinal1 y c0') as (c' & Hc' & HR' & HQ').
    { rewrite list_lookup_insert_ne by done. by apply list_lookup_insert_eq. }
    exists c'. split_and!; [done | by eapply Htrans |].
    intros _. destruct (decide (y ∈ items)) as [Hin|Hout]; [by apply HQ'|].
    destruct (loop_ok _ _ _ _ _ _ _ _ _ _ _ _ _ Hrest Hfinal1) as (_ & Hframe & _).
    rewrite (Hframe y (OContainer c0') Hout Hne) in Hc'.
    + by injection Hc' as <-.
    + rewrite list_lookup_insert_ne by done. by apply list_lookup_insert_eq.
  - destruct (IH _ _ _ _ Hrest Hfinal1 x c) as (c' & Hc' & HR' & HQ').
    { by rewrite !list_lookup_insert_ne. }
    exists c'. split_and!; [done | done |].
    intros Hin. apply elem_of_cons in Hin as [?|Hin]; [done | by apply HQ'].
Qed.

(** *** What a call that returns shows *)

Section Returned.
Variables (h h' : heap) (pod_template ps : loc) (t : PodTemplate) (s : V1PodSpec)
  (items : list loc) (primary_container : task_models.Container)
  (settings : SerializationSettings) (out : json).
Hypothesis Ht : h !! pod_template = Some (OPodTemplate t).
Hypothesis Hps : pod_spec t = Some ps.
Hypothesis Hs : h !! ps = Some (OPodSpec s).
Hypothesis Hl : h !! containers s = Some (OList items).
Hypothesis Hitems : Forall (is_container h) items.
Hypothesis Hrun :
  _serialize_pod_spec image_config get_registerable_container_image
    pod_template primary_container settings h = (h', Ok out).

(** The containers of the result, in the order of the template: each comes
    from its container by merge steps that keep [R] and establish [Q]. *)
Lemma returned_containers (R : V1Container.t -> V1Container.t -> Prop)
    (Q : V1Container.t -> Prop) :
  (forall c, R c c) ->
  (forall a b c, R a b -> R b c -> R a c) ->
  (forall c c',
     merged image_config get_registerable_container_image
       (primary_container_name t) primary_container settings c = Ok c' ->
     R c c' /\ Q c') ->
  exists cs,
    out = JDict (("containers", JList (map sanitize_container cs)) :: spec_other s)
    /\ length cs
       = length items
         + (if declares h items (primary_container_name t) then 0 else 1)
    /\ Forall Q cs
    /\ forall i x c,
         items !! i = Some x -> h !! x = Some (OContainer c) ->
         exists c', cs !! i = Some c' /\ R c c'.
Proof using Ht Hps Hs Hl Hitems Hrun.
  intros Hrefl Htrans Hmerge.
  destruct (serialize_ok _ _ _ _ _ _ _ _ _ _ _ _ _ _ Ht Hps Hs Hl Hitems Hrun)
    as (h3 & h4 & final & items' & extra & cs
        & Hcopies & Hshare & Hextra & Hfinal & Hloop & Hcs & ->).
  pose proof (loop_every R Q _ _ _ _ _ Hrefl Htrans Hmerge _ _ _ _ Hloop Hfinal)
    as Hevery.
  exists cs. split_and!; [done | | |].
  - rewrite <- (Forall2_length _ _ _ Hcs), length_app, (Forall2_length _ _ _ Hcopies).
    f_equal. destruct Hextra as [[(y & c & Hy & Hc & Hn) ->]|[Hnone (p & -> & _)]].
    + replace (declares h items (primary_container_name t)) with true; [done|].
      symmetry. apply declares_true.
      apply list_elem_of_lookup in Hy as [j Hj].
      destruct (Forall2_lookup_r _ _ _ _ _ Hcopies Hj) as (x & Hx & c0 & Hx0 & Hy3).
      rewrite Hc in Hy3. injection Hy3 as <-.
      exists x, c. split_and!; [|done|done]. apply list_elem_of_lookup. by exists j.
    + destruct (declares h items (primary_container_name t)) eqn:Hd; [|done].
      apply declares_true in Hd as (x & c & Hx & Hc & Hn).
      apply list_elem_of_lookup in Hx as [j Hj].
      destruct (Forall2_lookup_l _ _ _ _ _ Hcopies Hj) as (y & Hy & c0 & Hx0 & Hy3).
      rewrite Hc in Hx0. injection Hx0 as <-.
      rewrite Forall_forall in Hnone. destruct (Hnone y) with c; [|done|done].
      apply list_elem_of_lookup. by exists j.
  - apply Forall_forall. intros c' Hc'. apply list_elem_of_lookup in Hc' as [i Hi].
    destruct (Forall2_lookup_r _ _ _ _ _ Hcs Hi) as (y & Hy & Hy4).
    assert (exists c, h3 !! y = Some (OContainer c)) as [c Hc].
    { apply lookup_app_Some in Hy as [Hy|[_ Hy]].
      - destruct (Forall2_lookup_r _ _ _ _ _ Hcopies Hy) as (x & _ & c & _ & Hc).
        by exists c.
      - destruct Hextra as [[_ ->]|[_ (p & -> & _ & Hp)]]; [done|].
        apply list_lookup_singleton_Some in Hy as [_ <-]. by eexists. }
    destruct (Hevery y c Hc) as (c'' & Hc'' & _ & HQ).
    rewrite Hy4 in Hc''. injection Hc'' as <-.
    apply HQ. apply list_elem_of_lookup. by exists i.
  - intros i x c Hi Hx.
    destruct (Forall2_lookup_l _ _ _ _ _ Hcopies Hi) as (y & Hy & c0 & Hx0 & Hy3).
    rewrite Hx in Hx0. injection Hx0 as <-.
    destruct (Hevery y c Hy3) as (c' & Hc' & HR & _).
    destruct (Forall2_lookup_l _ _ _ _ _ Hcs (lookup_app_l_Some _ _ _ _ Hy))
      as (c'' & Hci & Hy4).
    rewrite Hc' in Hy4. injection Hy4 as <-. by exists c'.
Qed.

(** A container that is listed once is merged once. *)
Lemma listed_once_is_merged (i : nat) (x : loc) (c : V1Container.t) :
  items !! i = Some x ->
  (forall j, items !! j = Some x -> j = i) ->
  h !! x = Some (OContainer c) ->
  exists c' cs,
    merged image_config get_registerable_container_image
      (primary_container_name t) primary_container settings c = Ok c'
    /\ out = JDict (("containers", JList (map sanitize_container cs)) :: spec_other s)
    /\ cs !! i = Some c'.
Proof using Ht Hps Hs Hl Hitems Hrun.
  intros Hi Honce Hx.
  destruct (serialize_ok _ _ _ _ _ _ _ _ _ _ _ _ _ _ Ht Hps Hs Hl Hitems Hrun)
    as (h3 & h4 & final & items' & extra & cs
        & Hcopies & Hshare & Hextra & Hfinal & Hloop & Hcs & ->).
  destruct (Forall2_lookup_l _ _ _ _ _ Hcopies Hi) as (y & Hy & c0 & Hx0 & Hy3).
  rewrite Hx in Hx0. injection Hx0 as <-.
  destruct (loop_ok _ _ _ _ _ _ _ _ _ _ _ _ _ Hloop Hfinal) as (_ & _ & Hturn).
  destruct (Hturn y c i) as (c' & Hmerged & Hy4);
    [by apply lookup_app_l_Some | | done |].
  { intros j Hj. apply lookup_app_Some in Hj as [Hj|[Hlen Hj]].
    - apply Honce. by rewrite <- (Hshare i j y Hy Hj).
    - destruct Hextra as [[_ ->]|[_ (p & -> & Hp & _)]]; [done|].
      apply list_lookup_singleton_Some in Hj as [_ <-]. destruct Hp.
      apply list_elem_of_lookup. by exists i. }
  destruct (Forall2_lookup_l _ _ _ _ _ Hcs (lookup_app_l_Some _ _ _ _ Hy))
    as (c'' & Hci & Hy4').
  rewrite Hy4 in Hy4'. injection Hy4' as <-.
  by exists c', cs.
Qed.

End Returned.

(** X14.  The containers of the result carry the names of the template's
    containers, in the same order, also when a container object is listed more
    than once: the [i]-th container of the result has the name of the [i]-th
    container of the template. *)
Theorem serialized_names_follow_the_template (h h' : heap) (pod_template ps : loc)
    (t : PodTemplate) (s : V1PodSpec) (items : list loc)
    (primary_container : task_models.Container) (settings : SerializationSettings)
    (out : json) (i : nat) (x : loc) (c : V1Container.t) :
  h !! pod_template = Some (OPodTemplate t) ->
  pod_spec t = Some ps ->
  h !! ps = Some (OPodSpec s) ->
  h !! containers s = Some (OList items) ->
  Forall (is_container h) items ->
  _serialize_pod_spec image_config get_registerable_container_image
    pod_template primary_container settings h = (h', Ok out) ->
  items !! i = Some x ->
  h !! x = Some (OContainer c) ->
  container_attr out i "name" = Some (JStr (V1Container.name c)).
Proof.
  intros Ht Hps Hs Hl Hitems Hrun Hi Hx.
  destruct (returned_containers _ _ _ _ _ _ _ _ _ _ Ht Hps Hs Hl Hitems Hrun
              (fun a b => V1Container.name b = V1Container.name a) (fun _ => True))
    as (cs & -> & _ & _ & Hat).
  - done.
  - intros a b d Hab Hbd. congruence.
  - intros a b Hm. split; [|done]. by eapply merged_name.
  - destruct (Hat i x c Hi Hx) as (c' & Hci & Hn).
    unfold container_attr. simpl get. cbv beta iota.
    assert (map sanitize_container cs !! i = Some (sanitize_container c')) as ->.
    { change (map sanitize_container cs) with (sanitize_container <$> cs).
      by rewrite list_lookup_fmap, Hci. }
    destruct (sanitize_container_name c') as (d & -> & Hd). by rewrite Hd, Hn.
Qed.

(** X15.  Every container of the result has an image, whether the template
    declares one for it or not. *)
Theorem every_serialized_container_has_an_image (h h' : heap)
    (pod_template ps : loc) (t : PodTemplate) (s : V1PodSpec) (items : list loc)
    (primary_container : task_models.Container) (settings : SerializationSettings)
    (out : json) :
  h !! pod_template = Some (OPodTemplate t) ->
  pod_spec t = Some ps ->
  h !! ps = Some (OPodSpec s) ->
  h !! containers s = Some (OList items) ->
  Forall (is_container h) items ->
  _serialize_pod_spec image_config get_registerable_container_image
    pod_template primary_container settings h = (h', Ok out) ->
  exists l,
    serialized_containers out = Some l
    /\ Forall (fun j => exists d image, j = JDict d
                                        /\ get d "image" = Some (JStr image)) l.
Proof.
  intros Ht Hps Hs Hl Hitems Hrun.
  destruct (returned_containers _ _ _ _ _ _ _ _ _ _ Ht Hps Hs Hl Hitems Hrun
              (fun _ _ => True) (fun c => is_Some (V1Container.image c)))
    as (cs & -> & _ & Himages & _); [done | done | |].
  { intros a b Hm. split; [done|]. by eapply merged_image. }
  eexists. split; [reflexivity|].
  apply Forall_forall. intros j Hj.
  apply list_elem_of_In, in_map_iff in Hj as (c & <- & Hc).
  apply list_elem_of_In in Hc. rewrite Forall_forall in Himages.
  destruct (Himages c Hc) as [image Himage].
  destruct (sanitize_container_shows c image Himage) as (d & Hd & _ & Hi).
  by exists d, image.
Qed.

(** X16.  The result has as many containers as the template when one of them
    is named as the primary container, and one more when none is. *)
Theorem serialized_container_count (h h' : heap)
    (pod_template ps : loc) (t : PodTemplate) (s : V1PodSpec) (items : list loc)
    (primary_container : task_models.Container) (settings : SerializationSettings)
    (out : json) :
  h !! pod_template = Some (OPodTemplate t) ->
  pod_spec t = Some ps ->
  h !! ps = Some (OPodSpec s) ->
  h !! containers s = Some (OList items) ->
  Forall (is_container h) items ->
  _serialize_pod_spec image_config get_registerable_container_image
    pod_template primary_container settings h = (h', Ok out) ->
  exists l,
    serialized_containers out = Some l
    /\ length l
       = length items
         + (if declares h items (primary_container_name t) then 0 else 1).
Proof.
  intros Ht Hps Hs Hl Hitems Hrun.
  destruct (returned_containers _ _ _ _ _ _ _ _ _ _ Ht Hps Hs Hl Hitems Hrun
              (fun _ _ => True) (fun _ => True))
    as (cs & -> & Hlen & _); [done | done | done |].
  eexists. split; [reflexivity|]. by rewrite length_map.
Qed.

(** X17.  A container that is not named as the primary one, and is listed
    once, is shown with the image that the image resolution gives for its
    declared image (or for none), and is otherwise as in the template. *)
Theorem other_container_changes_image_only (h h' : heap)
    (pod_template ps : loc) (t : PodTemplate) (s : V1PodSpec) (items : list loc)
    (primary_container : task_models.Container) (settings : SerializationSettings)
    (out : json) (i : nat) (x : loc) (c : V1Container.t) :
  h !! pod_template = Some (OPodTemplate t) ->
  pod_spec t = Some ps ->
  h !! ps = Some (OPodSpec s) ->
  h !! containers s = Some (OList items) ->
  Forall (is_container h) items ->
  _serialize_pod_spec image_config get_registerable_container_image
    pod_template primary_container settings h = (h', Ok out) ->
  items !! i = Some x ->
  (forall j, items !! j = Some x -> j = i) ->
  h !! x = Some (OContainer c) ->
  V1Container.name c <> primary_container_name t ->
  exists r l,
    get_registerable_container_image (V1Container.image c) (image_config settings)
    = Ok r
    /\ serialized_containers out = Some l
    /\ l !! i = Some (sanitize_container (V1Container.set_image (Some r) c)).
Proof.
  intros Ht Hps Hs Hl Hitems Hrun Hi Honce Hx Hname.
  destruct (listed_once_is_merged _ _ _ _ _ _ _ _ _ _ Ht Hps Hs Hl Hitems Hrun
              i x c Hi Honce Hx) as (c' & cs & Hmerged & -> & Hci).
  unfold merged in Hmerged. apply String.eqb_neq in Hname. rewrite Hname in Hmerged.
  destruct (get_registerable_container_image _ _) as [r|] eqn:Hr; [|done].
  simpl in Hmerged. injection Hmerged as <-.
  exists r. eexists. split_and!; [done | reflexivity |].
  change (map sanitize_container cs) with (sanitize_container <$> cs).
  by rewrite list_lookup_fmap, Hci.
Qed.

(** X18.  A container that is named as the primary one, and is listed once,
    is shown with the command and the arguments of the computed primary
    container; with the computed resources when there are any, and its own
    otherwise; with the computed environment variables before its own; and
    with its own name and remaining attributes. *)
Theorem primary_container_is_overwritten (h h' : heap)
    (pod_template ps : loc) (t : PodTemplate) (s : V1PodSpec) (items : list loc)
    (primary_container : task_models.Container) (settings : SerializationSettings)
    (out : json) (i : nat) (x : loc) (c : V1Container.t) :
  h !! pod_template = Some (OPodTemplate t) ->
  pod_spec t = Some ps ->
  h !! ps = Some (OPodSpec s) ->
  h !! containers s = Some (OList items) ->
  Forall (is_container h) items ->
  _serialize_pod_spec image_config get_registerable_container_image
    pod_template primary_container settings h = (h', Ok out) ->
  items !! i = Some x ->
  (forall j, items !! j = Some x -> j = i) ->
  h !! x = Some (OContainer c) ->
  V1Container.name c = primary_container_name t ->
  exists c' l,
    serialized_containers out = Some l
    /\ l !! i = Some (sanitize_container c')
    /\ V1Container.name c' = V1Container.name c
    /\ V1Container.other c' = V1Container.other c
    /\ V1Container.command c' = Some (task_models.command primary_container)
    /\ V1Container.args c' = task_models.args primary_container
    /\ V1Container.resources c'
       = (let limits :=
            resource_dict (task_models.limits (task_models.resources primary_container)) in
          let requests :=
            resource_dict (task_models.requests (task_models.resources primary_container)) in
          match limits, requests with
          | [], [] => V1Container.resources c
          | _, _ => Some (V1ResourceRequirements.new (Some limits) (Some requests))
          end)
    /\ V1Container.env c'
       = match task_models.env primary_container with
         | Some e =>
           Some (map (fun kv => V1EnvVar.new (fst kv) (Some (snd kv))) e
                 ++ match V1Container.env c with Some l => l | None => [] end)
         | None => V1Container.env c
         end.
Proof.
  intros Ht Hps Hs Hl Hitems Hrun Hi Honce Hx Hname.
  destruct (listed_once_is_merged _ _ _ _ _ _ _ _ _ _ Ht Hps Hs Hl Hitems Hrun
              i x c Hi Honce Hx) as (c' & cs & Hmerged & -> & Hci).
  exists c'. eexists. split; [reflexivity|]. split.
  { change (map sanitize_container cs) with (sanitize_container <$> cs).
    by rewrite list_lookup_fmap, Hci. }
  unfold merged in Hmerged. apply String.eqb_eq in Hname. rewrite Hname in Hmerged.
  destruct (match V1Container.image c with Some _ => _ | None => _ end)
    as [image|]; [|done].
  simpl in Hmerged. injection Hmerged as <-.
  destruct (resource_dict (task_models.limits _)) as [|kv1 limits],
    (resource_dict (task_models.requests _)) as [|kv2 requests],
    (task_models.env primary_container) as [e|];
    simpl; split_and!; try reflexivity;
    unfold env_or_empty; simpl; by destruct (V1Container.env c) as [[|? ?]|].
Qed.

(** *** Exceptions *)

Lemma loop_runs (name : string) (primary_container : task_models.Container)
    (settings : SerializationSettings) (final : loc) (items : list loc) :
  forall (h : heap) (init : list loc),
    h !! final = Some (OList init) ->
    Forall (is_container h) items ->
    exists h' r,
      for_each items
        (fun x =>
           let* _ := merge image_config get_registerable_container_image name
                       primary_container settings x in
           list_append final x) h = (h', r)
      /\ match r with
         | Ok _ =>
           h' !! final = Some (OList (init ++ items))
           /\ (forall x, is_container h x -> is_container h' x)
           /\ (forall x o, h !! x = Some o -> x <> final -> ~ is_container h x ->
                           h' !! x = Some o)
         | Raise e =>
           exists img,
             get_registerable_container_image img (image_config settings) = Raise e
         end.
Proof.
  induction items as [|x items IH]; intros h init Hfinal Hitems.
  { exists h, (Ok tt). rewrite app_nil_r. by split_and!. }
  apply Forall_cons in Hitems as [[c Hx] Hitems].
  destruct (merged image_config get_registerable_container_image name
              primary_container settings c) as [c'|e] eqn:Hc'.
  2:{ exists h, (Raise e). split; [|by eapply merged_raise].
      simpl. unfold bind at 1. unfold bind at 1.
      by rewrite (merge_run _ _ _ _ _ _ _ _ _ _ Hx), Hc'. }
  assert (x <> final) as Hne by (intros ->; congruence).
  assert (x < length h) as Hlenx by (by eapply lookup_lt_Some).
  assert (final < length h) as Hlenf by (by eapply lookup_lt_Some).
  set (h1 := <[final := OList (init ++ [x])]> (<[x := OContainer c']> h)).
  assert (forall y, is_container h y -> is_container h1 y) as Hkeep.
  { intros y [cy Hy]. unfold h1. destruct (decide (y = x)) as [->|Hyx].
    - exists c'. rewrite list_lookup_insert_ne by done.
      by apply list_lookup_insert_eq.
    - exists cy. assert (y <> final) by (intros ->; congruence).
      by rewrite !list_lookup_insert_ne. }
  destruct (IH h1 (init ++ [x])) as (h' & r & Hrun & Hpost).
  { unfold h1. apply list_lookup_insert_eq. by rewrite length_insert. }
  { eapply Forall_impl; [exact Hitems|]. exact Hkeep. }
  exists h', r. split.
  - simpl. unfold bind at 1. unfold bind at 1.
    rewrite (merge_run _ _ _ _ _ _ _ _ _ _ Hx), Hc'.
    rewrite (list_append_run final x _ init) by (by rewrite list_lookup_insert_ne).
    exact Hrun.
  - destruct r as [u|e]; [|done]. destruct Hpost as (Hfinal' & Hcont & Hframe).
    split_and!.
    + by rewrite Hfinal', <- app_assoc.
    + intros y Hy. by apply Hcont, Hkeep.
    + intros y o Hy Hyf Hnot.
      assert (y <> x) as Hyx by (intros ->; apply Hnot; by exists c).
      assert (h1 !! y = Some o) as Hy1
        by (unfold h1; by rewrite !list_lookup_insert_ne).
      apply Hframe; [done | done |].
      intros [cy Hcy]. apply Hnot. exists cy. congruence.
Qed.

(** X19.  Take a well-formed pod template and a computed primary container
    made by the container descriptor builder, whose resource entries are of
    the four kinds the builder knows, so that the name of each kind is
    defined.  Then the only exceptions of the call are those of the image
    resolution: when the call raises, the image resolution has raised that
    exception for some image. *)
Theorem serialize_raises_from_image_resolution_only (h h' : heap)
    (pod_template ps : loc) (t : PodTemplate) (s : V1PodSpec) (items : list loc)
    (image : string) (resource_spec : resources.ResourceSpec)
    (command : list string) (args : option (list string))
    (data_loading_config : option task_models.DataLoadingConfig)
    (environment : option (dict string))
    (primary_container : task_models.Container) (settings : SerializationSettings)
    (e : exn) :
  ContainerDef._get_container_definition image resource_spec command args
    data_loading_config environment = Ok primary_container ->
  h !! pod_template = Some (OPodTemplate t) ->
  pod_spec t = Some ps ->
  h !! ps = Some (OPodSpec s) ->
  h !! containers s = Some (OList items) ->
  Forall (is_container h) items ->
  _serialize_pod_spec image_config get_registerable_container_image
    pod_template primary_container settings h = (h', Raise e) ->
  exists img, get_registerable_container_image img (image_config settings) = Raise e.
Proof.
  intros _ Ht Hps Hs Hl Hitems Hraise.
  destruct (deepcopy_returns _ _ _ _ _ _ Ht Hps Hs Hl Hitems) as (h1 & copy & Hcopy).
  destruct (deepcopy_ok _ _ _ _ _ _ _ _ Ht Hps Hs Hl Hitems Hcopy)
    as (ps' & l' & items' & memo & Hpre & Hcopy' & Hps' & Hl' & [Hmemo _] & Hall).
  assert (Forall (is_container h1) items') as Hcont.
  { apply Forall_forall. intros y Hy. apply list_elem_of_lookup in Hy as [i Hi].
    destruct (Forall2_lookup_r _ _ _ _ _ Hall Hi) as (x & _ & Hxy).
    destruct (Hmemo x y Hxy) as (_ & c & _ & Hc). by exists c. }
  destruct (primary_exists_in_returns (primary_container_name t) items' h1 Hcont)
    as [b Hfind].
  assert (ps' <> l') as Hpl by (intros ->; congruence).
  assert (l' < length h1) as Hlenl by (by eapply lookup_lt_Some).
  assert (exists h2 items'',
            (if b then ret tt
             else let* placeholder :=
                    alloc (OContainer (V1Container.init (primary_container_name t))) in
                  list_append l' placeholder) h1 = (h2, Ok tt)
            /\ h2 !! l' = Some (OList items'')
            /\ h2 !! ps' = Some (OPodSpec {| containers := l';
                                              spec_other := spec_other s |})
            /\ Forall (is_container h2) items'')
    as (h2 & items'' & Hplace & Hl2 & Hps2 & Hcont2).
  { destruct b.
    - by exists h1, items'.
    - exists (<[l' := OList (items' ++ [length h1])]>
                (h1 ++ [OContainer (V1Container.init (primary_container_name t))])),
             (items' ++ [length h1]).
      split_and!.
      + unfold bind, alloc.
        by rewrite (list_append_run l' _ _ items') by (by apply lookup_app_l_Some).
      + apply list_lookup_insert_eq. rewrite length_app. lia.
      + rewrite list_lookup_insert_ne by done. by apply lookup_app_l_Some.
      + apply Forall_app. split.
        * eapply Forall_impl; [exact Hcont|]. intros y [c Hc]. exists c.
          rewrite list_lookup_insert_ne by (intros ->; congruence).
          by apply lookup_app_l_Some.
        * apply Forall_singleton. eexists.
          rewrite list_lookup_insert_ne by lia. by apply list_lookup_middle. }
  set (h3 := h2 ++ [OList []]) in *.
  assert (~ is_container h3 ps') as Hnc.
  { intros [c Hc]. unfold h3 in Hc.
    rewrite (lookup_app_l_Some _ _ _ _ Hps2) in Hc. done. }
  assert (ps' <> length h2) as Hpf by (apply lookup_lt_Some in Hps2; lia).
  destruct (loop_runs (primary_container_name t) primary_container settings
              (length h2) items'' h3 [])
    as (h4 & r & Hloop & Hpost).
  { by apply list_lookup_middle. }
  { eapply Forall_impl; [exact Hcont2|]. intros y [c Hc]. exists c.
    by apply lookup_app_l_Some. }
  unfold _serialize_pod_spec in Hraise.
  unfold bind at 1 in Hraise. rewrite (get_template_run _ _ _ Ht), Hps in Hraise.
  unfold bind at 1 in Hraise. rewrite Hcopy in Hraise.
  unfold bind at 1 in Hraise. rewrite (get_template_run _ _ _ Hcopy') in Hraise.
  cbn [pod_spec primary_container_name] in Hraise.
  unfold bind at 1 in Hraise. rewrite (get_pod_spec_run _ _ _ Hps') in Hraise.
  cbn [containers] in Hraise.
  unfold bind at 1 in Hraise. rewrite (get_list_run _ _ _ Hl') in Hraise.
  unfold bind at 1 in Hraise. rewrite Hfind in Hraise.
  unfold bind at 1 in Hraise. rewrite Hplace in Hraise.
  unfold bind at 1 in Hraise. unfold alloc at 1 in Hraise. fold h3 in Hraise.
  unfold bind at 1 in Hraise.
  rewrite (get_list_run l' h3 items'') in Hraise by (by apply lookup_app_l_Some).
  unfold bind at 1 in Hraise. rewrite Hloop in Hraise.
  destruct r as [[]|e'].
  2:{ injection Hraise as <- <-. exact Hpost. }
  destruct Hpost as (Hfinal4 & Hcont4 & Hframe4).
  assert (h4 !! ps' = Some (OPodSpec {| containers := l'; spec_other := spec_other s |}))
    as Hps4 by (apply Hframe4; [by apply lookup_app_l_Some | done | done]).
  set (h5 := <[ps' := OPodSpec {| containers := length h2;
                                  spec_other := spec_other s |}]> h4) in *.
  assert (ps' < length h4) as Hlen4 by (by eapply lookup_lt_Some).
  destruct (get_containers_returns items'' h5) as [cs Hcs].
  { eapply Forall_impl; [exact Hcont2|]. intros y [c Hc].
    destruct (Hcont4 y) as [c4 Hc4]; [exists c; by apply lookup_app_l_Some|].
    exists c4. unfold h5. rewrite list_lookup_insert_ne; [done|]. intros ->. congruence. }
  unfold bind at 1 in Hraise. unfold set_containers in Hraise.
  unfold bind at 1 in Hraise.
  rewrite (get_pod_spec_run _ _ _ Hps4) in Hraise. unfold assign in Hraise.
  cbn [spec_other] in Hraise. fold h5 in Hraise.
  unfold sanitize_for_serialization in Hraise. unfold bind at 1 in Hraise.
  rewrite (get_pod_spec_run ps' h5 {| containers := length h2;
                                      spec_other := spec_other s |}) in Hraise
    by (by apply list_lookup_insert_eq).
  cbn [containers] in Hraise. unfold bind at 1 in Hraise.
  rewrite (get_list_run (length h2) h5 items'') in Hraise
    by (unfold h5; by rewrite list_lookup_insert_ne).
  unfold bind at 1 in Hraise. rewrite Hcs in Hraise. discriminate Hraise.
Qed.

End SerializerMore.

Import Samples.

Lemma serialized_names_follow_the_template_witness :
  exists h' out,
    _serialize_pod_spec settings_suffix suffix_resolver 4 computed ":v1"
      declared_store = (h', Ok out)
    /\ container_attr out 1 "name" = Some (JStr "sidecar").
Proof.
  pose (run := _serialize_pod_spec settings_suffix suffix_resolver 4 computed ":v1"
                 declared_store).
  exists run.1. eexists. split; [vm_compute; reflexivity|].
  apply (serialized_names_follow_the_template string string settings_suffix
           suffix_resolver declared_store run.1 4 3 (template 3) (spec 2) [0; 1]
           computed ":v1" _ 1 1 sidecar_y); try reflexivity.
  repeat constructor; eexists; reflexivity.
Defined.

Lemma every_serialized_container_has_an_image_witness :
  exists h' out,
    _serialize_pod_spec settings_suffix suffix_resolver 3 computed ":v1"
      sidecar_store = (h', Ok out)
    /\ exists l,
         serialized_containers out = Some l
         /\ Forall (fun j => exists d image, j = JDict d
                                             /\ get d "image" = Some (JStr image)) l.
Proof.
  pose (run := _serialize_pod_spec settings_suffix suffix_resolver 3 computed ":v1"
                 sidecar_store).
  exists run.1. eexists. split; [vm_compute; reflexivity|].
  apply (every_serialized_container_has_an_image string string settings_suffix
           suffix_resolver sidecar_store run.1 3 2 (template 2) (spec 1) [0]
           computed ":v1"); try reflexivity.
  repeat constructor; eexists; reflexivity.
Defined.

Lemma serialized_container_count_witness :
  exists h' out,
    _serialize_pod_spec settings_suffix suffix_resolver 3 computed ":v1"
      sidecar_store = (h', Ok out)
    /\ exists l, serialized_containers out = Some l /\ length l = 2.
Proof.
  pose (run := _serialize_pod_spec settings_suffix suffix_resolver 3 computed ":v1"
                 sidecar_store).
  exists run.1. eexists. split; [vm_compute; reflexivity|].
  apply (serialized_container_count string string settings_suffix
           suffix_resolver sidecar_store run.1 3 2 (template 2) (spec 1) [0]
           computed ":v1"); try reflexivity.
  repeat constructor; eexists; reflexivity.
Defined.

Lemma other_container_changes_image_only_witness :
  exists h' out,
    _serialize_pod_spec settings_suffix suffix_resolver 4 computed ":v1"
      declared_store = (h', Ok out)
    /\ exists r l,
         suffix_resolver (Some "y") (settings_suffix ":v1") = Ok r
         /\ serialized_containers out = Some l
         /\ l !! 1 = Some (sanitize_container (V1Container.set_image (Some r) sidecar_y)).
Proof.
  pose (run := _serialize_pod_spec settings_suffix suffix_resolver 4 computed ":v1"
                 declared_store).
  exists run.1. eexists. split; [vm_compute; reflexivity|].
  apply (other_container_changes_image_only string string settings_suffix
           suffix_resolver declared_store run.1 4 3 (template 3) (spec 2) [0; 1]
           computed ":v1" _ 1 1 sidecar_y); try reflexivity.
  - repeat constructor; eexists; reflexivity.
  - intros [|[|j]] Hj; [discriminate Hj | reflexivity | discriminate Hj].
  - discriminate.
Defined.

Lemma primary_container_is_overwritten_witness :
  exists h' out,
    _serialize_pod_spec settings_suffix suffix_resolver 4 computed ":v1"
      full_store = (h', Ok out)
    /\ exists c' l,
         serialized_containers out = Some l
         /\ l !! 0 = Some (sanitize_container c')
         /\ V1Container.other c' = [("tty", JStr "true")]
         /\ V1Container.command c' = Some ["pyflyte-execute"]
         /\ V1Container.env c'
            = Some [V1EnvVar.new "K" (Some "V"); V1EnvVar.new "A" (Some "B")].
Proof.
  pose (run := _serialize_pod_spec settings_suffix suffix_resolver 4 computed ":v1"
                 full_store).
  exists run.1. eexists. split; [vm_compute; reflexivity|].
  match goal with
  | |- exists c' l, serialized_containers ?out = _ /\ _ =>
    destruct (primary_container_is_overwritten string string settings_suffix
                suffix_resolver full_store run.1 4 3 (template 3) (spec 2) [0; 1]
                computed ":v1" out 0 0 primary_full)
      as (c' & l & H1 & H2 & _ & H4 & H5 & _ & _ & H8); try reflexivity
  end.
  - repeat constructor; eexists; reflexivity.
  - intros [|[|j]] Hj; [reflexivity | discriminate Hj | discriminate Hj].
  - exists c', l. split_and!; [exact H1 | exact H2 | exact H4 | exact H5 | exact H8].
Defined.

Lemma serialize_raises_from_image_resolution_only_witness :
  exists h',
    _serialize_pod_spec settings_suffix suffix_resolver 3 computed ":v1"
      imageless_store = (h', Raise (ValueError "no image"))
    /\ exists img,
         suffix_resolver img (settings_suffix ":v1") = Raise (ValueError "no image").
Proof.
  pose (run := _serialize_pod_spec settings_suffix suffix_resolver 3 computed ":v1"
                 imageless_store).
  exists run.1. split; [vm_compute; reflexivity|].
  apply (serialize_raises_from_image_resolution_only string string settings_suffix
           suffix_resolver imageless_store run.1 3 2 (template 2) (spec 1) [0]
           "task:1" built_spec ["pyflyte-execute"] (Some ["--inputs"]) None
           (Some [("K", "V")]) computed ":v1"); try reflexivity.
  repeat constructor; eexists; reflexivity.
Defined.

End PodSpecMore.

(** ** More on the timing context manager *)

Module TimeitMore.
Import Timeit TimeitWords.

Section TimerMore.
Variables datetime seconds env : Type.
Variable sub : seconds -> seconds -> seconds.
Variable datetime_now : env -> env * datetime.
Variable perf_counter : env -> env * seconds.
Variable process_time : env -> env * seconds.

Lemma enter_state (s : process datetime seconds env)
    (now : datetime) (wall cpu : seconds) (w : env) :
  readings datetime_now perf_counter process_time (world s) = (now, wall, cpu, w) ->
  __enter__ datetime_now perf_counter process_time s
  = ({| self := {| _name := _name (self s); start_time := Some now;
                   _start_wall_time := Some wall; _start_process_time := Some cpu |};
        timeline_deck := timeline_deck s; log := log s; world := w |}, Ok tt).
Proof.
  unfold readings, __enter__.
  destruct (datetime_now (world s)) as [w1 now'].
  destruct (perf_counter w1) as [w2 wall'].
  destruct (process_time w2) as [w3 cpu']. by intros [= -> -> -> ->].
Qed.

Lemma exit_state (exc : option exn) (s1 : process datetime seconds env)
    (name : string) (start : option datetime) (wall0 cpu0 : seconds)
    (now : datetime) (wall cpu : seconds) (w : env) :
  self s1 = {| _name := name; start_time := start;
               _start_wall_time := Some wall0; _start_process_time := Some cpu0 |} ->
  readings datetime_now perf_counter process_time (world s1) = (now, wall, cpu, w) ->
  __exit__ sub datetime_now perf_counter process_time exc s1
  = ({| self := self s1;
        timeline_deck :=
          timeline_deck s1
          ++ [{| Name := name; Start := start; Finish := now;
                 WallTime := sub wall wall0; ProcessTime := sub cpu cpu0 |}];
        log := log s1 ++ [(name, sub wall wall0)];
        world := w |}, Ok false).
Proof.
  intros Hself. unfold readings.
  unfold __exit__, bind, read, get_self, elapsed, append_time_info, logger_info, ret.
  destruct (datetime_now (world s1)) as [w1 now']. simpl.
  destruct (perf_counter w1) as [w2 wall']. simpl.
  destruct (process_time w2) as [w3 cpu']. simpl.
  intros [= -> -> -> ->]. by rewrite Hself.
Qed.

(** A scope whose wrapped code leaves the timer started. *)
Lemma scope_run {A : Type} (body : M (process datetime seconds env) A)
    (s s1 : process datetime seconds env) (r : result A)
    (name : string) (start : option datetime) (wall0 cpu0 : seconds)
    (now : datetime) (wall cpu : seconds) (w : env) :
  body (__enter__ datetime_now perf_counter process_time s).1 = (s1, r) ->
  self s1 = {| _name := name; start_time := start;
               _start_wall_time := Some wall0; _start_process_time := Some cpu0 |} ->
  readings datetime_now perf_counter process_time (world s1) = (now, wall, cpu, w) ->
  with_ (__enter__ datetime_now perf_counter process_time)
    (__exit__ sub datetime_now perf_counter process_time) body s
  = ({| self := self s1;
        timeline_deck :=
          timeline_deck s1
          ++ [{| Name := name; Start := start; Finish := now;
                 WallTime := sub wall wall0; ProcessTime := sub cpu cpu0 |}];
        log := log s1 ++ [(name, sub wall wall0)];
        world := w |},
     match r with Ok v => Ok (Some v) | Raise e => Raise e end).
Proof.
  intros Hbody Hself Hread. unfold with_, bind.
  destruct (readings datetime_now perf_counter process_time (world s))
    as [[[now0 wall0'] cpu0'] w0] eqn:Hread0.
  rewrite (enter_state _ _ _ _ _ Hread0) in *. simpl in Hbody. rewrite Hbody.
  destruct r as [v|e]; by rewrite (exit_state _ _ _ _ _ _ _ _ _ _ Hself Hread).
Qed.

(** X20.  When the wrapped code leaves the timer object alone, the scope
    appends one record whose start is the instant read on entry, whose finish
    is the instant read on exit, and whose wall and processor times are the
    exit readings minus the entry readings; it logs one line with the same
    wall time, and gives the result of the wrapped code. *)
Theorem timeit_record_measures_the_scope {A : Type}
    (body : M (process datetime seconds env) A)
    (s s1 : process datetime seconds env) (r : result A)
    (now0 : datetime) (wall0 cpu0 : seconds) (w0 : env)
    (now1 : datetime) (wall1 cpu1 : seconds) (w1 : env) :
  readings datetime_now perf_counter process_time (world s) = (now0, wall0, cpu0, w0) ->
  body (__enter__ datetime_now perf_counter process_time s).1 = (s1, r) ->
  self s1 = self (__enter__ datetime_now perf_counter process_time s).1 ->
  readings datetime_now perf_counter process_time (world s1) = (now1, wall1, cpu1, w1) ->
  with_ (__enter__ datetime_now perf_counter process_time)
    (__exit__ sub datetime_now perf_counter process_time) body s
  = ({| self := self s1;
        timeline_deck :=
          timeline_deck s1
          ++ [{| Name := _name (self s); Start := Some now0; Finish := now1;
                 WallTime := sub wall1 wall0; ProcessTime := sub cpu1 cpu0 |}];
        log := log s1 ++ [(_name (self s), sub wall1 wall0)];
        world := w1 |},
     match r with Ok v => Ok (Some v) | Raise e => Raise e end).
Proof.
  intros Hread0 Hbody Hself Hread1.
  apply scope_run; [done | | done].
  by rewrite Hself, (enter_state _ _ _ _ _ Hread0).
Qed.

(** X21.  Leaving a scope of a timer that was never started raises a
    [TypeError], from the subtraction of the missing start reading, before
    anything is recorded: the timeline and the log stay as they were. *)
Theorem exit_before_enter_raises (exc : option exn)
    (s1 : process datetime seconds env) :
  _start_wall_time (self s1) = None ->
  exists s2,
    __exit__ sub datetime_now perf_counter process_time exc s1
    = (s2, Raise (TypeError "unsupported operand type(s) for -: 'float' and 'NoneType'"))
    /\ timeline_deck s2 = timeline_deck s1
    /\ log s2 = log s1.
Proof.
  intros Hwall.
  unfold __exit__, bind, read, get_self, elapsed, append_time_info, logger_info, ret.
  destruct (datetime_now (world s1)) as [w1 now']. simpl.
  destruct (perf_counter w1) as [w2 wall']. simpl.
  destruct (process_time w2) as [w3 cpu']. simpl.
  rewrite Hwall. by eexists.
Qed.

Lemma exit_returns_false (exc : option exn) (s1 s2 : process datetime seconds env)
    (b : bool) :
  __exit__ sub datetime_now perf_counter process_time exc s1 = (s2, Ok b) -> b = false.
Proof.
  unfold __exit__, bind, read, get_self, elapsed, append_time_info, logger_info, ret.
  destruct (datetime_now (world s1)) as [w1 now']. simpl.
  destruct (perf_counter w1) as [w2 wall']. simpl.
  destruct (process_time w2) as [w3 cpu']. simpl.
  destruct (_start_wall_time (self s1)); simpl; [|done].
  destruct (_start_process_time (self s1)); simpl; [|done].
  by intros [= _ <-].
Qed.

(** X22.  The scope never swallows an exception: whatever the wrapped code
    does, also to the timer, a scope whose wrapped code raised does not end
    normally, and the decorator's wrapper never returns [None] in place of the
    function's value. *)
Theorem timeit_never_swallows {A : Type}
    (body : M (process datetime seconds env) A)
    (s s2 : process datetime seconds env) :
  with_ (__enter__ datetime_now perf_counter process_time)
    (__exit__ sub datetime_now perf_counter process_time) body s <> (s2, Ok None)
  /\ __call__ sub datetime_now perf_counter process_time (fun _ : unit => body) tt s
     <> (s2, Ok None).
Proof.
  assert (with_ (__enter__ datetime_now perf_counter process_time)
            (__exit__ sub datetime_now perf_counter process_time) body s
          <> (s2, Ok None)) as H; [|by split].
  unfold with_, bind.
  destruct (__enter__ datetime_now perf_counter process_time s) as [s0 [[]|e]];
    [|done].
  destruct (body s0) as [s1 [v|e]].
  - by destruct (__exit__ _ _ _ _ None s1) as [s3 [b|e]].
  - destruct (__exit__ _ _ _ _ (Some e) s1) as [s3 [b|e']] eqn:Hexit; [|done].
    apply exit_returns_false in Hexit as ->. done.
Qed.

(** X23.  A timer is not re-entrant: when a scope of a timer is opened inside
    a scope of the same timer (as when a decorated function calls itself), the
    inner entry overwrites the start readings, so the record of the outer
    scope starts at the inner entry and measures from it. *)
Theorem nested_scopes_measure_from_the_inner_entry {A : Type}
    (body : M (process datetime seconds env) A)
    (s s1 : process datetime seconds env) (v : A)
    (nowI : datetime) (wallI cpuI : seconds) (wI : env)
    (now1 : datetime) (wall1 cpu1 : seconds) (w1 : env)
    (now2 : datetime) (wall2 cpu2 : seconds) (w2 : env) :
  let outer := (__enter__ datetime_now perf_counter process_time s).1 in
  let inner := (__enter__ datetime_now perf_counter process_time outer).1 in
  readings datetime_now perf_counter process_time (world outer)
  = (nowI, wallI, cpuI, wI) ->
  body inner = (s1, Ok v) ->
  self s1 = self inner ->
  readings datetime_now perf_counter process_time (world s1) = (now1, wall1, cpu1, w1) ->
  readings datetime_now perf_counter process_time w1 = (now2, wall2, cpu2, w2) ->
  with_ (__enter__ datetime_now perf_counter process_time)
    (__exit__ sub datetime_now perf_counter process_time)
    (with_ (__enter__ datetime_now perf_counter process_time)
       (__exit__ sub datetime_now perf_counter process_time) body) s
  = ({| self := self s1;
        timeline_deck :=
          timeline_deck s1
          ++ [{| Name := _name (self s); Start := Some nowI; Finish := now1;
                 WallTime := sub wall1 wallI; ProcessTime := sub cpu1 cpuI |};
              {| Name := _name (self s); Start := Some nowI; Finish := now2;
                 WallTime := sub wall2 wallI; ProcessTime := sub cpu2 cpuI |}];
        log := log s1 ++ [(_name (self s), sub wall1 wallI);
                          (_name (self s), sub wall2 wallI)];
        world := w2 |},
     Ok (Some (Some v))).
Proof.
  intros outer inner HreadI Hbody Hself Hread1 Hread2.
  assert (_name (self outer) = _name (self s)) as Hname.
  { unfold outer.
    destruct (readings datetime_now perf_counter process_time (world s))
      as [[[now0 wall0] cpu0] w0] eqn:Hread0.
    by rewrite (enter_state _ _ _ _ _ Hread0). }
  assert (self s1 = {| _name := _name (self s); start_time := Some nowI;
                       _start_wall_time := Some wallI;
                       _start_process_time := Some cpuI |}) as Hself1.
  { rewrite Hself. unfold inner. rewrite (enter_state _ _ _ _ _ HreadI). simpl.
    by rewrite Hname. }
  pose proof (scope_run body outer s1 (Ok v) _ _ _ _ _ _ _ _ Hbody Hself1 Hread1)
    as Hinner.
  rewrite (scope_run _ s _ (Ok (Some v)) _ _ _ _ _ _ _ _ Hinner Hself1 Hread2).
  simpl. by rewrite <- !app_assoc.
Qed.

End TimerMore.

Lemma timeit_record_measures_the_scope_witness :
  with_ (__enter__ ticking ticking ticking) (__exit__ Nat.sub ticking ticking ticking)
    (ret 7) (fresh "load" 10)
  = ({| self := {| _name := "load"; start_time := Some 10;
                   _start_wall_time := Some 11; _start_process_time := Some 12 |};
        timeline_deck :=
          [{| Name := "load"; Start := Some 10; Finish := 13;
              WallTime := 14 - 11; ProcessTime := 15 - 12 |}];
        log := [("load", 14 - 11)];
        world := 16 |}, Ok (Some 7)).
Proof.
  exact (timeit_record_measures_the_scope nat nat nat Nat.sub ticking ticking ticking
           (ret 7) (fresh "load" 10)
           (__enter__ ticking ticking ticking (fresh "load" 10)).1 (Ok 7)
           10 11 12 13 13 14 15 16 eq_refl eq_refl eq_refl eq_refl).
Defined.

Lemma exit_before_enter_raises_witness :
  exists s2,
    __exit__ Nat.sub ticking ticking ticking None (fresh "load" 10)
    = (s2, Raise (TypeError "unsupported operand type(s) for -: 'float' and 'NoneType'"))
    /\ timeline_deck s2 = []
    /\ log s2 = [].
Proof.
  apply (exit_before_enter_raises nat nat nat Nat.sub ticking ticking ticking None
           (fresh "load" 10)).
  reflexivity.
Defined.

Lemma nested_scopes_measure_from_the_inner_entry_witness :
  exists s3 inner outer,
    with_ (__enter__ ticking ticking ticking) (__exit__ Nat.sub ticking ticking ticking)
      (with_ (__enter__ ticking ticking ticking)
         (__exit__ Nat.sub ticking ticking ticking) (ret 7)) (fresh "load" 10)
    = (s3, Ok (Some (Some 7)))
    /\ timeline_deck s3 = [inner; outer]
    /\ Start inner = Some 13 /\ Start outer = Some 13.
Proof.
  eexists _, _, _. split.
  - exact (nested_scopes_measure_from_the_inner_entry nat nat nat Nat.sub
             ticking ticking ticking (ret 7) (fresh "load" 10)
             (__enter__ ticking ticking ticking
                (__enter__ ticking ticking ticking (fresh "load" 10)).1).1 7
             13 14 15 16 16 17 18 19 19 20 21 22
             eq_refl eq_refl eq_refl eq_refl eq_refl).
  - split_and!; reflexivity.
Defined.

End TimeitMore.

(** ** The self-deleting temporary directory *)

Module TempDirFacts.
Import TempDir.

Section FilesFacts.
Variable fs : Type.
Variable mkdtemp : option string -> string -> fs -> fs * result string.
Variable path_exists : string -> fs -> bool.
Variable rmtree : string -> fs -> fs * result unit.

Lemma enter_makes_the_directory (s : process fs) (f0 : fs) (path : string) :
  mkdtemp (_tmp_dir (self s)) (_working_dir_prefix (self s)) (files s) = (f0, Ok path) ->
  __enter__ mkdtemp s
  = ({| self := {| _name := Some path; _tmp_dir := _tmp_dir (self s);
                   _working_dir_prefix := _working_dir_prefix (self s);
                   _cleanup := _cleanup (self s) |};
        files := f0 |}, Ok tt).
Proof.
  intros Hmk. unfold __enter__, bind, get_self, on_files, set_name. by rewrite Hmk.
Qed.

Lemma cleanup_removes (s1 : process fs) (tmp_dir : option string) (prefix : string)
    (cleanup : bool) (f2 : fs) (path : string) :
  self s1 = {| _name := Some path; _tmp_dir := tmp_dir;
               _working_dir_prefix := prefix; _cleanup := cleanup |} ->
  cleanup = true ->
  path <> EmptyString ->
  (path_exists path (files s1) = true -> rmtree path (files s1) = (f2, Ok tt)) ->
  _cleanup_dir path_exists rmtree s1
  = ({| self := {| _name := None; _tmp_dir := tmp_dir;
                   _working_dir_prefix := prefix; _cleanup := true |};
        files := if path_exists path (files s1) then f2 else files s1 |}, Ok tt).
Proof.
  intros Hself -> Hpath Hrm.
  unfold _cleanup_dir, bind, get_self, on_files, set_name, ret.
  rewrite Hself. simpl.
  replace (String.eqb path EmptyString) with false
    by (symmetry; by apply String.eqb_neq).
  simpl.
  destruct (path_exists path (files s1)); [rewrite (Hrm eq_refl)|];
    simpl; by rewrite Hself.
Qed.

(** X24.  Cleaning up is idempotent: after a clean-up that returned, a
    second one (a [force_cleanup] after the scope, say) returns too and changes
    nothing, neither the object nor the file system. *)
Theorem cleanup_is_idempotent (s s1 : process fs) :
  _cleanup_dir path_exists rmtree s = (s1, Ok tt) ->
  force_cleanup path_exists rmtree s1 = (s1, Ok tt).
Proof.
  unfold force_cleanup, _cleanup_dir, bind, get_self, on_files, set_name, ret.
  destruct (_name (self s)) as [path|] eqn:Hname.
  - destruct (negb _ && _) eqn:Hg.
    + destruct (if path_exists path (files s) then _ else _) as [f [[]|e]];
        [|done].
      intros [= <-]. reflexivity.
    + intros [= <-]. by rewrite Hname, Hg.
  - intros [= <-]. by rewrite Hname.
Qed.

(** X25.  A scope of a temporary directory made with [cleanup] enabled
    removes the directory when the scope ends, whether the wrapped code
    returned or raised: the tree is removed if it still exists, the object
    no longer names a directory, and the result is that of the wrapped code. *)
Theorem scope_removes_the_directory {A : Type} (body : M (process fs) A)
    (s s1 : process fs) (r : result A) (f0 f2 : fs) (path : string) :
  _cleanup (self s) = true ->
  mkdtemp (_tmp_dir (self s)) (_working_dir_prefix (self s)) (files s) = (f0, Ok path) ->
  path <> EmptyString ->
  body (__enter__ mkdtemp s).1 = (s1, r) ->
  self s1 = self (__enter__ mkdtemp s).1 ->
  (path_exists path (files s1) = true -> rmtree path (files s1) = (f2, Ok tt)) ->
  Timeit.with_ (__enter__ mkdtemp) (__exit__ path_exists rmtree) body s
  = ({| self := {| _name := None; _tmp_dir := _tmp_dir (self s);
                   _working_dir_prefix := _working_dir_prefix (self s);
                   _cleanup := true |};
        files := if path_exists path (files s1) then f2 else files s1 |},
     match r with Ok v => Ok (Some v) | Raise e => Raise e end).
Proof.
  intros Hclean Hmk Hpath Hbody Hself Hrm.
  rewrite (enter_makes_the_directory _ _ _ Hmk) in Hbody, Hself. simpl in Hbody, Hself.
  unfold Timeit.with_, bind at 1. rewrite (enter_makes_the_directory _ _ _ Hmk), Hbody.
  assert (__exit__ path_exists rmtree
          = fun exc s =>
              (let* _ := _cleanup_dir path_exists rmtree in ret false) s) as Hexit
    by reflexivity.
  rewrite Hexit. unfold bind.
  rewrite (cleanup_removes s1 _ _ _ f2 path Hself Hclean Hpath Hrm).
  by destruct r.
Qed.

(** X26.  With [cleanup] disabled the end of the scope changes nothing: the
    directory and the file system are as the wrapped code left them, and the
    object still names the directory. *)
Theorem scope_without_cleanup_keeps_the_directory {A : Type}
    (body : M (process fs) A) (s s1 : process fs) (r : result A) (f0 : fs)
    (path : string) :
  _cleanup (self s) = false ->
  mkdtemp (_tmp_dir (self s)) (_working_dir_prefix (self s)) (files s) = (f0, Ok path) ->
  body (__enter__ mkdtemp s).1 = (s1, r) ->
  self s1 = self (__enter__ mkdtemp s).1 ->
  Timeit.with_ (__enter__ mkdtemp) (__exit__ path_exists rmtree) body s
  = (s1, match r with Ok v => Ok (Some v) | Raise e => Raise e end)
  /\ _name (self s1) = Some path.
Proof.
  intros Hclean Hmk Hbody Hself.
  rewrite (enter_makes_the_directory _ _ _ Hmk) in Hbody, Hself. simpl in Hbody, Hself.
  split; [|by rewrite Hself].
  unfold Timeit.with_, bind at 1. rewrite (enter_makes_the_directory _ _ _ Hmk), Hbody.
  assert (__exit__ path_exists rmtree
          = fun exc s =>
              (let* _ := _cleanup_dir path_exists rmtree in ret false) s) as Hexit
    by reflexivity.
  assert (_cleanup_dir path_exists rmtree s1 = (s1, Ok tt)) as Hrun.
  { unfold _cleanup_dir, bind, get_self, on_files, set_name, ret.
    rewrite Hself. simpl. rewrite Hclean. by rewrite andb_false_r. }
  rewrite Hexit. unfold bind. rewrite Hrun. by destruct r.
Qed.

(** X27.  When removing the tree fails, the scope ends with the exception of
    the removal, also in place of an exception of the wrapped code, and the
    object still names the directory, so that a later [force_cleanup] tries
    again. *)
Theorem failed_removal_keeps_the_name {A : Type} (body : M (process fs) A)
    (s s1 : process fs) (r : result A) (f0 f2 : fs) (path : string) (e : exn) :
  _cleanup (self s) = true ->
  mkdtemp (_tmp_dir (self s)) (_working_dir_prefix (self s)) (files s) = (f0, Ok path) ->
  path <> EmptyString ->
  body (__enter__ mkdtemp s).1 = (s1, r) ->
  self s1 = self (__enter__ mkdtemp s).1 ->
  path_exists path (files s1) = true ->
  rmtree path (files s1) = (f2, Raise e) ->
  Timeit.with_ (__enter__ mkdtemp) (__exit__ path_exists rmtree) body s
  = ({| self := self s1; files := f2 |}, Raise e)
  /\ _name (self s1) = Some path.
Proof.
  intros Hclean Hmk Hpath Hbody Hself Hex Hrm.
  rewrite (enter_makes_the_directory _ _ _ Hmk) in Hbody, Hself. simpl in Hbody, Hself.
  split; [|by rewrite Hself].
  unfold Timeit.with_, bind at 1. rewrite (enter_makes_the_directory _ _ _ Hmk), Hbody.
  assert (__exit__ path_exists rmtree
          = fun exc s =>
              (let* _ := _cleanup_dir path_exists rmtree in ret false) s) as Hexit
    by reflexivity.
  assert (_cleanup_dir path_exists rmtree s1
          = ({| self := self s1; files := f2 |}, Raise e)) as Hrun.
  { unfold _cleanup_dir, bind, get_self, on_files, set_name, ret.
    rewrite Hself. simpl. rewrite Hclean.
    replace (String.eqb path EmptyString) with false
      by (symmetry; by apply String.eqb_neq).
    simpl.
    rewrite Hex, Hrm. simpl. by rewrite Hself, Hclean. }
  rewrite Hexit. unfold bind. rewrite Hrun. by destruct r.
Qed.

(** X30.  Inside the scope the name of a file in the directory is the path
    made by [mkdtemp] joined with the file's name; the object cannot be used
    after a scope that cleaned up: once the scope has ended normally, asking
    it for such a name raises a [TypeError], since the path is gone. *)
Theorem no_file_names_after_the_scope {A : Type} (body : M (process fs) A)
    (path_join : string -> string -> string)
    (s s1 : process fs) (v : A) (f0 f2 : fs) (path name : string) :
  _cleanup (self s) = true ->
  mkdtemp (_tmp_dir (self s)) (_working_dir_prefix (self s)) (files s) = (f0, Ok path) ->
  path <> EmptyString ->
  body (__enter__ mkdtemp s).1 = (s1, Ok v) ->
  self s1 = self (__enter__ mkdtemp s).1 ->
  (path_exists path (files s1) = true -> rmtree path (files s1) = (f2, Ok tt)) ->
  get_named_tempfile path_join name s1 = (s1, Ok (path_join path name))
  /\ exists s2,
       (let* _ := Timeit.with_ (__enter__ mkdtemp) (__exit__ path_exists rmtree) body in
        get_named_tempfile path_join name) s
       = (s2, Raise (TypeError "expected str, bytes or os.PathLike object, not NoneType")).
Proof.
  intros Hclean Hmk Hpath Hbody Hself Hrm.
  rewrite (enter_makes_the_directory _ _ _ Hmk) in Hbody, Hself.
  simpl in Hbody, Hself. split.
  { unfold get_named_tempfile, bind, get_self. by rewrite Hself. }
  eexists. unfold bind at 1. unfold Timeit.with_, bind at 1.
  rewrite (enter_makes_the_directory _ _ _ Hmk), Hbody.
  assert (__exit__ path_exists rmtree
          = fun exc s =>
              (let* _ := _cleanup_dir path_exists rmtree in ret false) s) as Hexit
    by reflexivity.
  rewrite Hexit. unfold bind at 1.
  rewrite (cleanup_removes s1 _ _ _ f2 path Hself Hclean Hpath Hrm).
  reflexivity.
Qed.

End FilesFacts.

Lemma cleanup_is_idempotent_witness :
  let s := {| self := {| _name := Some "/tmp/a"; _tmp_dir := None;
                         _working_dir_prefix := EmptyString; _cleanup := true |};
              files := ["/tmp/a"; "/tmp/b"] |} in
  exists s1,
    _cleanup_dir sample_exists sample_rmtree s = (s1, Ok tt)
    /\ files s1 = ["/tmp/b"]
    /\ force_cleanup sample_exists sample_rmtree s1 = (s1, Ok tt).
Proof.
  intros s. eexists. split; [reflexivity|]. split; [reflexivity|].
  apply (cleanup_is_idempotent (list string) sample_exists sample_rmtree s).
  reflexivity.
Defined.

Lemma scope_removes_the_directory_witness :
  Timeit.with_ (__enter__ sample_mkdtemp) (__exit__ sample_exists sample_rmtree)
    (raise (Exception "RuntimeError" "boom") : M _ unit)
    {| self := __init__ (Some "job") None true; files := ["/tmp/b"] |}
  = ({| self := {| _name := None; _tmp_dir := None;
                   _working_dir_prefix := "job_"; _cleanup := true |};
        files := ["/tmp/b"] |}, Raise (Exception "RuntimeError" "boom")).
Proof.
  exact (scope_removes_the_directory (list string) sample_mkdtemp sample_exists
           sample_rmtree (raise (Exception "RuntimeError" "boom") : M _ unit)
           {| self := __init__ (Some "job") None true; files := ["/tmp/b"] |}
           _ _ _ ["/tmp/b"] "/tmp/job_0" eq_refl eq_refl
           ltac:(discriminate) eq_refl eq_refl ltac:(reflexivity)).
Defined.

Lemma scope_without_cleanup_keeps_the_directory_witness :
  exists s1,
    Timeit.with_ (__enter__ sample_mkdtemp) (__exit__ sample_exists sample_rmtree)
      (ret 7) {| self := __init__ None None false; files := [] |}
    = (s1, Ok (Some 7))
    /\ _name (self s1) = Some "/tmp/0"
    /\ files s1 = ["/tmp/0"].
Proof.
  eexists.
  destruct (scope_without_cleanup_keeps_the_directory (list string) sample_mkdtemp
              sample_exists sample_rmtree (ret 7)
              {| self := __init__ None None false; files := [] |}
              _ (Ok 7) _ "/tmp/0" eq_refl eq_refl eq_refl eq_refl) as [H1 H2].
  split; [exact H1 | split; [exact H2 | reflexivity]].
Defined.

Lemma failed_removal_keeps_the_name_witness :
  let failing := fun (path : string) (f : list string) =>
                   (f, Raise (Exception "OSError" "busy") : result unit) in
  exists s2,
    Timeit.with_ (__enter__ sample_mkdtemp) (__exit__ sample_exists failing)
      (ret 7) {| self := __init__ None None true; files := [] |}
    = (s2, Raise (Exception "OSError" "busy"))
    /\ _name (self s2) = Some "/tmp/0".
Proof.
  intros failing. eexists.
  destruct (failed_removal_keeps_the_name (list string) sample_mkdtemp
              sample_exists failing (ret 7)
              {| self := __init__ None None true; files := [] |}
              _ (Ok 7) _ ["/tmp/0"] "/tmp/0" (Exception "OSError" "busy")
              eq_refl eq_refl ltac:(discriminate) eq_refl eq_refl eq_refl eq_refl)
    as [H1 H2].
  split; [exact H1 | exact H2].
Defined.

Lemma no_file_names_after_the_scope_witness :
  exists s2,
    (let* _ := Timeit.with_ (__enter__ sample_mkdtemp)
                 (__exit__ sample_exists sample_rmtree) (ret 7) in
     get_named_tempfile (fun a b => (a ++ "/" ++ b)%string) "out.txt")
      {| self := __init__ None None true; files := [] |}
    = (s2, Raise (TypeError "expected str, bytes or os.PathLike object, not NoneType")).
Proof.
  exact (proj2 (no_file_names_after_the_scope (list string) sample_mkdtemp
                  sample_exists sample_rmtree (ret 7)
                  (fun a b => (a ++ "/" ++ b)%string)
                  {| self := __init__ None None true; files := [] |}
                  _ 7 _ [] "/tmp/0" "out.txt" eq_refl eq_refl
                  ltac:(discriminate) eq_refl eq_refl ltac:(reflexivity))).
Defined.

End TempDirFacts.

(** ** The source scan and the boolean parser *)

Module HelpersFacts.
Import pystr Helpers.

Lemma startswith_spec (needle hay : str) :
  startswith hay needle = true <-> exists post, hay = needle ++ post.
Proof.
  revert hay. induction needle as [|c needle IH]; intros hay; simpl.
  { destruct hay; simpl; (split; [by eexists | done]). }
  destruct hay as [|d hay]; simpl.
  { split; [done | by intros [post Hpost]]. }
  rewrite andb_true_iff, N.eqb_eq, IH. split.
  - intros [-> [post ->]]. by exists post.
  - intros [post [= -> ->]]. split; [done | by exists post].
Qed.

Lemma contains_spec (needle hay : str) :
  contains hay needle = true <-> exists pre post, hay = pre ++ needle ++ post.
Proof.
  induction hay as [|d hay IH].
  - change (contains [] needle) with (startswith [] needle || false).
    rewrite orb_false_r, startswith_spec. split.
    + intros [post ->]. by exists [], post.
    + intros (pre & post & H). destruct pre; simpl in H; [by exists post | done].
  - change (contains (d :: hay) needle)
      with (startswith (d :: hay) needle || contains hay needle).
    rewrite orb_true_iff, startswith_spec, IH. split.
    + intros [[post ->]|(pre & post & ->)]; [by exists [], post|].
      by exists (d :: pre), post.
    + intros (pre & post & H). destruct pre as [|p pre]; simpl in H.
      * left. by exists post.
      * right. injection H as -> ->. by exists pre, post.
Qed.

Section ScanFacts.
Variable isspace : char -> bool.
Variable function : Type.
Variable getsourcelines : function -> result (list str * nat).

Lemma lstrip_suffix (s : str) : exists pre, s = pre ++ lstrip isspace s.
Proof.
  induction s as [|c s [pre IH]]; [by exists []|]. simpl.
  destruct (isspace c); [|by exists []].
  exists (c :: pre). simpl. by rewrite <- IH.
Qed.

Lemma lstrip_stops (a : str) (x : char) (rest : str) :
  isspace x = false ->
  exists a', lstrip isspace (a ++ x :: rest) = a' ++ x :: rest.
Proof.
  intros Hx. induction a as [|c a [a' IH]]; simpl.
  - rewrite Hx. by exists [].
  - destruct (isspace c); [by exists a' | by exists (c :: a)].
Qed.

(** Stripping a line neither adds nor removes an occurrence of a word that
    neither starts nor ends with white space. *)
Lemma contains_strip (line middle : str) (x y : char) :
  isspace x = false -> isspace y = false ->
  contains (strip isspace line) (x :: middle ++ [y])
  = contains line (x :: middle ++ [y]).
Proof.
  intros Hx Hy. apply eq_true_iff_eq. rewrite !contains_spec. unfold strip. split.
  - intros (pre & post & H).
    destruct (lstrip_suffix line) as [p1 H1].
    destruct (lstrip_suffix (rev (lstrip isspace line))) as [p2 H2].
    apply (f_equal (@rev char)) in H2. rewrite rev_involutive, rev_app_distr in H2.
    change (@rev char) with (@List.rev char) in *.
    rewrite H in H2. rewrite H2 in H1.
    exists (p1 ++ pre), (post ++ rev p2). rewrite H1.
    by rewrite <- !app_assoc.
  - intros (pre & post & ->).
    destruct (lstrip_stops pre x (middle ++ [y] ++ post) Hx) as [a' Ha].
    replace (pre ++ (x :: middle ++ [y]) ++ post)
      with (pre ++ x :: middle ++ [y] ++ post)
      by (simpl; by rewrite <- !app_assoc).
    rewrite Ha.
    replace (rev (a' ++ x :: middle ++ [y] ++ post))
      with (rev post ++ y :: rev (a' ++ x :: middle))
      by (rewrite !rev_app_distr; simpl; rewrite !rev_app_distr; simpl;
          by rewrite <- !app_assoc).
    destruct (lstrip_stops (rev post) y (rev (a' ++ x :: middle)) Hy) as [b' Hb].
    rewrite Hb. exists a', (rev b').
    rewrite rev_app_distr. simpl. rewrite rev_involutive.
    by rewrite <- !app_assoc.
Qed.

Lemma scan_lines_spec (source_lines : list str) :
  isspace 114%N = false -> isspace 110%N = false ->
  isspace 121%N = false -> isspace 100%N = false ->
  scan_lines isspace source_lines = true
  <-> exists line,
        line ∈ source_lines
        /\ (contains line (of_string "return") = true
            \/ contains line (of_string "yield") = true).
Proof.
  intros Hr Hn Hy Hd.
  assert (forall line,
            contains (strip isspace line) (of_string "return")
            = contains line (of_string "return")) as Hreturn.
  { intros line. exact (contains_strip line (of_string "etur") 114%N 110%N Hr Hn). }
  assert (forall line,
            contains (strip isspace line) (of_string "yield")
            = contains line (of_string "yield")) as Hyield.
  { intros line. exact (contains_strip line (of_string "iel") 121%N 100%N Hy Hd). }
  induction source_lines as [|line rest IH]; simpl.
  { split; [done|]. intros (line & Hin & _). by apply elem_of_nil in Hin. }
  rewrite Hreturn, Hyield.
  destruct (contains line (of_string "return")) eqn:Hc1.
  { split; [|done]. intros _. exists line. split; [by left | by left]. }
  destruct (contains line (of_string "yield")) eqn:Hc2.
  { split; [|done]. intros _. exists line. split; [by left | by right]. }
  rewrite IH. split.
  - intros (l & Hin & Hl). exists l. split; [by right | done].
  - intros (l & Hin & Hl). apply elem_of_cons in Hin as [->|Hin].
    + destruct Hl; congruence.
    + by exists l.
Qed.

(** X28.  The test is a substring test on the source text, not a test for
    statements: the answer is [True] exactly when some source line of the
    function contains the letters [return] or [yield] anywhere (in a name, a
    comment or a string as well), white space playing no role; and the call
    raises exactly when the source cannot be read. *)
Theorem has_return_statement_is_a_substring_test (func : function) :
  isspace 114%N = false -> isspace 110%N = false ->
  isspace 121%N = false -> isspace 100%N = false ->
  (has_return_statement isspace function getsourcelines func = Ok true
   <-> exists source_lines lnum line pre post,
         getsourcelines func = Ok (source_lines, lnum)
         /\ line ∈ source_lines
         /\ (line = pre ++ of_string "return" ++ post
             \/ line = pre ++ of_string "yield" ++ post))
  /\ (forall e, has_return_statement isspace function getsourcelines func = Raise e
                <-> getsourcelines func = Raise e).
Proof.
  intros Hr Hn Hy Hd. unfold has_return_statement.
  destruct (getsourcelines func) as [[source_lines lnum]|e0]; cbn [fst].
  2:{ split; [|intros e; split; intros [= ->]; reflexivity].
      split; [done|]. by intros (? & ? & ? & ? & ? & ? & _). }
  split; [|intros e; split; intros H; discriminate H]. split.
  - intros [= Hscan]. apply scan_lines_spec in Hscan as (line & Hin & Hc); try done.
    destruct Hc as [Hc|Hc]; apply contains_spec in Hc as (pre & post & Hline);
      exists source_lines, lnum, line, pre, post; auto.
  - intros (l0 & n0 & line & pre & post & [= <- <-] & Hin & Hline). f_equal.
    apply scan_lines_spec; try done. exists line. split; [done|].
    destruct Hline as [Hline|Hline]; [left | right];
      apply contains_spec; by exists pre, post.
Qed.

End ScanFacts.

Section LowerFacts.
Variable str_lower : str -> str.

Lemma lower_letter (a b : char) :
  ascii_lower b = true ->
  (if ascii_upper a then (a + 32)%N else a) = b <-> caseless a b.
Proof.
  intros Hb. unfold caseless. unfold ascii_lower, ascii_upper in *.
  apply andb_true_iff in Hb as [H1 H2]. apply N.leb_le in H1, H2.
  destruct ((65 <=? a)%N && (a <=? 90)%N) eqn:Hup.
  - apply andb_true_iff in Hup as [H3 H4]. apply N.leb_le in H3, H4.
    split; [by right | intros [->|H]; [lia | done]].
  - split; [by left|]. intros [H|H]; [done|]. subst b.
    apply andb_false_iff in Hup as [H3|H3]; apply N.leb_gt in H3; lia.
Qed.

Lemma lower_is_word (value word : str) :
  Forall (fun b => ascii_lower b = true) word ->
  ascii_lower_str value = word <-> Forall2 caseless value word.
Proof.
  intros Hword. revert value.
  induction Hword as [|b word Hb _ IH]; intros value.
  - destruct value as [|a value].
    + split; [intros _; constructor | done].
    + split; [intros H; discriminate H | intros H; by apply Forall2_nil_inv_r in H].
  - destruct value as [|a value]; simpl.
    + split; [done|]. intros H. by apply Forall2_nil_inv_l in H.
    + split.
      * intros [= Ha Hrest]. constructor; [by apply lower_letter | by apply IH].
      * intros H. apply Forall2_cons in H as [Ha Hrest].
        f_equal; [by apply lower_letter | by apply IH].
Qed.

(** X29.  On ASCII text the values that count as true are exactly [1] and
    the words [t] and [true] in any mix of capitals and small letters; nothing
    is trimmed, so surrounding white space makes a value false, and so does an
    absent value. *)
Theorem str2bool_true_values (value : str) :
  (forall v, Forall (fun c => is_ascii c = true) v -> str_lower v = ascii_lower_str v) ->
  Forall (fun c => is_ascii c = true) value ->
  (str2bool str_lower (Some value) = true
   <-> value = of_string "1"
       \/ Forall2 caseless value (of_string "t")
       \/ Forall2 caseless value (of_string "true"))
  /\ str2bool str_lower None = false.
Proof.
  intros Hlower Hascii. split; [|done].
  unfold str2bool, str_eqb. simpl. rewrite (Hlower _ Hascii).
  rewrite orb_false_r, !orb_true_iff, !bool_decide_eq_true.
  rewrite (lower_is_word value (of_string "true")) by (by repeat constructor).
  rewrite (lower_is_word value (of_string "t")) by (by repeat constructor).
  change (of_string "1") with [49%N].
  assert (ascii_lower_str value = [49%N] <-> value = [49%N]) as ->.
  { split; [|by intros ->].
    destruct value as [|a [|b value]]; try done.
    unfold ascii_lower_str. cbn [map]. intros [= Ha]. f_equal.
    destruct (ascii_upper a) eqn:Hup; [|done]. unfold ascii_upper in Hup.
    apply andb_true_iff in Hup as [H3 H4]. apply N.leb_le in H3, H4. lia. }
  tauto.
Qed.

End LowerFacts.

Lemma has_return_statement_is_a_substring_test_witness :
  let source := fun _ : unit =>
    Ok ([of_string "def f():"; of_string "    returned = 1  # nothing"], 1) in
  has_return_statement ascii_space unit source tt = Ok true.
Proof.
  intros source.
  destruct (has_return_statement_is_a_substring_test ascii_space unit source tt
              eq_refl eq_refl eq_refl eq_refl) as [[_ H] _].
  apply H.
  exists [of_string "def f():"; of_string "    returned = 1  # nothing"], 1,
    (of_string "    returned = 1  # nothing"), (of_string "    "),
    (of_string "ed = 1  # nothing").
  split_and!; [reflexivity | by right; left | by left].
Defined.

Lemma str2bool_true_values_witness :
  str2bool ascii_lower_str (Some (of_string "TrUe")) = true
  /\ str2bool ascii_lower_str (Some (of_string " true")) = false.
Proof.
  split.
  - destruct (str2bool_true_values ascii_lower_str (of_string "TrUe")) as [[_ H] _];
      [done | by repeat constructor |].
    apply H. right. right. repeat constructor; by right.
  - reflexivity.
Defined.

End HelpersFacts.
